(** * Gemini interface control board: a shallow embedding of the firmware

    The development follows the C sources under [firmware/]:
    - [SevenSeg_Module/sevenSeg.c]      : the hex digit <-> segment code codec,
    - [MatrixKeypad_Module/mtrxKeypad.c]: the keypad scan and commit routines,
    - [geminiControlClient.c]           : display writes, the row increment
      engine, the main loop and the three interrupt service routines.

    An [unsigned char] is a [Z] whose wrap-around is written out with [u8], an
    [unsigned int] (16 bits on the MSP430) with [u16].  Functions that work
    through pointers on the registers, on the globals or on the locals of
    [main] are written in a state monad over [World]; a function that
    receives a pointer to one struct takes the struct and returns its
    new value. *)

From Stdlib Require Import ZArith List Bool Lia.
Import ListNotations.
Open Scope Z_scope.

(** ** Machine integers and bit masks *)

Definition u8 (z : Z) : Z := z mod 256.
Definition u16 (z : Z) : Z := z mod 65536.

(** C truth value of an integer expression. *)
Definition truthy (z : Z) : bool := negb (z =? 0).

(** [x &= ~m] on a byte. *)
Definition clearBits (x m : Z) : Z := Z.land x (Z.lnot m).

Definition BIT0 : Z := 0x01.
Definition BIT1 : Z := 0x02.
Definition BIT2 : Z := 0x04.
Definition BIT3 : Z := 0x08.
Definition BIT4 : Z := 0x10.
Definition BIT5 : Z := 0x20.
Definition BIT6 : Z := 0x40.
Definition BIT7 : Z := 0x80.

(** Arrays are lists indexed by a [Z], as the C index expressions are.
    [nthZ l i d] is [l[i]], or [d] when [i] is not an index of [l];
    [updZ l i x] writes [x] at [l[i]] and leaves [l] as it is when [i] is
    not an index of [l] (callers check the range first, see [updDisp]). *)
Fixpoint nthZ {A : Type} (l : list A) (i : Z) (d : A) : A :=
  match l with
  | [] => d
  | x :: t => if i =? 0 then x else nthZ t (i - 1) d
  end.

Fixpoint updZ {A : Type} (l : list A) (i : Z) (x : A) : list A :=
  match l with
  | [] => []
  | h :: t => if i =? 0 then x :: t else h :: updZ t (i - 1) x
  end.

(** ** The seven segment codec (sevenSeg.c) *)

(** Modelled from the spec: the header [sevenSeg.h] is not part of the
    sources at hand.  The struct has the five members the spec lists for
    a DisplayUnit (polarity flag, hex digit, decimal point flag, pending and
    committed segment pattern), in the order of the compound literal
    [(SEVEN_SEG_DISP){0, DASH_CODE, 0, 0x0, 0x0}] that [main] comments as
    "active high".  [OFF_CODE] is 0x10 by the comment on [segCodeTable];
    [DASH_CODE] is the remaining index 0x11 of that table, whose entry 0x40
    [SevSegToHex] labels DASH. *)
Record SEVEN_SEG_DISP : Type := mkDisp {
  activeLow      : Z;
  hexDigit       : Z;
  dp             : Z;
  nextBinSegCode : Z;
  currBinSegCode : Z
}.

Definition OFF_CODE : Z := 0x10.
Definition DASH_CODE : Z := 0x11.

Definition set_hexDigit (v : Z) (d : SEVEN_SEG_DISP) : SEVEN_SEG_DISP :=
  mkDisp (activeLow d) v (dp d) (nextBinSegCode d) (currBinSegCode d).
Definition set_dp (v : Z) (d : SEVEN_SEG_DISP) : SEVEN_SEG_DISP :=
  mkDisp (activeLow d) (hexDigit d) v (nextBinSegCode d) (currBinSegCode d).
Definition set_nextBinSegCode (v : Z) (d : SEVEN_SEG_DISP) : SEVEN_SEG_DISP :=
  mkDisp (activeLow d) (hexDigit d) (dp d) v (currBinSegCode d).
Definition set_currBinSegCode (v : Z) (d : SEVEN_SEG_DISP) : SEVEN_SEG_DISP :=
  mkDisp (activeLow d) (hexDigit d) (dp d) (nextBinSegCode d) v.

Definition segCodeTable : list Z :=
  [0x3F; 0x06; 0x5B; 0x4F; 0x66; 0x6D; 0x7D; 0x07; 0x7F; 0x6F;
   0x77; 0x7C; 0x39; 0x5E; 0x79; 0x71; 0x00; 0x40].

(** [hexToSevSeg]: returns [convFail] and the display with its
    [nextBinSegCode] recomputed. *)
Definition hexToSevSeg (display : SEVEN_SEG_DISP) : Z * SEVEN_SEG_DISP :=
  let code0 := if truthy (dp display) then BIT7 else 0x00 in
  let valid := hexDigit display <? 0x12 in
  let code1 :=
    if valid then Z.lor code0 (nthZ segCodeTable (hexDigit display) 0) else code0 in
  let convFail := if valid then 0 else 1 in
  let code2 := if truthy (activeLow display) then u8 (Z.lnot code1) else code1 in
  (convFail, set_nextBinSegCode code2 display).

(** [SevSegToHex].  The DASH case of the switch has no [break]: control
    falls into [default], which sets [convFail]. *)
Definition SevSegToHex (display : SEVEN_SEG_DISP) : Z * SEVEN_SEG_DISP :=
  let sevSegCode0 := Z.land (currBinSegCode display) 0x7F in
  let sevSegCode :=
    if truthy (activeLow display) then u8 (Z.lnot sevSegCode0) else sevSegCode0 in
  let '(convFail, display1) :=
    match sevSegCode with
    | 0x3F => (0, set_hexDigit 0x0 display)
    | 0x06 => (0, set_hexDigit 0x1 display)
    | 0x5B => (0, set_hexDigit 0x2 display)
    | 0x4F => (0, set_hexDigit 0x3 display)
    | 0x66 => (0, set_hexDigit 0x4 display)
    | 0x6D => (0, set_hexDigit 0x5 display)
    | 0x7D => (0, set_hexDigit 0x6 display)
    | 0x07 => (0, set_hexDigit 0x7 display)
    | 0x7F => (0, set_hexDigit 0x8 display)
    | 0x6F => (0, set_hexDigit 0x9 display)
    | 0x77 => (0, set_hexDigit 0xA display)
    | 0x7C => (0, set_hexDigit 0xB display)
    | 0x39 => (0, set_hexDigit 0xC display)
    | 0x5E => (0, set_hexDigit 0xD display)
    | 0x79 => (0, set_hexDigit 0xE display)
    | 0x71 => (0, set_hexDigit 0xF display)
    | 0x00 => (0, set_hexDigit OFF_CODE display)
    | 0x40 => (1, set_hexDigit DASH_CODE display)
    | _ => (1, display)
    end in
  if convFail =? 0
  then (convFail,
        set_dp (if truthy (Z.land (currBinSegCode display1) BIT7) then 1 else 0) display1)
  else (convFail, display1).

(** The round trip of the codec: encode [(d, dpFlag)] on a display of the
    given polarity, let the display show the pattern (the committed code is
    what [SevSegToHex] reads), wipe the digit and decimal point members to
    [h0] and [dp0], and decode.  The result is the return code of the decoder
    with the decoded digit and decimal point. *)
Definition codecRoundTrip (polarity d dpFlag h0 dp0 : Z) : Z * Z * Z :=
  let '(_, enc) := hexToSevSeg (mkDisp polarity d dpFlag 0 0) in
  let shown := mkDisp polarity h0 dp0 (nextBinSegCode enc) (nextBinSegCode enc) in
  let '(convFail, dec) := SevSegToHex shown in
  (convFail, hexDigit dec, dp dec).

(** ** Registers, the keypad object and the state of the program *)

Inductive Reg : Type :=
  | P1IN | P1OUT | P1IE | P1IES | P1IFG
  | P2IN | P2OUT | P2DIR | P2SEL | P2REN | P2IE | P2IES | P2IFG
  | P3OUT | TA0CCR0.

Definition Reg_eqb (a b : Reg) : bool :=
  match a, b with
  | P1IN, P1IN | P1OUT, P1OUT | P1IE, P1IE | P1IES, P1IES | P1IFG, P1IFG
  | P2IN, P2IN | P2OUT, P2OUT | P2DIR, P2DIR | P2SEL, P2SEL | P2REN, P2REN
  | P2IE, P2IE | P2IES, P2IES | P2IFG, P2IFG | P3OUT, P3OUT
  | TA0CCR0, TA0CCR0 => true
  | _, _ => false
  end.

(** The port input registers are driven by the pins, not by the program. *)
Definition isInput (r : Reg) : bool :=
  match r with P1IN | P2IN => true | _ => false end.

(** [MATRIX_KEYPAD] (mtrxKeypad.h): register pointers, pin masks and the
    committed coordinate. *)
Record MATRIX_KEYPAD : Type := mkKeypad {
  ROW_IN   : Reg;
  ROW_OUT  : Reg;
  ROW_DIR  : Reg;
  ROW_SEL  : Reg;
  ROW_REN  : Reg;
  ROW_IE   : Reg;
  ROW_IES  : Reg;
  ROW_IFG  : Reg;
  COL_OUT  : Reg;
  COL_DIR  : Reg;
  COL_SEL  : Reg;
  ROW_PINS : Z;
  COL_PINS : Z;
  currKeyCoord : Z
}.

Definition set_currKeyCoord (v : Z) (k : MATRIX_KEYPAD) : MATRIX_KEYPAD :=
  mkKeypad (ROW_IN k) (ROW_OUT k) (ROW_DIR k) (ROW_SEL k) (ROW_REN k) (ROW_IE k)
           (ROW_IES k) (ROW_IFG k) (COL_OUT k) (COL_DIR k) (COL_SEL k)
           (ROW_PINS k) (COL_PINS k) v.

(** One byte written to the SPI transmit buffer, with the chip select
    outputs (display port, LED/button port) as they stand at that moment. *)
Record SpiFrame : Type := mkFrame {
  csDisps : Z;
  csPort1 : Z;
  txByte  : Z
}.

(** An access to [displayArr] outside its [NUM_DISPS] elements. *)
Inductive Access : Type :=
  | Rd (index : Z)
  | Wr (index : Z).

Record World : Type := mkWorld {
  regs            : Reg -> Z;          (* memory mapped registers *)
  pins            : Reg -> nat -> Z;   (* what the n-th read of an input register sees *)
  nreads          : nat;               (* input register reads so far *)
  spiTx           : list SpiFrame;     (* bytes shifted out, oldest first *)
  currSysState    : Z;
  prevSysState    : Z;
  pendingKeyCoord : Z;                 (* private global of mtrxKeypad.c *)
  geminiKeypad    : MATRIX_KEYPAD;
  sevSegDispArr   : list SEVEN_SEG_DISP;   (* locals of main from here on *)
  nextLedSRState  : Z;
  currLedSRState  : Z;
  rowDataBuff     : list (Z * Z);
  invalidKeyPress : Z;
  strayDisp       : SEVEN_SEG_DISP;    (* what lies in memory beyond displayArr *)
  faults          : list Access        (* out of bounds accesses, oldest first *)
}.

Definition set_regs (v : Reg -> Z) (w : World) : World :=
  mkWorld v (pins w) (nreads w) (spiTx w) (currSysState w) (prevSysState w)
          (pendingKeyCoord w) (geminiKeypad w) (sevSegDispArr w) (nextLedSRState w)
          (currLedSRState w) (rowDataBuff w) (invalidKeyPress w) (strayDisp w) (faults w).
Definition set_nreads (v : nat) (w : World) : World :=
  mkWorld (regs w) (pins w) v (spiTx w) (currSysState w) (prevSysState w)
          (pendingKeyCoord w) (geminiKeypad w) (sevSegDispArr w) (nextLedSRState w)
          (currLedSRState w) (rowDataBuff w) (invalidKeyPress w) (strayDisp w) (faults w).
Definition set_spiTx (v : list SpiFrame) (w : World) : World :=
  mkWorld (regs w) (pins w) (nreads w) v (currSysState w) (prevSysState w)
          (pendingKeyCoord w) (geminiKeypad w) (sevSegDispArr w) (nextLedSRState w)
          (currLedSRState w) (rowDataBuff w) (invalidKeyPress w) (strayDisp w) (faults w).
Definition set_currSysState (v : Z) (w : World) : World :=
  mkWorld (regs w) (pins w) (nreads w) (spiTx w) v (prevSysState w)
          (pendingKeyCoord w) (geminiKeypad w) (sevSegDispArr w) (nextLedSRState w)
          (currLedSRState w) (rowDataBuff w) (invalidKeyPress w) (strayDisp w) (faults w).
Definition set_prevSysState (v : Z) (w : World) : World :=
  mkWorld (regs w) (pins w) (nreads w) (spiTx w) (currSysState w) v
          (pendingKeyCoord w) (geminiKeypad w) (sevSegDispArr w) (nextLedSRState w)
          (currLedSRState w) (rowDataBuff w) (invalidKeyPress w) (strayDisp w) (faults w).
Definition set_pendingKeyCoord (v : Z) (w : World) : World :=
  mkWorld (regs w) (pins w) (nreads w) (spiTx w) (currSysState w) (prevSysState w)
          v (geminiKeypad w) (sevSegDispArr w) (nextLedSRState w)
          (currLedSRState w) (rowDataBuff w) (invalidKeyPress w) (strayDisp w) (faults w).
Definition set_geminiKeypad (v : MATRIX_KEYPAD) (w : World) : World :=
  mkWorld (regs w) (pins w) (nreads w) (spiTx w) (currSysState w) (prevSysState w)
          (pendingKeyCoord w) v (sevSegDispArr w) (nextLedSRState w)
          (currLedSRState w) (rowDataBuff w) (invalidKeyPress w) (strayDisp w) (faults w).
Definition set_sevSegDispArr (v : list SEVEN_SEG_DISP) (w : World) : World :=
  mkWorld (regs w) (pins w) (nreads w) (spiTx w) (currSysState w) (prevSysState w)
          (pendingKeyCoord w) (geminiKeypad w) v (nextLedSRState w)
          (currLedSRState w) (rowDataBuff w) (invalidKeyPress w) (strayDisp w) (faults w).
Definition set_nextLedSRState (v : Z) (w : World) : World :=
  mkWorld (regs w) (pins w) (nreads w) (spiTx w) (currSysState w) (prevSysState w)
          (pendingKeyCoord w) (geminiKeypad w) (sevSegDispArr w) v
          (currLedSRState w) (rowDataBuff w) (invalidKeyPress w) (strayDisp w) (faults w).
Definition set_currLedSRState (v : Z) (w : World) : World :=
  mkWorld (regs w) (pins w) (nreads w) (spiTx w) (currSysState w) (prevSysState w)
          (pendingKeyCoord w) (geminiKeypad w) (sevSegDispArr w) (nextLedSRState w)
          v (rowDataBuff w) (invalidKeyPress w) (strayDisp w) (faults w).
Definition set_rowDataBuff (v : list (Z * Z)) (w : World) : World :=
  mkWorld (regs w) (pins w) (nreads w) (spiTx w) (currSysState w) (prevSysState w)
          (pendingKeyCoord w) (geminiKeypad w) (sevSegDispArr w) (nextLedSRState w)
          (currLedSRState w) v (invalidKeyPress w) (strayDisp w) (faults w).
Definition set_invalidKeyPress (v : Z) (w : World) : World :=
  mkWorld (regs w) (pins w) (nreads w) (spiTx w) (currSysState w) (prevSysState w)
          (pendingKeyCoord w) (geminiKeypad w) (sevSegDispArr w) (nextLedSRState w)
          (currLedSRState w) (rowDataBuff w) v (strayDisp w) (faults w).
Definition set_faults (v : list Access) (w : World) : World :=
  mkWorld (regs w) (pins w) (nreads w) (spiTx w) (currSysState w) (prevSysState w)
          (pendingKeyCoord w) (geminiKeypad w) (sevSegDispArr w) (nextLedSRState w)
          (currLedSRState w) (rowDataBuff w) (invalidKeyPress w) (strayDisp w) v.

(** ** The state monad of the firmware *)

Definition M (A : Type) : Type := World -> A * World.

Definition ret {A : Type} (a : A) : M A := fun w => (a, w).
Definition bind {A B : Type} (c : M A) (k : A -> M B) : M B :=
  fun w => let '(a, w1) := c w in k a w1.
Definition gets {A : Type} (f : World -> A) : M A := fun w => (f w, w).
Definition modify (f : World -> World) : M unit := fun w => (tt, f w).

Declare Scope fw_scope.
Delimit Scope fw_scope with fw.
Notation "x <- c ;; k" := (bind c (fun x => k))
  (at level 61, c at next level, right associativity) : fw_scope.
Notation "' p <- c ;; k" := (bind c (fun x => let p := x in k))
  (at level 61, p pattern, c at next level, right associativity) : fw_scope.
Notation "c ;; k" := (bind c (fun _ => k))
  (at level 61, right associativity) : fw_scope.
Open Scope fw_scope.

(** A [for] loop whose index runs through [idxs]. *)
Fixpoint forEach (idxs : list Z) (body : Z -> M unit) : M unit :=
  match idxs with
  | [] => ret tt
  | i :: rest => body i ;; forEach rest body
  end.

Definition upto8 : list Z := [0; 1; 2; 3; 4; 5; 6; 7].

(** Register access.  Reading an input register consumes the next value
    the pins present; the other registers hold what was written last. *)
Definition readReg (r : Reg) : M Z := fun w =>
  if isInput r
  then (pins w r (nreads w), set_nreads (S (nreads w)) w)
  else (regs w r, w).

Definition writeReg (r : Reg) (v : Z) : M unit :=
  modify (fun w => set_regs (fun r' => if Reg_eqb r' r then v else regs w r') w).

(** [*r |= m], [*r &= ~m] and [*r &= m]. *)
Definition orReg (r : Reg) (m : Z) : M unit :=
  v <- readReg r ;; writeReg r (u8 (Z.lor v m)).
Definition clearReg (r : Reg) (m : Z) : M unit :=
  v <- readReg r ;; writeReg r (clearBits v m).
Definition andReg (r : Reg) (m : Z) : M unit :=
  v <- readReg r ;; writeReg r (Z.land v m).

(** [__delay_cycles]: busy waiting changes nothing in the state. *)
Definition delay_cycles (n : Z) : M unit := ret tt.

(** ** The matrix keypad module (mtrxKeypad.c) *)

Definition PRESS_DBNC_DELAY : Z := 300.
Definition RELEASE_DBNC_DELAY : Z := 700.

(** The inner [for] of [scanForKeyPress]; [true] stands for the jump to
    [SCAN_FINISH] with a coordinate stored. *)
Fixpoint scanRows (keypad : MATRIX_KEYPAD) (colPinIndex : Z) (rows : list Z) : M bool :=
  match rows with
  | [] => ret false
  | rowPinIndex :: rest =>
      rowIn <- readReg (ROW_IN keypad) ;;
      if truthy (Z.land (Z.land (Z.shiftl BIT0 rowPinIndex) (ROW_PINS keypad)) rowIn)
      then
        modify (set_pendingKeyCoord (u8 (Z.lor (Z.shiftl colPinIndex 4) rowPinIndex))) ;;
        orReg (ROW_IES keypad) (ROW_PINS keypad) ;;
        ret true
      else scanRows keypad colPinIndex rest
  end.

(** The outer [for]; the result is [scanError]. *)
Fixpoint scanCols (keypad : MATRIX_KEYPAD) (cols : list Z) : M Z :=
  match cols with
  | [] => ret 1
  | colPinIndex :: rest =>
      if negb (truthy (Z.land (Z.shiftl BIT0 colPinIndex) (COL_PINS keypad)))
      then scanCols keypad rest
      else
        clearReg (COL_OUT keypad) (COL_PINS keypad) ;;
        orReg (COL_OUT keypad) (Z.shiftl BIT0 colPinIndex) ;;
        rowIn <- readReg (ROW_IN keypad) ;;
        if truthy (Z.land rowIn (ROW_PINS keypad))
        then
          found <- scanRows keypad colPinIndex upto8 ;;
          if found : bool then ret 0 else scanCols keypad rest
        else scanCols keypad rest
  end.

Definition scanForKeyPress (keypad : MATRIX_KEYPAD) : M Z :=
  clearReg (ROW_IE keypad) (ROW_PINS keypad) ;;
  scanError <- scanCols keypad upto8 ;;
  clearReg (ROW_IFG keypad) (ROW_PINS keypad) ;;
  orReg (COL_OUT keypad) (COL_PINS keypad) ;;
  orReg (ROW_IE keypad) (ROW_PINS keypad) ;;
  ret scanError.

Definition saveKeyPress (keypad : MATRIX_KEYPAD) : M MATRIX_KEYPAD :=
  clearReg (ROW_IE keypad) (ROW_PINS keypad) ;;
  pending <- gets pendingKeyCoord ;;
  let keypad1 := set_currKeyCoord pending keypad in
  clearReg (ROW_IES keypad) (ROW_PINS keypad) ;;
  clearReg (ROW_IFG keypad) (ROW_PINS keypad) ;;
  orReg (ROW_IE keypad) (ROW_PINS keypad) ;;
  ret keypad1.

(** ** The control client (geminiControlClient.c): constants *)

Definition DISPS_CSOUT : Reg := P3OUT.
Definition DISP0 : Z := BIT0.
Definition TOP_DISPS : Z := 0x0F.
Definition BOT_DISPS : Z := 0xF0.
Definition ALL_DISPS : Z := 0xFF.

Definition LEDSR_CSOUT : Reg := P1OUT.
Definition LEDSR : Z := BIT6.
Definition LED_CONTROLLER : Z := BIT0.
Definition LED_PUMP : Z := BIT1.
Definition LED_CC : Z := BIT2.
Definition LED_BLANKBUTTON : Z := BIT3.
Definition LED_MONITOR : Z := BIT4.
Definition LED_SECPIGGYBACK : Z := BIT5.
Definition LED_BATTPWR : Z := BIT6.
Definition LED_PLUGPWR : Z := BIT7.

Definition KEYPAD_PWR_IN : Reg := P1IN.
Definition KEYPAD_PWR_IE : Reg := P1IE.
Definition KEYPAD_PWR_IFG : Reg := P1IFG.
Definition KEYPAD_PWR_BTN : Z := BIT0.

Definition FLAG_KEYPAD_PRESS : Z := BIT0.
Definition FLAG_PWR_OFF : Z := BIT1.
Definition FLAG_RATE_EDIT : Z := BIT2.
Definition FLAG_VTBI_EDIT : Z := BIT3.
Definition FLAG_PUMP_ACTIVE : Z := BIT4.
Definition FLAG_RATE_VALUE : Z := BIT5.
Definition FLAG_VTBI_VALUE : Z := BIT6.

Definition PWR_BTN_PRESS_DELAY : Z := 100000.
Definition PWR_BTN_RELEASE_DELAY : Z := 300000.
Definition DISP_FLASH_DELAY : Z := 262000.

Definition TOP_ROW : Z := 0.
Definition BOT_ROW : Z := 1.
Definition ALL_ROWS : Z := 2.

Definition HUNDREDS_PLACE : Z := 0.
Definition TENS_PLACE : Z := 1.
Definition ONES_PLACE : Z := 2.
Definition TENTHS_PLACE : Z := 3.

Definition NUM_DISPS : Z := 8.

(** [enum GEMINI_KEYS] *)
Definition CC_MONITOR : Z := 0x40.
Definition PAUSE_STOP_DOWN : Z := 0x60.
Definition PAUSE_STOP_ALT : Z := 0x41.
Definition RATE : Z := 0x51.
Definition VTBI : Z := 0x61.
Definition START : Z := 0x71.
Definition HUNDRED : Z := 0x42.
Definition TEN : Z := 0x52.
Definition ONE : Z := 0x62.
Definition TENTH : Z := 0x72.
Definition CLEAR_SILENCE : Z := 0x43.
Definition PC_MODE : Z := 0x53.
Definition SEC_PIGGY_BACK : Z := 0x63.
Definition VOLUME_INFUSED : Z := 0x73.

(** [geminiKeypad]: rows on PORT2<3:0>, columns on PORT2<7:4>. *)
Definition geminiKeypadInit : MATRIX_KEYPAD :=
  mkKeypad P2IN P2OUT P2DIR P2SEL P2REN P2IE P2IES P2IFG P2OUT P2DIR P2SEL 0x0F 0xF0 0x00.

(** ** Access to [displayArr] *)

Definition inBounds (i : Z) : bool := (0 <=? i) && (i <? NUM_DISPS).

(** Reading [displayArr[i]]: beyond the array the read is recorded and
    yields whatever lies there. *)
Definition loadDisp (i : Z) : M SEVEN_SEG_DISP := fun w =>
  if inBounds i
  then (nthZ (sevSegDispArr w) i (strayDisp w), w)
  else (strayDisp w, set_faults (faults w ++ [Rd i]) w).

(** Writing members of [displayArr[i]]; beyond the array the write is
    recorded and the array is left as it is. *)
Definition updDisp (i : Z) (f : SEVEN_SEG_DISP -> SEVEN_SEG_DISP) : M unit := fun w =>
  if inBounds i
  then (tt, set_sevSegDispArr
              (updZ (sevSegDispArr w) i (f (nthZ (sevSegDispArr w) i (strayDisp w)))) w)
  else (tt, set_faults (faults w ++ [Wr i]) w).

Definition getHex (i : Z) : M Z := d <- loadDisp i ;; ret (hexDigit d).
Definition getDp (i : Z) : M Z := d <- loadDisp i ;; ret (dp d).
Definition setHex (i v : Z) : M unit := updDisp i (set_hexDigit v).
Definition setDp (i v : Z) : M unit := updDisp i (set_dp v).

(** A call [f(&displayArr[i])]. *)
Definition atDisp {A : Type} (i : Z) (f : SEVEN_SEG_DISP -> M (A * SEVEN_SEG_DISP)) : M A :=
  d <- loadDisp i ;;
  '(a, d1) <- f d ;;
  updDisp i (fun _ => d1) ;;
  ret a.

(** ** Client functions *)

(** [usciXNSpiPutChar] (spi.c).  The write of the byte to [UCXNTXBUF] is
    recorded as a frame of the transmit log.  The registers of the SPI
    peripheral are not registers of the state: the two busy waits on
    [UCXNIFG] and the clear of [UCXNRXIFG] are left out, and a transmit is
    taken to complete. *)
Definition usciXNSpiPutChar (b : Z) : M unit :=
  modify (fun w => set_spiTx (spiTx w ++ [mkFrame (regs w P3OUT) (regs w P1OUT) b]) w).

Definition writeHexToSevSeg (display : SEVEN_SEG_DISP) (hexCode csPortIndex : Z)
  : M (Z * SEVEN_SEG_DISP) :=
  if currBinSegCode display =? nextBinSegCode display
  then
    let display1 := set_hexDigit hexCode display in
    let convFail := fst (hexToSevSeg display1) in
    let display2 := snd (hexToSevSeg display1) in
    if negb (truthy convFail)
    then
      orReg DISPS_CSOUT (Z.shiftl DISP0 csPortIndex) ;;
      usciXNSpiPutChar (nextBinSegCode display2) ;;
      clearReg DISPS_CSOUT (Z.shiftl DISP0 csPortIndex) ;;
      ret (0, set_currBinSegCode (nextBinSegCode display2) display2)
    else ret (1, display2)
  else if negb (nextBinSegCode display =? currBinSegCode display)
  then ret (2, display)
  else ret (0, display).

(** The body of the [for] of [writeToDispRow], with its [break]. *)
Fixpoint writeToDispRow_loop (idxs : list Z) (rowDataArr : list (Z * Z)) (botRow : Z)
  (errorCode : Z) : M Z :=
  match idxs with
  | [] => ret errorCode
  | dispRowIndex :: rest =>
      let '(dat, dpFlag) := nthZ rowDataArr dispRowIndex (0, 0) in
      setDp (dispRowIndex + botRow) (if truthy dpFlag then 1 else 0) ;;
      errorCode1 <- atDisp (dispRowIndex + botRow)
                      (fun d => writeHexToSevSeg d dat (dispRowIndex + botRow)) ;;
      if truthy errorCode1 then ret errorCode1
      else writeToDispRow_loop rest rowDataArr botRow errorCode1
  end.

Definition writeToDispRow (rowDataArr : list (Z * Z)) (botRow : Z) : M Z :=
  let botRow := if truthy botRow then 4 else botRow in
  writeToDispRow_loop [0; 1; 2; 3] rowDataArr botRow 0.

Definition refreshAllDisps : M unit :=
  forEach upto8 (fun dispIndex =>
    atDisp dispIndex (fun d =>
      let d1 := snd (hexToSevSeg d) in
      ret (tt, set_currBinSegCode (nextBinSegCode d1) d1)) ;;
    orReg DISPS_CSOUT (Z.shiftl DISP0 dispIndex) ;;
    curr <- (d <- loadDisp dispIndex ;; ret (currBinSegCode d)) ;;
    usciXNSpiPutChar curr ;;
    clearReg DISPS_CSOUT (Z.shiftl DISP0 dispIndex)).

(** The "thousand state" test at the head of [incDispRow]; [&&] does not
    read its right operand when the left one is false. *)
Definition thousandStateOf (botRow : Z) : M Z :=
  let dpAt := if truthy botRow then 6 else 2 in
  let hexAt := if truthy botRow then 7 else 3 in
  dp2 <- getDp dpAt ;;
  if dp2 =? 0
  then h3 <- getHex hexAt ;; ret (if negb (h3 =? OFF_CODE) then 1 else 0)
  else ret 0.

(** [case HUNDREDS_PLACE]; the result is the pair of [dispRowIndex] and
    [nextHexCode] at the end of the case. *)
Definition incHundreds (botRow thousandState dispRowIndex nextHexCode : Z) : M (Z * Z) :=
  if (nextHexCode >? 0x9) && negb (nextHexCode - 1 =? OFF_CODE)
  then
    if negb (truthy botRow)
    then
      tens <- getHex (u16 (dispRowIndex + 1)) ;;
      (if tens =? 0x0 then setHex (u16 (dispRowIndex + 1)) OFF_CODE else ret tt) ;;
      ret (dispRowIndex, OFF_CODE)
    else if negb (truthy thousandState)
    then
      ones <- getHex (u16 (dispRowIndex + 2)) ;;
      setHex (u16 (dispRowIndex + 3)) ones ;;
      tens <- getHex (u16 (dispRowIndex + 1)) ;;
      setHex (u16 (dispRowIndex + 2)) tens ;;
      setDp (u16 (dispRowIndex + 2)) 0 ;;
      setHex (u16 (dispRowIndex + 1)) 0x0 ;;
      ret (dispRowIndex, 0x1)
    else
      thousands <- getHex (u16 (dispRowIndex - 1)) ;;
      if thousands =? 0x9
      then
        tens <- getHex (u16 (dispRowIndex + 1)) ;;
        (if tens =? 0x0
         then setHex (u16 dispRowIndex) OFF_CODE
         else tens1 <- getHex (u16 (dispRowIndex + 1)) ;; setHex (u16 dispRowIndex) tens1) ;;
        ones <- getHex (u16 (dispRowIndex + 2)) ;;
        setHex (u16 (dispRowIndex + 1)) ones ;;
        setHex (u16 (dispRowIndex + 2)) OFF_CODE ;;
        ret (u8 (dispRowIndex - 1), OFF_CODE)
      else
        updDisp (u16 (dispRowIndex - 1)) (fun d => set_hexDigit (u8 (hexDigit d + 1)) d) ;;
        ret (dispRowIndex, 0x0)
  else
    let nextHexCode1 := if nextHexCode - 1 =? OFF_CODE then 0x1 else nextHexCode in
    tens <- getHex (u16 (dispRowIndex + 1)) ;;
    (if tens =? OFF_CODE then setHex (u16 (dispRowIndex + 1)) 0x0 else ret tt) ;;
    ones <- getHex (u16 (dispRowIndex + 2)) ;;
    (if ones =? OFF_CODE then setHex (u16 (dispRowIndex + 2)) 0x0 else ret tt) ;;
    ret (dispRowIndex, nextHexCode1).

(** [case TENS_PLACE]; the [else] belongs to the inner [if]. *)
Definition incTens (dispRowIndex nextHexCode : Z) : M (Z * Z) :=
  if nextHexCode - 1 =? OFF_CODE
  then ret (dispRowIndex, 0x1)
  else if nextHexCode >? 0x9
  then
    hundreds <- getHex (u16 (dispRowIndex - 1)) ;;
    if hundreds =? OFF_CODE
    then ret (dispRowIndex, OFF_CODE)
    else ret (dispRowIndex, 0x0)
  else ret (dispRowIndex, nextHexCode).

(** [case ONES_PLACE]. *)
Definition incOnes (dispRowIndex nextHexCode : Z) : M (Z * Z) :=
  if nextHexCode >? 0x9
  then ret (dispRowIndex, 0x0)
  else ret (dispRowIndex, nextHexCode).

(** [case TENTHS_PLACE]. *)
Definition incTenths (thousandState dispRowIndex nextHexCode : Z) : M (Z * Z) :=
  dispRowIndex1 <-
    (if truthy thousandState
     then
       let dispRowIndex := u8 (dispRowIndex - 1) in
       hundreds <- getHex (u16 (dispRowIndex - 2)) ;;
       (if hundreds =? 0x0
        then setHex (u16 (dispRowIndex - 3)) OFF_CODE
        else h <- getHex (u16 (dispRowIndex - 2)) ;; setHex (u16 (dispRowIndex - 3)) h) ;;
       tens <- getHex (u16 (dispRowIndex - 1)) ;;
       (if tens =? 0x0
        then
          newHundreds <- getHex (u16 (dispRowIndex - 3)) ;;
          if newHundreds =? OFF_CODE
          then setHex (u16 (dispRowIndex - 2)) OFF_CODE
          else setHex (u16 (dispRowIndex - 2)) 0x0
        else t <- getHex (u16 (dispRowIndex - 1)) ;; setHex (u16 (dispRowIndex - 2)) t) ;;
       ones <- getHex (u16 dispRowIndex) ;;
       setHex (u16 (dispRowIndex - 1)) ones ;;
       ret dispRowIndex
     else ret dispRowIndex) ;;
  if (nextHexCode - 1 =? OFF_CODE) || truthy thousandState
  then
    setDp (u16 (dispRowIndex1 - 1)) 1 ;;
    ret (dispRowIndex1, 0x1)
  else if nextHexCode >? 0x9
  then
    setDp (u16 (dispRowIndex1 - 1)) 0 ;;
    ret (dispRowIndex1, OFF_CODE)
  else ret (dispRowIndex1, nextHexCode).

Definition incDispRow (digitPos botRow : Z) : M Z :=
  if digitPos <=? TENTHS_PLACE
  then
    let dispRowIndex0 := if truthy botRow then u8 (digitPos + 4) else digitPos in
    thousandState <- thousandStateOf botRow ;;
    let dispRowIndex := u8 (dispRowIndex0 + thousandState) in
    target <- getHex dispRowIndex ;;
    let nextHexCode := u8 (target + 1) in
    '(dispRowIndex1, nextHexCode1) <-
      (match digitPos with
       | 0 => incHundreds botRow thousandState dispRowIndex nextHexCode
       | 1 => incTens dispRowIndex nextHexCode
       | 2 => incOnes dispRowIndex nextHexCode
       | 3 => incTenths thousandState dispRowIndex nextHexCode
       | _ => ret (dispRowIndex, nextHexCode)
       end) ;;
    errorCode <- atDisp dispRowIndex1
                   (fun d => writeHexToSevSeg d nextHexCode1 dispRowIndex1) ;;
    refreshAllDisps ;;
    ret errorCode
  else ret 3.

Definition writeToRowBuff (dat0 dp0 dat1 dp1 dat2 dp2 dat3 dp3 : Z) : M unit :=
  modify (set_rowDataBuff [(dat0, dp0); (dat1, dp1); (dat2, dp2); (dat3, dp3)]).

Definition flashDispRow (rowSel numFlashes : Z) : M unit :=
  let row :=
    if rowSel =? TOP_ROW then TOP_DISPS
    else if rowSel =? BOT_ROW then BOT_DISPS
    else ALL_DISPS in
  forEach (map Z.of_nat (seq 0 (Z.to_nat numFlashes))) (fun flashIndex =>
    orReg DISPS_CSOUT row ;;
    usciXNSpiPutChar 0x00 ;;
    clearReg DISPS_CSOUT row ;;
    delay_cycles DISP_FLASH_DELAY ;;
    refreshAllDisps ;;
    if flashIndex <? numFlashes - 1 then delay_cycles DISP_FLASH_DELAY else ret tt).

Definition disableKeypad : M unit :=
  writeReg TA0CCR0 0 ;;
  modify (fun w => set_prevSysState (clearBits (prevSysState w) FLAG_KEYPAD_PRESS) w) ;;
  modify (fun w => set_currSysState (clearBits (currSysState w) FLAG_KEYPAD_PRESS) w) ;;
  keypad <- gets geminiKeypad ;;
  clearReg (ROW_IE keypad) (ROW_PINS keypad) ;;
  clearReg (ROW_IES keypad) (ROW_PINS keypad) ;;
  clearReg (ROW_IFG keypad) (ROW_PINS keypad).

Definition enableKeypad : M unit :=
  keypad <- gets geminiKeypad ;;
  clearReg (ROW_IFG keypad) (ROW_PINS keypad) ;;
  orReg (ROW_IE keypad) (ROW_PINS keypad).

(** ** Interrupt service routines *)

Definition keypadPressISR : M unit :=
  keypad <- gets geminiKeypad ;;
  ifg <- readReg (ROW_IFG keypad) ;;
  if truthy (Z.land ifg (ROW_PINS keypad))
  then
    clearReg (ROW_IE keypad) (ROW_PINS keypad) ;;
    clearReg (ROW_IFG keypad) (ROW_PINS keypad) ;;
    curr <- gets currSysState ;;
    writeReg TA0CCR0 (if truthy (Z.land curr FLAG_KEYPAD_PRESS)
                      then RELEASE_DBNC_DELAY else PRESS_DBNC_DELAY)
  else
    andReg (ROW_IE keypad) (ROW_PINS keypad) ;;
    andReg (ROW_IFG keypad) (ROW_PINS keypad).

Definition pwrbtnPressISR : M unit :=
  ifg <- readReg KEYPAD_PWR_IFG ;;
  if truthy (Z.land ifg KEYPAD_PWR_BTN)
  then
    disableKeypad ;;
    modify (fun w => set_currSysState (Z.lxor (currSysState w) FLAG_PWR_OFF) w) ;;
    clearReg KEYPAD_PWR_IE KEYPAD_PWR_BTN ;;
    clearReg KEYPAD_PWR_IFG KEYPAD_PWR_BTN
  else
    andReg KEYPAD_PWR_IE KEYPAD_PWR_BTN ;;
    andReg KEYPAD_PWR_IFG KEYPAD_PWR_BTN.

Definition timer0A0ISR : M unit :=
  modify (fun w => set_prevSysState
            (Z.lxor (prevSysState w)
                    (Z.land (Z.lxor (prevSysState w) (currSysState w)) FLAG_KEYPAD_PRESS)) w) ;;
  modify (fun w => set_currSysState (Z.lxor (currSysState w) FLAG_KEYPAD_PRESS) w) ;;
  writeReg TA0CCR0 0.

(** ** The main loop *)

Definition currSys_clear (m : Z) : M unit :=
  modify (fun w => set_currSysState (clearBits (currSysState w) m) w).
Definition currSys_or (m : Z) : M unit :=
  modify (fun w => set_currSysState (Z.lor (currSysState w) m) w).
Definition currSys_xor (m : Z) : M unit :=
  modify (fun w => set_currSysState (Z.lxor (currSysState w) m) w).
Definition prevSys_clear (m : Z) : M unit :=
  modify (fun w => set_prevSysState (clearBits (prevSysState w) m) w).
Definition prevSys_or (m : Z) : M unit :=
  modify (fun w => set_prevSysState (Z.lor (prevSysState w) m) w).
Definition nextLed_clear (m : Z) : M unit :=
  modify (fun w => set_nextLedSRState (clearBits (nextLedSRState w) m) w).
Definition nextLed_or (m : Z) : M unit :=
  modify (fun w => set_nextLedSRState (Z.lor (nextLedSRState w) m) w).
Definition nextLed_xor (m : Z) : M unit :=
  modify (fun w => set_nextLedSRState (Z.lxor (nextLedSRState w) m) w).

(** [if (currSysState & flag)] *)
Definition sysFlag (flag : Z) : M bool :=
  curr <- gets currSysState ;; ret (truthy (Z.land curr flag)).
(** [currLedSRState & led] *)
Definition ledBits (led : Z) : M Z :=
  curr <- gets currLedSRState ;; ret (Z.land curr led).

Definition keyCC_MONITOR : M unit :=
  pumpActive <- sysFlag FLAG_PUMP_ACTIVE ;;
  if negb pumpActive
  then
    cc <- ledBits LED_CC ;;
    blank <- ledBits LED_BLANKBUTTON ;;
    monitor <- ledBits LED_MONITOR ;;
    if negb (truthy (Z.lxor cc blank) || truthy (Z.lxor blank monitor)
             || truthy (Z.lxor cc monitor))
    then nextLed_clear (Z.lor LED_BLANKBUTTON LED_MONITOR) ;; nextLed_or LED_CC
    else if truthy cc
    then nextLed_clear LED_CC ;; nextLed_or LED_BLANKBUTTON
    else if truthy blank
    then nextLed_clear LED_BLANKBUTTON ;; nextLed_or LED_MONITOR
    else if truthy monitor
    then nextLed_clear LED_MONITOR
    else ret tt
  else ret tt.

Definition keyPAUSE_STOP : M unit :=
  currSys_clear (Z.lor FLAG_RATE_EDIT FLAG_VTBI_EDIT) ;;
  currSys_clear FLAG_PUMP_ACTIVE ;;
  flashDispRow ALL_ROWS 1.

(** [case RATE] and [case VTBI] differ in the flags and in the row. *)
Definition keyEdit (otherEdit thisEdit thisValue row : Z) : M unit :=
  pumpActive <- sysFlag FLAG_PUMP_ACTIVE ;;
  if negb pumpActive
  then
    keypad <- gets geminiKeypad ;;
    clearReg (ROW_IE keypad) (ROW_PINS keypad) ;;
    currSys_clear otherEdit ;;
    currSys_xor thisEdit ;;
    editing <- sysFlag thisEdit ;;
    (if editing : bool
     then
       hasValue <- sysFlag thisValue ;;
       (if negb hasValue
        then
          writeToRowBuff OFF_CODE 0 OFF_CODE 0 0x0 0 OFF_CODE 0 ;;
          buff <- gets rowDataBuff ;;
          writeToDispRow buff row ;;
          currSys_or thisValue
        else ret tt) ;;
       flashDispRow row 2
     else flashDispRow row 1) ;;
    clearReg (ROW_IFG keypad) (ROW_PINS keypad) ;;
    orReg (ROW_IE keypad) (ROW_PINS keypad)
  else ret tt.

Definition keySTART : M unit :=
  currSys_clear (Z.lor FLAG_RATE_EDIT FLAG_VTBI_EDIT) ;;
  currSys_or FLAG_PUMP_ACTIVE ;;
  flashDispRow ALL_ROWS 2.

(** [case HUNDRED], [TEN], [ONE] and [TENTH]. *)
Definition keyDigit (digitPos : Z) : M unit :=
  rateEdit <- sysFlag FLAG_RATE_EDIT ;;
  if rateEdit : bool
  then incDispRow digitPos TOP_ROW ;; ret tt
  else
    vtbiEdit <- sysFlag FLAG_VTBI_EDIT ;;
    if vtbiEdit : bool
    then incDispRow digitPos BOT_ROW ;; ret tt
    else ret tt.

Definition keyCLEAR_SILENCE : M unit :=
  pumpActive <- sysFlag FLAG_PUMP_ACTIVE ;;
  if negb pumpActive
  then
    rateEdit <- sysFlag FLAG_RATE_EDIT ;;
    if rateEdit : bool
    then
      writeToRowBuff OFF_CODE 0 OFF_CODE 0 0x0 0 OFF_CODE 0 ;;
      buff <- gets rowDataBuff ;;
      writeToDispRow buff TOP_ROW ;; ret tt
    else
      vtbiEdit <- sysFlag FLAG_VTBI_EDIT ;;
      if vtbiEdit : bool
      then
        writeToRowBuff OFF_CODE 0 OFF_CODE 0 0x0 0 OFF_CODE 0 ;;
        buff <- gets rowDataBuff ;;
        writeToDispRow buff BOT_ROW ;; ret tt
      else
        writeToRowBuff DASH_CODE 0 DASH_CODE 0 DASH_CODE 0 DASH_CODE 0 ;;
        buff <- gets rowDataBuff ;;
        writeToDispRow buff TOP_ROW ;;
        writeToDispRow buff BOT_ROW ;;
        currSys_clear (Z.lor FLAG_RATE_VALUE FLAG_VTBI_VALUE) ;;
        modify (set_nextLedSRState (Z.lor (Z.lor LED_PUMP LED_CC) LED_PLUGPWR))
  else ret tt.

(** [case PC_MODE] and [case VOLUME_INFUSED] differ in the two LEDs. *)
Definition keyTwoLeds (first second : Z) : M unit :=
  pumpActive <- sysFlag FLAG_PUMP_ACTIVE ;;
  if negb pumpActive
  then
    a <- ledBits first ;;
    b <- ledBits second ;;
    if negb (truthy (Z.lxor a b))
    then nextLed_clear second ;; nextLed_or first
    else if truthy a
    then nextLed_clear first ;; nextLed_or second
    else if truthy b
    then nextLed_clear second
    else ret tt
  else ret tt.

Definition keySEC_PIGGY_BACK : M unit :=
  pumpActive <- sysFlag FLAG_PUMP_ACTIVE ;;
  if negb pumpActive then nextLed_xor LED_SECPIGGYBACK else ret tt.

(** [switch (geminiKeypad.currKeyCoord)] *)
Definition keySwitch (coord : Z) : M unit :=
  match coord with
  | 0x40 => keyCC_MONITOR
  | 0x60 | 0x41 => keyPAUSE_STOP
  | 0x51 => keyEdit FLAG_VTBI_EDIT FLAG_RATE_EDIT FLAG_RATE_VALUE TOP_ROW
  | 0x61 => keyEdit FLAG_RATE_EDIT FLAG_VTBI_EDIT FLAG_VTBI_VALUE BOT_ROW
  | 0x71 => keySTART
  | 0x42 => keyDigit HUNDREDS_PLACE
  | 0x52 => keyDigit TENS_PLACE
  | 0x62 => keyDigit ONES_PLACE
  | 0x72 => keyDigit TENTHS_PLACE
  | 0x43 => keyCLEAR_SILENCE
  | 0x53 => keyTwoLeds LED_CONTROLLER LED_PUMP
  | 0x63 => keySEC_PIGGY_BACK
  | 0x73 => keyTwoLeds LED_BATTPWR LED_PLUGPWR
  | _ => ret tt
  end.

(** The write of the LED shift register that ends a keypad event. *)
Definition commitLeds : M unit :=
  next <- gets nextLedSRState ;;
  curr <- gets currLedSRState ;;
  if truthy (Z.lxor next curr)
  then
    orReg LEDSR_CSOUT LEDSR ;;
    usciXNSpiPutChar next ;;
    clearReg LEDSR_CSOUT LEDSR ;;
    modify (set_currLedSRState next)
  else ret tt.

(** The body of [if ((currSysState ^ prevSysState) & FLAG_KEYPAD_PRESS)]. *)
Definition keypadEvent : M unit :=
  pressed <- sysFlag FLAG_KEYPAD_PRESS ;;
  (if pressed : bool
   then
     keypad <- gets geminiKeypad ;;
     scanError <- scanForKeyPress keypad ;;
     modify (set_invalidKeyPress scanError) ;;
     if truthy scanError
     then currSys_clear FLAG_KEYPAD_PRESS ;; prevSys_clear FLAG_KEYPAD_PRESS
     else prevSys_or FLAG_KEYPAD_PRESS
   else
     keypad <- gets geminiKeypad ;;
     keypad1 <- saveKeyPress keypad ;;
     modify (set_geminiKeypad keypad1) ;;
     keySwitch (currKeyCoord keypad1) ;;
     prevSys_clear FLAG_KEYPAD_PRESS) ;;
  commitLeds.

(** [while(!(KEYPAD_PWR_IN & KEYPAD_PWR_BTN));] polls the button pin; the
    loop is bounded by [fuel] reads. *)
Fixpoint waitPwrBtnRelease (fuel : nat) (w : World) : option World :=
  match fuel with
  | O => None
  | S fuel' =>
      let '(pin, w1) := readReg KEYPAD_PWR_IN w in
      if negb (truthy (Z.land pin KEYPAD_PWR_BTN))
      then waitPwrBtnRelease fuel' w1
      else Some w1
  end.

(** The body of [if ((currSysState ^ prevSysState) & FLAG_PWR_OFF)] from
    the second delay on. *)
Definition powerEventTail : M unit :=
  delay_cycles PWR_BTN_RELEASE_DELAY ;;
  off <- sysFlag FLAG_PWR_OFF ;;
  (if off : bool
   then
     currSys_clear (Z.lor (Z.lor FLAG_RATE_EDIT FLAG_VTBI_EDIT) FLAG_PUMP_ACTIVE) ;;
     orReg DISPS_CSOUT ALL_DISPS ;;
     usciXNSpiPutChar 0x00 ;;
     clearReg DISPS_CSOUT ALL_DISPS ;;
     orReg LEDSR_CSOUT LEDSR ;;
     usciXNSpiPutChar LED_PLUGPWR ;;
     clearReg LEDSR_CSOUT LEDSR
   else
     refreshAllDisps ;;
     orReg LEDSR_CSOUT LEDSR ;;
     led <- gets currLedSRState ;;
     usciXNSpiPutChar led ;;
     clearReg LEDSR_CSOUT LEDSR ;;
     enableKeypad) ;;
  modify (fun w => set_prevSysState
            (Z.lxor (prevSysState w)
                    (Z.land (Z.lxor (prevSysState w) (currSysState w)) FLAG_PWR_OFF)) w) ;;
  clearReg KEYPAD_PWR_IFG KEYPAD_PWR_BTN ;;
  orReg KEYPAD_PWR_IE KEYPAD_PWR_BTN.

Definition powerEvent (fuel : nat) (w : World) : option World :=
  match waitPwrBtnRelease fuel (snd (delay_cycles PWR_BTN_PRESS_DELAY w)) with
  | None => None
  | Some w1 => Some (snd (powerEventTail w1))
  end.

(** One turn of [while(1)] in [main]. *)
Definition mainLoopIter (fuel : nat) (w : World) : option World :=
  let w1 :=
    if truthy (Z.land (Z.lxor (currSysState w) (prevSysState w)) FLAG_KEYPAD_PRESS)
    then snd (keypadEvent w) else w in
  if truthy (Z.land (Z.lxor (currSysState w1) (prevSysState w1)) FLAG_PWR_OFF)
  then powerEvent fuel w1
  else Some w1.

(** The displays as [main] sets them up before the loop: all active high
    and showing a dash. *)
Definition initDisp : SEVEN_SEG_DISP :=
  let d := snd (hexToSevSeg (mkDisp 0 DASH_CODE 0 0x0 0x0)) in
  set_currBinSegCode (nextBinSegCode d) d.

(** ** Vocabulary of the statements *)

(** A display whose pending and committed patterns agree. *)
Definition inSync (d : SEVEN_SEG_DISP) : Prop :=
  currBinSegCode d = nextBinSegCode d.

(** What a display shows: its digit and its decimal point flag. *)
Definition shown (d : SEVEN_SEG_DISP) : Z * Z := (hexDigit d, dp d).

(** The four displays of a row, hundreds first. *)
Definition rowOf (botRow : Z) (arr : list SEVEN_SEG_DISP) : list SEVEN_SEG_DISP :=
  firstn 4 (skipn (if truthy botRow then 4 else 0) arr).

Definition rowShown (botRow : Z) (w : World) : list (Z * Z) :=
  map shown (rowOf botRow (sevSegDispArr w)).

(** Overflow ("thousand") mode of a row, as [incDispRow] detects it. *)
Definition overflowMode (botRow : Z) (w : World) : bool :=
  negb (fst (thousandStateOf botRow w) =? 0).

(** An active high display in the steady state, showing digit [h] with
    decimal point flag [dpFlag]. *)
Definition steady (h dpFlag : Z) : SEVEN_SEG_DISP :=
  let d := snd (hexToSevSeg (mkDisp 0 h dpFlag 0x0 0x0)) in
  set_currBinSegCode (nextBinSegCode d) d.

(** The state of the program with the given displays, system flags and LED
    pattern, nothing transmitted yet, the chip selects idle and the pins
    reading as [pinsNow] says. *)
Definition worldWith (arr : list SEVEN_SEG_DISP) (sysState led : Z)
  (pinsNow : Reg -> nat -> Z) : World :=
  mkWorld (fun _ => 0) pinsNow O [] sysState sysState 0x00 geminiKeypadInit
          arr led led [] 0 initDisp [].

Definition quietPins : Reg -> nat -> Z := fun _ _ => 0.

(** [n] presses of the same digit key on the same row. *)
Fixpoint pressTimes (n : nat) (digitPos botRow : Z) (w : World) : list Z * World :=
  match n with
  | O => ([], w)
  | S n' =>
      let '(e, w1) := incDispRow digitPos botRow w in
      let '(es, w2) := pressTimes n' digitPos botRow w1 in
      (e :: es, w2)
  end.

(** What [refreshAllDisps] does to one display: the pattern is recomputed
    from the digit and the decimal point, and committed. *)
Definition resync (d : SEVEN_SEG_DISP) : SEVEN_SEG_DISP :=
  let d1 := snd (hexToSevSeg d) in
  set_currBinSegCode (nextBinSegCode d1) d1.

(** The members of a display that the patterns are computed from. *)
Definition content (d : SEVEN_SEG_DISP) : Z * Z * Z :=
  (activeLow d, hexDigit d, dp d).

(** The slots of a row that decide its overflow mode. *)
Definition onesSlot (botRow : Z) : Z := if truthy botRow then 6 else 2.
Definition tenthsSlot (botRow : Z) : Z := if truthy botRow then 7 else 3.

(** The bottom row showing "1 0 0 0" over a top row of dashes, as after
    ten presses of the hundreds key while the VTBI value is edited. *)
Definition row1000 : list SEVEN_SEG_DISP :=
  [initDisp; initDisp; initDisp; initDisp;
   steady 0x1 0; steady 0x0 0; steady 0x0 0; steady 0x0 0].

Definition world1000 : World :=
  worldWith row1000 (Z.lor FLAG_VTBI_EDIT FLAG_VTBI_VALUE)
            (Z.lor (Z.lor LED_PUMP LED_CC) LED_PLUGPWR) quietPins.

(** The first slot of a row. *)
Definition hundredsSlot (botRow : Z) : Z := if truthy botRow then 4 else 0.

(** The two rows of the scenarios: "9 0 2. 3" on the top and on the bottom
    row, the other row showing dashes. *)
Definition world9023 (botRow : Z) : World :=
  let row := [steady 0x9 0; steady 0x0 0; steady 0x2 1; steady 0x3 0] in
  let dashes := [initDisp; initDisp; initDisp; initDisp] in
  worldWith (if truthy botRow then dashes ++ row else row ++ dashes)
            (Z.lor FLAG_VTBI_EDIT FLAG_VTBI_VALUE)
            (Z.lor (Z.lor LED_PUMP LED_CC) LED_PLUGPWR) quietPins.

(** The digit that [case ONES_PLACE] computes from the digit shown. *)
Definition onesNext (h : Z) : Z :=
  if u8 (h + 1) >? 0x9 then 0x0 else u8 (h + 1).

(** What the ones key relies on: eight displays, the row out of overflow
    mode, the ones display in sync and showing [h]. *)
Definition onesReady (botRow : Z) (w : World) (a h p : Z) : Prop :=
  length (sevSegDispArr w) = 8%nat /\
  overflowMode botRow w = false /\
  inSync (nthZ (sevSegDispArr w) (onesSlot botRow) (strayDisp w)) /\
  content (nthZ (sevSegDispArr w) (onesSlot botRow) (strayDisp w)) = (a, h, p).

(** The top row showing "[blank] [blank] 7 [blank]" while the RATE value is
    edited. *)
Definition world7 : World :=
  worldWith [steady OFF_CODE 0; steady OFF_CODE 0; steady 0x7 0; steady OFF_CODE 0;
             initDisp; initDisp; initDisp; initDisp]
            (Z.lor FLAG_RATE_EDIT FLAG_RATE_VALUE)
            (Z.lor (Z.lor LED_PUMP LED_CC) LED_PLUGPWR) quietPins.

(** The state in which the main loop finds the release of the key at
    [coord]: the coordinate is scanned and pending, the press flag is
    down again in the current snapshot and still up in the previous one. *)
Definition keyReleased (coord : Z) (w : World) : World :=
  set_prevSysState (Z.lor (prevSysState w) FLAG_KEYPAD_PRESS)
    (set_currSysState (clearBits (currSysState w) FLAG_KEYPAD_PRESS)
       (set_pendingKeyCoord coord w)).

(** The panel switched on and idle, with the given LED pattern. *)
Definition idleWith (led : Z) : World :=
  worldWith [initDisp; initDisp; initDisp; initDisp; initDisp; initDisp; initDisp; initDisp]
            0x00 led quietPins.

(** One full press and release of the key at [coord], as the main loop
    sees its release. *)
Definition pressKey (coord : Z) (w : World) : World :=
  match mainLoopIter 0 (keyReleased coord w) with
  | Some w' => w'
  | None => w
  end.

(** What a scan without a match may change: the scanned column output,
    the interrupt enable and flag registers of the rows, and the count of
    pin reads. *)
Definition scanFrame (keypad : MATRIX_KEYPAD) (w w' : World) : Prop :=
  currSysState w' = currSysState w /\ prevSysState w' = prevSysState w /\
  pendingKeyCoord w' = pendingKeyCoord w /\ geminiKeypad w' = geminiKeypad w /\
  sevSegDispArr w' = sevSegDispArr w /\
  nextLedSRState w' = nextLedSRState w /\ currLedSRState w' = currLedSRState w /\
  spiTx w' = spiTx w /\ faults w' = faults w /\
  forall r, r <> COL_OUT keypad -> r <> ROW_IE keypad -> r <> ROW_IFG keypad ->
            regs w' r = regs w r.

(** A press flag raised with no key down: every read of the row port
    sees all rows low. *)
Definition ghostPress : World :=
  set_currSysState FLAG_KEYPAD_PRESS (idleWith (Z.lor (Z.lor LED_PUMP LED_CC) LED_PLUGPWR)).

(** A power event is pending and no keypad event is. *)
Definition powerEventOnly (w : World) : Prop :=
  truthy (Z.land (Z.lxor (currSysState w) (prevSysState w)) FLAG_KEYPAD_PRESS) = false /\
  truthy (Z.land (Z.lxor (currSysState w) (prevSysState w)) FLAG_PWR_OFF) = true.

(** The button pin reads released within the next [fuel] polls. *)
Definition releasedWithin (fuel : nat) (w : World) : Prop :=
  exists k, (k < fuel)%nat /\
    truthy (Z.land (pins w KEYPAD_PWR_IN (nreads w + k)%nat) KEYPAD_PWR_BTN) = true.

(** The chip selects are idle: no display selected, and on port 1 only
    the pull-up of the power button is driven. *)
Definition chipSelectsIdle (w : World) : Prop :=
  regs w DISPS_CSOUT = 0 /\ regs w LEDSR_CSOUT = KEYPAD_PWR_BTN.

(** The pins with the power button released and no key down. *)
Definition releasedPins : Reg -> nat -> Z :=
  fun r _ => match r with P1IN => KEYPAD_PWR_BTN | _ => 0 end.

(** The panel showing "[blank] [blank] 7 [blank]" and dashes when the power
    button interrupt has raised the OFF flag. *)
Definition poweringOff : World :=
  set_regs (fun r => match r with P1OUT => KEYPAD_PWR_BTN | _ => 0 end)
    (set_currSysState FLAG_PWR_OFF
       (worldWith [steady OFF_CODE 0; steady OFF_CODE 0; steady 0x7 0; steady OFF_CODE 0;
                   initDisp; initDisp; initDisp; initDisp]
                  0x00 (Z.lor (Z.lor LED_PUMP LED_CC) LED_PLUGPWR) releasedPins)).

(** ** Vocabulary of the further properties *)

(** Every value of an [unsigned char]. *)
Definition allBytes : list Z := map Z.of_nat (seq 0 256).

(** The digits and sentinels that [segCodeTable] has an entry for. *)
Definition allCodes : list Z := map Z.of_nat (seq 0 18).

(** A computation that leaves the observation [f] of the state as it is,
    whatever the state. *)
Definition keeps {T A : Type} (f : World -> T) (c : M A) : Prop :=
  forall w, f (snd (c w)) = f w.

(** What the display driver has no business with: the system flags, the
    keypad object and its pending coordinate, both LED patterns, the row
    buffer and the count of pin reads. *)
Definition controllerState (w : World) : Z * Z * Z * MATRIX_KEYPAD * Z * Z * list (Z * Z) * nat :=
  (currSysState w, prevSysState w, pendingKeyCoord w, geminiKeypad w,
   nextLedSRState w, currLedSRState w, rowDataBuff w, nreads w).

(** What the keypad module has no business with: the system flags, the
    keypad object, the displays, both LED patterns, the transmit log and
    the log of stray accesses. *)
Definition panelState (w : World)
  : Z * Z * MATRIX_KEYPAD * list SEVEN_SEG_DISP * Z * Z * list SpiFrame * list Access :=
  (currSysState w, prevSysState w, geminiKeypad w, sevSegDispArr w,
   nextLedSRState w, currLedSRState w, spiTx w, faults w).

(** The same without the keypad object, whose committed coordinate
    [saveKeyPress] is there to change. *)
Definition clientState (w : World)
  : Z * Z * list SEVEN_SEG_DISP * Z * Z * list SpiFrame * list Access :=
  (currSysState w, prevSysState w, sevSegDispArr w,
   nextLedSRState w, currLedSRState w, spiTx w, faults w).

(** The value of a computation has a property, whatever the state it runs
    in. *)
Definition yields {A : Type} (P : A -> Prop) (c : M A) : Prop :=
  forall w, P (fst (c w)).


(** The keypad object holds the registers and pins that [main] gave it;
    only the committed coordinate varies. *)
Definition wiredAsGemini (w : World) : Prop :=
  exists coord, geminiKeypad w = set_currKeyCoord coord geminiKeypadInit.

(** The events that the main loop tests for. *)
Definition keypadEventPending (w : World) : bool :=
  truthy (Z.land (Z.lxor (currSysState w) (prevSysState w)) FLAG_KEYPAD_PRESS).
Definition powerEventPending (w : World) : bool :=
  truthy (Z.land (Z.lxor (currSysState w) (prevSysState w)) FLAG_PWR_OFF).


(** The pump runs and no value is being edited: the state that the START
    key leaves. *)
Definition pumpRunning (w : World) : Prop :=
  truthy (Z.land (currSysState w) FLAG_PUMP_ACTIVE) = true /\
  truthy (Z.land (currSysState w) FLAG_RATE_EDIT) = false /\
  truthy (Z.land (currSysState w) FLAG_VTBI_EDIT) = false.

(** The two edit flags of the current snapshot. *)
Definition editBits (w : World) : bool * bool :=
  (Z.testbit (currSysState w) 2, Z.testbit (currSysState w) 3).

(** At most one of the two edit modes is on. *)
Definition editExclusive (w : World) : Prop :=
  Z.testbit (currSysState w) 2 && Z.testbit (currSysState w) 3 = false.


(** A handler that changes nothing but the bits [group] of the pending
    LED pattern. *)
Definition ledGroupOnly (group : Z) (c : M unit) : Prop :=
  forall w, exists next',
    snd (c w) = set_nextLedSRState next' w /\
    Z.land next' (Z.lnot group) = Z.land (nextLedSRState w) (Z.lnot group).

(** A press and release of an LED key as the keypad branch of the main
    loop runs it: the handler, then the write of the LED register. *)
Definition ledPress (handler : M unit) (w : World) : World :=
  snd (commitLeds (snd (handler w))).

(** The pending and the committed LED pattern. *)
Definition ledsOf (w : World) : Z * Z := (nextLedSRState w, currLedSRState w).

(** At most one of the LEDs in [group] is lit in the pattern [led]. *)
Definition atMostOneLit (group led : Z) : bool :=
  Z.land (Z.land led group) (Z.land led group - 1) =? 0.

(** Two states that agree on what an LED key reads: the pump is stopped
    and both LED patterns are [led]. *)
Definition ledReady (led : Z) (w : World) : Prop :=
  truthy (Z.land (currSysState w) FLAG_PUMP_ACTIVE) = false /\
  nextLedSRState w = led /\ currLedSRState w = led.


(** What a row buffer asks a row to show: its digits, with the decimal
    point flags normalised to 0 and 1. *)
Definition asked (rowDataArr : list (Z * Z)) : list (Z * Z) :=
  map (fun e => (fst e, if truthy (snd e) then 1 else 0)) rowDataArr.


(** What a scan may report: no key, with the pending coordinate as it
    was, or a key at the crossing of a column pin and a row pin of the
    keypad, whose coordinate is then pending. *)
Definition scanOutcome (keypad : MATRIX_KEYPAD) (cols : list Z) (w : World)
  (r : Z * World) : Prop :=
  (fst r = 1 /\ pendingKeyCoord (snd r) = pendingKeyCoord w) \/
  (fst r = 0 /\
   exists col row,
     In col cols /\ In row upto8 /\
     truthy (Z.land (Z.shiftl BIT0 col) (COL_PINS keypad)) = true /\
     truthy (Z.land (Z.shiftl BIT0 row) (ROW_PINS keypad)) = true /\
     pendingKeyCoord (snd r) = u8 (Z.lor (Z.shiftl col 4) row)).


(** ** The rest of the SPI module (spi.c) *)

Definition SPI_BUF_SZ : Z := 100.

(** [usciXNSpiTxBuffer].  [buffLen] is an [int], compared as such with
    [SPI_BUF_SZ]; the loop counter is an [unsigned int], so that the loop
    test compares [buffLen] as an unsigned 16 bit number.  [beyond] is
    what lies in memory behind the buffer. *)
Definition usciXNSpiTxBuffer (buffer : list Z) (beyond : Z -> Z) (buffLen : Z) : M Z :=
  if buffLen <=? SPI_BUF_SZ
  then
    forEach (map Z.of_nat (seq 0 (Z.to_nat (u16 buffLen)))) (fun currentChar =>
      usciXNSpiPutChar (nthZ buffer currentChar (beyond currentChar))) ;;
    ret 0
  else ret 1.

(** The registers of the USCI peripheral that [usciXNSpiClkDiv] writes. *)
Record USCIXNSPI : Type := mkUsci {
  UCXNCTL1 : Z;
  UCXNBR0  : Z;
  UCXNBR1  : Z
}.

(** [usciXNSpiClkDiv]; [UCSWRST] is the reset bit mask of the device
    header. *)
Definition usciXNSpiClkDiv (UCSWRST : Z) (usciXN : USCIXNSPI) (sclkDiv : Z) : USCIXNSPI :=
  let ctl1 := u8 (Z.lor (UCXNCTL1 usciXN) UCSWRST) in
  let br0 := u8 (Z.land sclkDiv 0xFF) in
  let br1 := u8 (Z.shiftr sclkDiv 8) in
  mkUsci (clearBits ctl1 UCSWRST) br0 br1.

(* ===================================================================== *)
(** * Properties *)

(** ** Proof infrastructure *)

(** The monadic definitions unfold once they are applied to a state. *)
Arguments bind {A B} c k w /.
Arguments ret {A} a w /.
Arguments gets {A} f w /.
Arguments modify f w /.
Arguments loadDisp i w /.
Arguments updDisp i f w /.
Arguments readReg r w /.
Arguments writeReg r v w /.
Arguments usciXNSpiPutChar b w /.
Arguments orReg r m w /.
Arguments clearReg r m w /.
Arguments andReg r m w /.
Arguments getHex i w /.
Arguments getDp i w /.
Arguments setHex i v w /.
Arguments setDp i v w /.
Arguments atDisp {A} i f w /.
Arguments forEach idxs body w /.
Arguments refreshAllDisps : simpl never.
Arguments thousandStateOf botRow w /.
Arguments incHundreds botRow thousandState dispRowIndex nextHexCode w /.
Arguments incTens dispRowIndex nextHexCode w /.
Arguments incOnes dispRowIndex nextHexCode w /.
Arguments incTenths thousandState dispRowIndex nextHexCode w /.
Arguments incDispRow digitPos botRow w /.
Arguments writeHexToSevSeg display hexCode csPortIndex w /.
Arguments delay_cycles n w /.
Arguments segCodeTable : simpl never.
Arguments sysFlag flag w /.
Arguments ledBits led w /.
Arguments nextLed_clear m w /.
Arguments nextLed_or m w /.
Arguments nextLed_xor m w /.
Arguments currSys_clear m w /.
Arguments currSys_or m w /.
Arguments currSys_xor m w /.
Arguments prevSys_clear m w /.
Arguments prevSys_or m w /.
Arguments enableKeypad : simpl never.
Arguments disableKeypad w /.
Arguments powerEventTail w /.

(** ** The codec *)

Lemma codec_round_trip_active_high (d dpFlag h0 dp0 : Z) :
  0 <= d <= 0x10 -> dpFlag = 0 \/ dpFlag = 1 ->
  codecRoundTrip 0 d dpFlag h0 dp0 = (0, d, dpFlag).
Proof.
  intros Hd Hdp.
  assert (Hcases : d = 0 \/ d = 1 \/ d = 2 \/ d = 3 \/ d = 4 \/ d = 5 \/ d = 6 \/ d = 7
                   \/ d = 8 \/ d = 9 \/ d = 10 \/ d = 11 \/ d = 12 \/ d = 13 \/ d = 14
                   \/ d = 15 \/ d = 16) by lia.
  destruct Hdp; subst dpFlag;
    repeat (destruct Hcases as [-> | Hcases]; [reflexivity |]);
    subst d; reflexivity.
Qed.

Lemma codec_round_trip_active_low_fails (d dpFlag h0 dp0 : Z) :
  0 <= d <= 0x11 -> dpFlag = 0 \/ dpFlag = 1 ->
  codecRoundTrip 1 d dpFlag h0 dp0 = (1, h0, dp0).
Proof.
  intros Hd Hdp.
  assert (Hcases : d = 0 \/ d = 1 \/ d = 2 \/ d = 3 \/ d = 4 \/ d = 5 \/ d = 6 \/ d = 7
                   \/ d = 8 \/ d = 9 \/ d = 10 \/ d = 11 \/ d = 12 \/ d = 13 \/ d = 14
                   \/ d = 15 \/ d = 16 \/ d = 17) by lia.
  destruct Hdp; subst dpFlag;
    repeat (destruct Hcases as [-> | Hcases]; [reflexivity |]);
    subst d; reflexivity.
Qed.

(** C1.  The round trip through [hexToSevSeg] and [SevSegToHex] does not
    recover every input: for the DASH sentinel on an active high display
    the decoder returns 1 and leaves the decimal point unread, and on an
    active low display the decoder returns 1 already for digit 0 and
    decodes nothing. *)
Theorem codec_round_trip_breaks :
  codecRoundTrip 0 DASH_CODE 1 0x0 0 = (1, DASH_CODE, 0) /\
  codecRoundTrip 1 0x0 0 0x5 1 = (1, 0x5, 1).
Proof. split; reflexivity. Qed.

(** ** Display writes *)

Lemma hexToSevSeg_content (d : SEVEN_SEG_DISP) :
  content (snd (hexToSevSeg d)) = content d.
Proof. reflexivity. Qed.

Lemma resync_content (d : SEVEN_SEG_DISP) : content (resync d) = content d.
Proof. reflexivity. Qed.

Lemma resync_inSync (d : SEVEN_SEG_DISP) : inSync (resync d).
Proof. reflexivity. Qed.

(** The patterns that [resync] computes depend on the content alone. *)
Lemma resync_by_content (d1 d2 : SEVEN_SEG_DISP) :
  content d1 = content d2 -> resync d1 = resync d2.
Proof.
  destruct d1, d2; unfold content; cbn.
  intros H; injection H as -> -> ->; reflexivity.
Qed.

Lemma map_resync_by_content (l1 l2 : list SEVEN_SEG_DISP) :
  map content l1 = map content l2 -> map resync l1 = map resync l2.
Proof.
  revert l2; induction l1 as [|a l1 IH]; intros [|b l2] H; try discriminate H.
  - reflexivity.
  - cbn [map] in *.
    assert (Hab : content a = content b) by congruence.
    assert (Hl : map content l1 = map content l2) by congruence.
    rewrite (resync_by_content a b Hab), (IH l2 Hl). reflexivity.
Qed.

Lemma map_resync_steady (l : list SEVEN_SEG_DISP) :
  (forall d, In d l -> resync d = d) -> map resync l = l.
Proof.
  induction l as [|a l IH]; intros H; cbn [map].
  - reflexivity.
  - rewrite (H a (or_introl eq_refl)), IH; [reflexivity |].
    intros d Hd; apply H; right; exact Hd.
Qed.

(** C4.  A display whose committed pattern differs from its pending
    pattern: [writeHexToSevSeg] returns 2, transmits nothing and leaves
    the display, like the rest of the state, as it was. *)
Theorem writeHexToSevSeg_out_of_sync
  (display : SEVEN_SEG_DISP) (hexCode csPortIndex : Z) (w : World) :
  currBinSegCode display <> nextBinSegCode display ->
  writeHexToSevSeg display hexCode csPortIndex w = ((2, display), w).
Proof.
  intros Hne. unfold writeHexToSevSeg.
  destruct (Z.eqb_spec (currBinSegCode display) (nextBinSegCode display)) as [E | _];
    [contradiction |].
  destruct (Z.eqb_spec (nextBinSegCode display) (currBinSegCode display)) as [E | _];
    [symmetry in E; contradiction |].
  reflexivity.
Qed.

Lemma writeHexToSevSeg_out_of_sync_witness :
  currBinSegCode (mkDisp 0 0x5 0 0x6D 0x3F) <> nextBinSegCode (mkDisp 0 0x5 0 0x6D 0x3F) /\
  writeHexToSevSeg (mkDisp 0 0x5 0 0x6D 0x3F) 0x7 2 (worldWith [] 0 0 quietPins)
  = ((2, mkDisp 0 0x5 0 0x6D 0x3F), worldWith [] 0 0 quietPins).
Proof.
  split.
  - cbn. discriminate.
  - apply (writeHexToSevSeg_out_of_sync (mkDisp 0 0x5 0 0x6D 0x3F) 0x7 2
             (worldWith [] 0 0 quietPins)).
    cbn. discriminate.
Defined.



(** Once out of sync by an invalid digit, the display refuses every later
    write, valid or not. *)
Lemma writeHexToSevSeg_stuck_after_invalid (hexCode csPortIndex : Z) (w : World) :
  writeHexToSevSeg (mkDisp 0 0x12 0 0x00 0x3F) hexCode csPortIndex w
  = ((2, mkDisp 0 0x12 0 0x00 0x3F), w).
Proof. reflexivity. Qed.

(** ** [refreshAllDisps] *)

Ltac eight arr H :=
  destruct arr as [|?d [|?d [|?d [|?d [|?d [|?d [|?d [|?d [|? ?]]]]]]]]];
  try discriminate H; clear H.

Lemma refreshAllDisps_run (w : World) :
  length (sevSegDispArr w) = 8%nat ->
  exists w',
    refreshAllDisps w = (tt, w') /\
    sevSegDispArr w' = map resync (sevSegDispArr w) /\
    (exists frames,
       spiTx w' = spiTx w ++ frames /\
       map txByte frames = map currBinSegCode (map resync (sevSegDispArr w))) /\
    faults w' = faults w /\ strayDisp w' = strayDisp w /\
    currSysState w' = currSysState w /\ prevSysState w' = prevSysState w /\
    nextLedSRState w' = nextLedSRState w /\ currLedSRState w' = currLedSRState w /\
    geminiKeypad w' = geminiKeypad w /\ pendingKeyCoord w' = pendingKeyCoord w /\
    (forall r, r <> DISPS_CSOUT -> regs w' r = regs w r).
Proof.
  intros Hlen. destruct w as [rg pn nr tx cs ps pk kp arr nl cl rb ik stray fl].
  cbn [sevSegDispArr] in *. eight arr Hlen.
  eexists. split.
  { lazy -[hexToSevSeg app Z.lor Z.land u8 clearBits]. reflexivity. }
  cbn [sevSegDispArr spiTx faults strayDisp currSysState prevSysState nextLedSRState
       currLedSRState geminiKeypad pendingKeyCoord regs].
  split; [reflexivity |]. split.
  { eexists. split; [repeat rewrite <- app_assoc; reflexivity | reflexivity]. }
  repeat (split; [reflexivity |]).
  intros r Hr. destruct r; try reflexivity. contradiction Hr; reflexivity.
Qed.


(** ** The row increment engine *)

(** Symbolic execution: compute, and settle the tests on unknowns with
    the equations at hand. *)
Ltac symex :=
  repeat (progress (cbn; rewrite ?Z.eqb_refl, ?orb_true_r;
                    repeat match goal with
                           | H : (_ =? _) = _ |- _ => rewrite H
                           end)).

(** Naming the world that [refreshAllDisps] returns. *)
Ltac refreshed w1 Harr Hfl Hstray :=
  match goal with
  | |- context [refreshAllDisps ?W] =>
      let E := fresh "E" in
      destruct (refreshAllDisps_run W eq_refl)
        as (w1 & E & Harr & _ & Hfl & Hstray & _);
      rewrite E; clear E; cbn in Harr, Hfl, Hstray
  end.

Lemma overflowMode_eq (botRow : Z) (w : World) :
  overflowMode botRow w =
  (dp (nthZ (sevSegDispArr w) (onesSlot botRow) (strayDisp w)) =? 0)
  && negb (hexDigit (nthZ (sevSegDispArr w) (tenthsSlot botRow) (strayDisp w)) =? OFF_CODE).
Proof.
  unfold overflowMode, thousandStateOf, onesSlot, tenthsSlot.
  destruct (truthy botRow); cbn;
    match goal with |- context [dp ?d =? 0] => destruct (dp d =? 0) end; cbn;
    try reflexivity;
    match goal with |- context [hexDigit ?d =? OFF_CODE] => destruct (hexDigit d =? OFF_CODE) end;
    reflexivity.
Qed.

(** C2.  With the bottom row in overflow mode, an increment of the tenths
    place reads [displayArr[8]], one element past the array of eight. *)
Theorem incDispRow_tenths_reads_past_array :
  overflowMode BOT_ROW world1000 = true /\
  faults world1000 = [] /\
  faults (snd (incDispRow TENTHS_PLACE BOT_ROW world1000)) = [Rd 8].
Proof. repeat split; vm_compute; reflexivity. Qed.

(** The tenths key on the bottom row showing "1 0 0 0" does not produce
    the row "[blank] 0 [blank]. 1". *)
Lemma incDispRow_tenths_1000_not_blank_0_blank :
  rowShown BOT_ROW (snd (incDispRow TENTHS_PLACE BOT_ROW world1000))
  <> [(OFF_CODE, 0); (0x0, 0); (OFF_CODE, 1); (0x1, 0)].
Proof. vm_compute. discriminate. Qed.

(** C5, as the code has it.  From a bottom row showing "1 0 0 0" with no
    decimal point, whose last display is in sync, one increment of the
    tenths place returns 0, leaves overflow mode and yields
    "[blank] [blank] 0. 1": the first two slots blank, the third slot 0
    with the decimal point set, the fourth slot 1.  The top row is not
    touched. *)
Theorem incDispRow_tenths_from_1000 (w : World) :
  length (sevSegDispArr w) = 8%nat ->
  rowShown BOT_ROW w = [(0x1, 0); (0x0, 0); (0x0, 0); (0x0, 0)] ->
  inSync (nthZ (sevSegDispArr w) 7 (strayDisp w)) ->
  let '(errorCode, w') := incDispRow TENTHS_PLACE BOT_ROW w in
  errorCode = 0 /\
  rowShown BOT_ROW w' = [(OFF_CODE, 0); (OFF_CODE, 0); (0x0, 1); (0x1, 0)] /\
  overflowMode BOT_ROW w' = false /\
  rowShown TOP_ROW w' = rowShown TOP_ROW w.
Proof.
  intros Hlen Hrow Hsync.
  destruct w as [rg pn nr tx cs ps pk kp arr nl cl rb ik stray fl].
  cbn [sevSegDispArr strayDisp] in *. eight arr Hlen.
  destruct d3 as [a4 h4 p4 n4 c4], d4 as [a5 h5 p5 n5 c5],
           d5 as [a6 h6 p6 n6 c6], d6 as [a7 h7 p7 n7 c7].
  cbv in Hrow. injection Hrow as -> -> -> -> -> -> -> ->.
  cbv in Hsync. subst c7.
  symex. refreshed w1 Harr Hfl Hstray.
  rewrite overflowMode_eq. unfold rowShown. rewrite Harr.
  repeat split; reflexivity.
Qed.

Lemma incDispRow_tenths_from_1000_witness :
  length (sevSegDispArr world1000) = 8%nat /\
  rowShown BOT_ROW world1000 = [(0x1, 0); (0x0, 0); (0x0, 0); (0x0, 0)] /\
  inSync (nthZ (sevSegDispArr world1000) 7 (strayDisp world1000)) /\
  let '(errorCode, w') := incDispRow TENTHS_PLACE BOT_ROW world1000 in
  errorCode = 0 /\
  rowShown BOT_ROW w' = [(OFF_CODE, 0); (OFF_CODE, 0); (0x0, 1); (0x1, 0)] /\
  overflowMode BOT_ROW w' = false /\
  rowShown TOP_ROW w' = rowShown TOP_ROW world1000.
Proof.
  split; [reflexivity |]. split; [reflexivity |]. split; [reflexivity |].
  apply (incDispRow_tenths_from_1000 world1000); reflexivity.
Defined.

(** The read past the array is reached from the boot displays by keys
    alone: VTBI, ten times the hundreds key, then the tenths key. *)
Lemma tenths_fault_reachable :
  let editing := pressKey VTBI (idleWith (Z.lor (Z.lor LED_PUMP LED_CC) LED_PLUGPWR)) in
  let thousand := Nat.iter 10 (pressKey HUNDRED) editing in
  rowShown BOT_ROW editing = [(OFF_CODE, 0); (OFF_CODE, 0); (0x0, 0); (OFF_CODE, 0)] /\
  rowShown BOT_ROW thousand = [(0x1, 0); (0x0, 0); (0x0, 0); (0x0, 0)] /\
  faults thousand = [] /\
  faults (pressKey TENTH thousand) = [Rd 8].
Proof. vm_compute. repeat split; reflexivity. Qed.

(** C6.  A hundreds increment from 9 on a row that is not in overflow
    mode and whose first display is in sync.  On the top row the hundreds
    slot becomes OFF and the tens slot becomes OFF if it was 0.  On the
    bottom row the tens and ones digits move one slot to the right, the
    slot that receives the tens digit loses its decimal point, the
    hundreds digit becomes 0 in the second slot and the first slot shows
    1; the row is then in overflow mode as soon as the ones slot held a
    digit.  The other row is not touched. *)
Theorem incDispRow_hundreds_from_9
  (w : World) (botRow t o th p0 p1 p2 p3 : Z) :
  length (sevSegDispArr w) = 8%nat ->
  botRow = TOP_ROW \/ botRow = BOT_ROW ->
  rowShown botRow w = [(0x9, p0); (t, p1); (o, p2); (th, p3)] ->
  overflowMode botRow w = false ->
  inSync (nthZ (sevSegDispArr w) (hundredsSlot botRow) (strayDisp w)) ->
  let '(errorCode, w') := incDispRow HUNDREDS_PLACE botRow w in
  errorCode = 0 /\
  (botRow = TOP_ROW ->
     rowShown TOP_ROW w'
       = [(OFF_CODE, p0); (if t =? 0x0 then OFF_CODE else t, p1); (o, p2); (th, p3)] /\
     rowShown BOT_ROW w' = rowShown BOT_ROW w) /\
  (botRow = BOT_ROW ->
     rowShown BOT_ROW w' = [(0x1, p0); (0x0, p1); (t, 0); (o, p3)] /\
     (o <> OFF_CODE -> overflowMode BOT_ROW w' = true) /\
     rowShown TOP_ROW w' = rowShown TOP_ROW w).
Proof.
  intros Hlen Hrow Hshown Hovf Hsync.
  rewrite overflowMode_eq in Hovf.
  destruct w as [rg pn nr tx cs ps pk kp arr nl cl rb ik stray fl].
  cbn [sevSegDispArr strayDisp] in *. eight arr Hlen.
  destruct Hrow as [-> | ->].
  - destruct d as [a0 h0 q0 n0 c0], d0 as [a1 h1 q1 n1 c1],
             d1 as [a2 h2 q2 n2 c2], d2 as [a3 h3 q3 n3 c3].
    cbv in Hshown. injection Hshown as -> -> -> -> -> -> -> ->.
    cbv in Hsync. subst c0. cbn in Hovf.
    destruct (p2 =? 0) eqn:E1;
      [destruct (th =? OFF_CODE) eqn:E2; [| discriminate Hovf] |];
      destruct (t =? 0) eqn:E3;
      symex; refreshed w1 Harr Hfl Hstray; unfold rowShown; rewrite Harr;
      (split; [reflexivity |]); (split; [intros _ | intros Hb; discriminate Hb]);
      split; reflexivity.
  - destruct d3 as [a0 h0 q0 n0 c0], d4 as [a1 h1 q1 n1 c1],
             d5 as [a2 h2 q2 n2 c2], d6 as [a3 h3 q3 n3 c3].
    cbv in Hshown. injection Hshown as -> -> -> -> -> -> -> ->.
    cbv in Hsync. subst c0. cbn in Hovf.
    destruct (p2 =? 0) eqn:E1;
      [destruct (th =? OFF_CODE) eqn:E2; [| discriminate Hovf] |];
      symex; refreshed w1 Harr Hfl Hstray;
      rewrite overflowMode_eq; unfold rowShown; rewrite Harr;
      (split; [reflexivity |]); (split; [intros Hb; discriminate Hb | intros _]);
      (split; [reflexivity |]); (split; [| reflexivity]);
      intros Ho; cbn; apply Z.eqb_neq in Ho; rewrite Ho; reflexivity.
Qed.

Lemma incDispRow_hundreds_from_9_witness :
  (rowShown TOP_ROW (world9023 TOP_ROW) = [(0x9, 0); (0x0, 0); (0x2, 1); (0x3, 0)] /\
   overflowMode TOP_ROW (world9023 TOP_ROW) = false /\
   rowShown TOP_ROW (snd (incDispRow HUNDREDS_PLACE TOP_ROW (world9023 TOP_ROW)))
     = [(OFF_CODE, 0); (OFF_CODE, 0); (0x2, 1); (0x3, 0)]) /\
  (rowShown BOT_ROW (world9023 BOT_ROW) = [(0x9, 0); (0x0, 0); (0x2, 1); (0x3, 0)] /\
   overflowMode BOT_ROW (world9023 BOT_ROW) = false /\
   rowShown BOT_ROW (snd (incDispRow HUNDREDS_PLACE BOT_ROW (world9023 BOT_ROW)))
     = [(0x1, 0); (0x0, 0); (0x0, 0); (0x2, 0)] /\
   overflowMode BOT_ROW (snd (incDispRow HUNDREDS_PLACE BOT_ROW (world9023 BOT_ROW))) = true).
Proof.
  split.
  - split; [reflexivity |]. split; [reflexivity |].
    pose proof (incDispRow_hundreds_from_9 (world9023 TOP_ROW) TOP_ROW 0x0 0x2 0x3 0 0 1 0
                  eq_refl (or_introl eq_refl) eq_refl eq_refl eq_refl) as H.
    destruct (incDispRow HUNDREDS_PLACE TOP_ROW (world9023 TOP_ROW)) as [e w'].
    destruct H as (_ & Htop & _). exact (proj1 (Htop eq_refl)).
  - split; [reflexivity |]. split; [reflexivity |].
    pose proof (incDispRow_hundreds_from_9 (world9023 BOT_ROW) BOT_ROW 0x0 0x2 0x3 0 0 1 0
                  eq_refl (or_intror eq_refl) eq_refl eq_refl eq_refl) as H.
    destruct (incDispRow HUNDREDS_PLACE BOT_ROW (world9023 BOT_ROW)) as [e w'].
    destruct H as (_ & _ & Hbot). destruct (Hbot eq_refl) as (Hr & Ho & _).
    split; [exact Hr |]. apply Ho. discriminate.
Defined.

(** ** Ten presses of the ones key *)

Lemma onesNext_range (h : Z) : 0 <= h <= 9 -> 0 <= onesNext h <= 9.
Proof.
  intros H.
  assert (C : h = 0 \/ h = 1 \/ h = 2 \/ h = 3 \/ h = 4 \/ h = 5 \/ h = 6 \/ h = 7
              \/ h = 8 \/ h = 9) by lia.
  repeat (destruct C as [-> | C]; [cbv; split; discriminate |]).
  subst h; cbv; split; discriminate.
Qed.

Lemma onesNext_cycle (h : Z) : 0 <= h <= 9 -> Nat.iter 10 onesNext h = h.
Proof.
  intros H.
  assert (C : h = 0 \/ h = 1 \/ h = 2 \/ h = 3 \/ h = 4 \/ h = 5 \/ h = 6 \/ h = 7
              \/ h = 8 \/ h = 9) by lia.
  repeat (destruct C as [-> | C]; [reflexivity |]).
  subst h; reflexivity.
Qed.

Lemma updZ_same {A : Type} (l : list A) (i : Z) (d : A) :
  updZ l i (nthZ l i d) = l.
Proof.
  revert i; induction l as [|x l IH]; intros i; cbn; [reflexivity |].
  destruct (i =? 0); [reflexivity |]. rewrite IH. reflexivity.
Qed.

Lemma updZ_updZ {A : Type} (l : list A) (i : Z) (x y : A) :
  updZ (updZ l i x) i y = updZ l i y.
Proof.
  revert i; induction l as [|a l IH]; intros i; cbn; [reflexivity |].
  destruct (i =? 0) eqn:E; cbn; rewrite E; [reflexivity |]. rewrite IH. reflexivity.
Qed.

(** One press: the ones display shows the next digit, every other display
    keeps its content, and all patterns are the ones [resync] computes. *)
Lemma incDispRow_ones_step (botRow : Z) (w : World) (a h p : Z) :
  botRow = TOP_ROW \/ botRow = BOT_ROW ->
  onesReady botRow w a h p -> 0 <= h <= 9 ->
  exists w',
    incDispRow ONES_PLACE botRow w = (0, w') /\
    onesReady botRow w' a (onesNext h) p /\
    map content (sevSegDispArr w')
      = updZ (map content (sevSegDispArr w)) (onesSlot botRow) (a, onesNext h, p) /\
    sevSegDispArr w' = map resync (sevSegDispArr w').
Proof.
  intros Hrow (Hlen & Hovf & Hsync & Hcont) Hh.
  rewrite overflowMode_eq in Hovf.
  destruct w as [rg pn nr tx cs ps pk kp arr nl cl rb ik stray fl].
  cbn [sevSegDispArr strayDisp] in *. eight arr Hlen.
  assert (C : h = 0 \/ h = 1 \/ h = 2 \/ h = 3 \/ h = 4 \/ h = 5 \/ h = 6 \/ h = 7
              \/ h = 8 \/ h = 9) by lia.
  clear Hh.
  destruct Hrow as [-> | ->].
  - destruct d1 as [a2 h2 q2 n2 c2], d2 as [a3 h3 q3 n3 c3].
    cbv in Hcont. injection Hcont as -> -> ->.
    cbv in Hsync. subst c2. cbn in Hovf.
    destruct (p =? 0) eqn:E1;
      [destruct (h3 =? OFF_CODE) eqn:E2; [| discriminate Hovf] |];
      repeat (destruct C as [-> | C] || subst h);
      symex; refreshed w1 Harr Hfl Hstray; eexists; (split; [reflexivity |]);
      unfold onesReady; rewrite overflowMode_eq, Harr, Hstray;
      cbn; rewrite ?E1, ?E2; repeat split; reflexivity.
  - destruct d5 as [a2 h2 q2 n2 c2], d6 as [a3 h3 q3 n3 c3].
    cbv in Hcont. injection Hcont as -> -> ->.
    cbv in Hsync. subst c2. cbn in Hovf.
    destruct (p =? 0) eqn:E1;
      [destruct (h3 =? OFF_CODE) eqn:E2; [| discriminate Hovf] |];
      repeat (destruct C as [-> | C] || subst h);
      symex; refreshed w1 Harr Hfl Hstray; eexists; (split; [reflexivity |]);
      unfold onesReady; rewrite overflowMode_eq, Harr, Hstray;
      cbn; rewrite ?E1, ?E2; repeat split; reflexivity.
Qed.

Lemma pressTimes_snoc (digitPos botRow : Z) (n : nat) (w : World) :
  pressTimes (S n) digitPos botRow w =
  let '(es, w2) := pressTimes n digitPos botRow w in
  let '(e, w3) := incDispRow digitPos botRow w2 in
  (es ++ [e], w3).
Proof.
  revert w. induction n as [|n IHn]; intros w.
  - cbn [pressTimes]. destruct (incDispRow digitPos botRow w); reflexivity.
  - change (pressTimes (S (S n)) digitPos botRow w)
      with (let '(e, w1) := incDispRow digitPos botRow w in
            let '(es, w2) := pressTimes (S n) digitPos botRow w1 in (e :: es, w2)).
    change (pressTimes (S n) digitPos botRow w)
      with (let '(e, w1) := incDispRow digitPos botRow w in
            let '(es, w2) := pressTimes n digitPos botRow w1 in (e :: es, w2)).
    destruct (incDispRow digitPos botRow w) as [e w1]. rewrite (IHn w1).
    destruct (pressTimes n digitPos botRow w1) as [es w2].
    destruct (incDispRow digitPos botRow w2) as [e2 w3]. reflexivity.
Qed.

Lemma pressTimes_ones (botRow : Z) (n : nat) :
  botRow = TOP_ROW \/ botRow = BOT_ROW ->
  forall (w : World) (a h p : Z),
    onesReady botRow w a h p -> 0 <= h <= 9 ->
    exists w',
      pressTimes n ONES_PLACE botRow w = (repeat 0 n, w') /\
      onesReady botRow w' a (Nat.iter n onesNext h) p /\
      0 <= Nat.iter n onesNext h <= 9 /\
      map content (sevSegDispArr w')
        = updZ (map content (sevSegDispArr w)) (onesSlot botRow)
               (a, Nat.iter n onesNext h, p) /\
      (n <> O -> sevSegDispArr w' = map resync (sevSegDispArr w')).
Proof.
  intros Hrow. induction n as [|n IH]; intros w a h p Hready Hh.
  - exists w. cbn [pressTimes repeat]. change (Nat.iter 0 onesNext h) with h.
    split; [reflexivity |]. split; [exact Hready |]. split; [exact Hh |].
    split; [| intros Hn; contradiction Hn; reflexivity].
    destruct Hready as (_ & _ & _ & Hc). rewrite <- Hc.
    pose proof (updZ_same (map content (sevSegDispArr w)) (onesSlot botRow)
                  (content (strayDisp w))) as Hsame.
    assert (Hn : forall (l : list SEVEN_SEG_DISP) i d,
               nthZ (map content l) i (content d) = content (nthZ l i d)).
    { induction l as [|x l IHl]; intros i d; cbn; [reflexivity |].
      destruct (i =? 0); [reflexivity | apply IHl]. }
    rewrite Hn in Hsame. symmetry. exact Hsame.
  - destruct (IH w a h p Hready Hh) as (w1 & E1 & R1 & Hh1 & C1 & _).
    rewrite pressTimes_snoc, E1.
    destruct (incDispRow_ones_step botRow w1 a _ p Hrow R1 Hh1)
      as (w2 & E2 & R2 & C2 & S2).
    rewrite E2. exists w2.
    change (Nat.iter (S n) onesNext h) with (onesNext (Nat.iter n onesNext h)).
    split.
    { f_equal. clear. induction n as [|n IHn]; cbn; [reflexivity |].
      f_equal. exact IHn. }
    split; [exact R2 |]. split; [apply onesNext_range; exact Hh1 |].
    split; [| intros _; exact S2].
    rewrite C2, C1, updZ_updZ. reflexivity.
Qed.

(** C9.  On a row that is not in overflow mode, whose ones display is in
    sync and shows a decimal digit, ten presses of the ones key all
    return 0 and bring every display of the panel back to the content it
    had: polarity, digit and decimal point.  When the patterns of the
    displays were the ones computed from their content, the whole array is
    as it was. *)
Theorem incDispRow_ones_ten_presses (botRow : Z) (w : World) :
  botRow = TOP_ROW \/ botRow = BOT_ROW ->
  length (sevSegDispArr w) = 8%nat ->
  overflowMode botRow w = false ->
  inSync (nthZ (sevSegDispArr w) (onesSlot botRow) (strayDisp w)) ->
  0 <= hexDigit (nthZ (sevSegDispArr w) (onesSlot botRow) (strayDisp w)) <= 9 ->
  let '(errorCodes, w') := pressTimes 10 ONES_PLACE botRow w in
  errorCodes = repeat 0 10 /\
  map content (sevSegDispArr w') = map content (sevSegDispArr w) /\
  overflowMode botRow w' = false /\
  ((forall d, In d (sevSegDispArr w) -> resync d = d) ->
   sevSegDispArr w' = sevSegDispArr w).
Proof.
  intros Hrow Hlen Hovf Hsync Hh.
  set (d := nthZ (sevSegDispArr w) (onesSlot botRow) (strayDisp w)) in *.
  assert (Hready : onesReady botRow w (activeLow d) (hexDigit d) (dp d)).
  { repeat split; assumption. }
  destruct (pressTimes_ones botRow 10 Hrow w _ _ _ Hready Hh)
    as (w' & E & R & _ & C & S).
  rewrite E. rewrite (onesNext_cycle _ Hh) in C.
  assert (Hsame : map content (sevSegDispArr w') = map content (sevSegDispArr w)).
  { rewrite C.
    assert (Hn : forall (l : list SEVEN_SEG_DISP) i d0,
               nthZ (map content l) i (content d0) = content (nthZ l i d0)).
    { induction l as [|x l IHl]; intros i d0; cbn; [reflexivity |].
      destruct (i =? 0); [reflexivity | apply IHl]. }
    change (activeLow d, hexDigit d, dp d) with (content d). unfold d.
    rewrite <- Hn. apply updZ_same. }
  split; [reflexivity |]. split; [exact Hsame |].
  split; [exact (proj1 (proj2 R)) |].
  intros Hsteady. rewrite S by discriminate.
  rewrite (map_resync_by_content _ _ Hsame). apply map_resync_steady. exact Hsteady.
Qed.

Lemma incDispRow_ones_ten_presses_witness :
  overflowMode TOP_ROW world7 = false /\
  hexDigit (nthZ (sevSegDispArr world7) (onesSlot TOP_ROW) (strayDisp world7)) = 0x7 /\
  let '(errorCodes, w') := pressTimes 10 ONES_PLACE TOP_ROW world7 in
  errorCodes = repeat 0 10 /\
  map content (sevSegDispArr w') = map content (sevSegDispArr world7) /\
  overflowMode TOP_ROW w' = false /\
  ((forall d, In d (sevSegDispArr world7) -> resync d = d) ->
   sevSegDispArr w' = sevSegDispArr world7).
Proof.
  split; [reflexivity |]. split; [reflexivity |].
  apply (incDispRow_ones_ten_presses TOP_ROW world7 (or_introl eq_refl) eq_refl eq_refl eq_refl).
  cbn. lia.
Defined.

(** From a ones slot that is blank, shows a dash or a hex digit above 9,
    the first press leads to 0 and ten presses end on 9. *)
Lemma incDispRow_ones_from_blank :
  map hexDigit
      (rowOf TOP_ROW
         (sevSegDispArr
            (snd (pressTimes 10 ONES_PLACE TOP_ROW
                    (worldWith [steady OFF_CODE 0; steady OFF_CODE 0; steady OFF_CODE 0;
                                steady OFF_CODE 0; initDisp; initDisp; initDisp; initDisp]
                               FLAG_RATE_EDIT 0 quietPins)))))
  = [OFF_CODE; OFF_CODE; 0x9; OFF_CODE].
Proof. vm_compute. reflexivity. Qed.

(** ** The LED cycling keys *)




(** The same keys with no LED of the group lit. *)
Lemma led_keys_none_lit_examples :
  option_map currLedSRState
    (mainLoopIter 0 (keyReleased CC_MONITOR (idleWith LED_PLUGPWR)))
    = Some (Z.lor LED_CC LED_PLUGPWR) /\
  option_map currLedSRState
    (mainLoopIter 0 (keyReleased PC_MODE (idleWith LED_PLUGPWR)))
    = Some (Z.lor LED_CONTROLLER LED_PLUGPWR) /\
  option_map currLedSRState
    (mainLoopIter 0 (keyReleased VOLUME_INFUSED (idleWith LED_CC)))
    = Some (Z.lor LED_CC LED_BATTPWR).
Proof. repeat split; vm_compute; reflexivity. Qed.

(** ** A failed keypad scan *)

Lemma scanFrame_refl (keypad : MATRIX_KEYPAD) (w : World) : scanFrame keypad w w.
Proof. unfold scanFrame; repeat split; reflexivity. Qed.

Lemma scanFrame_trans (keypad : MATRIX_KEYPAD) (w1 w2 w3 : World) :
  scanFrame keypad w1 w2 -> scanFrame keypad w2 w3 -> scanFrame keypad w1 w3.
Proof.
  unfold scanFrame.
  intros (A1 & A2 & A3 & A4 & A5 & A6 & A7 & A8 & A9 & A10)
         (B1 & B2 & B3 & B4 & B5 & B6 & B7 & B8 & B9 & B10).
  repeat split; try congruence.
  intros r H1 H2 H3. rewrite B10, A10 by assumption. reflexivity.
Qed.

Lemma Reg_eqb_neq (a b : Reg) : a <> b -> Reg_eqb a b = false.
Proof. destruct a, b; intros H; try reflexivity; contradiction H; reflexivity. Qed.

Lemma readReg_frame (keypad : MATRIX_KEYPAD) (r : Reg) (w : World) :
  scanFrame keypad w (snd (readReg r w)).
Proof.
  unfold readReg. destruct (isInput r); cbn; [| apply scanFrame_refl].
  unfold scanFrame; cbn; repeat split; reflexivity.
Qed.

Lemma writeReg_frame (keypad : MATRIX_KEYPAD) (r : Reg) (v : Z) (w : World) :
  r = COL_OUT keypad \/ r = ROW_IE keypad \/ r = ROW_IFG keypad ->
  scanFrame keypad w (snd (writeReg r v w)).
Proof.
  intros Hr. unfold scanFrame; cbn. repeat split.
  intros r' H1 H2 H3. rewrite Reg_eqb_neq; [reflexivity |].
  destruct Hr as [-> | [-> | ->]]; assumption.
Qed.

Lemma rmwReg_frame (keypad : MATRIX_KEYPAD) (r : Reg) (f : Z -> Z) (w : World) :
  r = COL_OUT keypad \/ r = ROW_IE keypad \/ r = ROW_IFG keypad ->
  scanFrame keypad w (snd ((v <- readReg r ;; writeReg r (f v)) w)).
Proof.
  intros Hr. unfold bind. destruct (readReg r w) as [v w1] eqn:E.
  eapply scanFrame_trans.
  - pose proof (readReg_frame keypad r w) as H. rewrite E in H. exact H.
  - apply writeReg_frame. exact Hr.
Qed.

Lemma orReg_frame (keypad : MATRIX_KEYPAD) (r : Reg) (m : Z) (w : World) :
  r = COL_OUT keypad \/ r = ROW_IE keypad \/ r = ROW_IFG keypad ->
  scanFrame keypad w (snd (orReg r m w)).
Proof. apply (rmwReg_frame keypad r (fun v => u8 (Z.lor v m))). Qed.

Lemma clearReg_frame (keypad : MATRIX_KEYPAD) (r : Reg) (m : Z) (w : World) :
  r = COL_OUT keypad \/ r = ROW_IE keypad \/ r = ROW_IFG keypad ->
  scanFrame keypad w (snd (clearReg r m w)).
Proof. apply (rmwReg_frame keypad r (fun v => clearBits v m)). Qed.

(** The inner loop, when it finds no row. *)
Lemma scanRows_miss (keypad : MATRIX_KEYPAD) (colPinIndex : Z) (rows : list Z) :
  forall w, fst (scanRows keypad colPinIndex rows w) = false ->
            scanFrame keypad w (snd (scanRows keypad colPinIndex rows w)).
Proof.
  induction rows as [|rowPinIndex rest IH]; intros w Hmiss.
  - apply scanFrame_refl.
  - cbn [scanRows] in *. unfold bind at 1 in Hmiss. unfold bind at 1.
    pose proof (readReg_frame keypad (ROW_IN keypad) w) as Hread.
    destruct (readReg (ROW_IN keypad) w) as [rowIn w1]. cbn [snd] in Hread.
    destruct (truthy (Z.land (Z.land (Z.shiftl BIT0 rowPinIndex) (ROW_PINS keypad)) rowIn)).
    + exfalso. revert Hmiss. unfold bind, modify, ret, orReg, bind.
      destruct (readReg (ROW_IES keypad) _) as [v w2]. cbn. discriminate.
    + eapply scanFrame_trans; [exact Hread | apply IH; exact Hmiss].
Qed.

(** The outer loop, when it ends with [scanError] set. *)
Lemma scanCols_miss (keypad : MATRIX_KEYPAD) (cols : list Z) :
  forall w, fst (scanCols keypad cols w) <> 0 ->
            scanFrame keypad w (snd (scanCols keypad cols w)).
Proof.
  induction cols as [|colPinIndex rest IH]; intros w Hmiss.
  - apply scanFrame_refl.
  - cbn [scanCols] in *.
    destruct (negb (truthy (Z.land (Z.shiftl BIT0 colPinIndex) (COL_PINS keypad)))).
    + apply IH; exact Hmiss.
    + unfold bind at 1 in Hmiss. unfold bind at 1.
      pose proof (clearReg_frame keypad (COL_OUT keypad) (COL_PINS keypad) w
                    (or_introl eq_refl)) as F1.
      destruct (clearReg (COL_OUT keypad) (COL_PINS keypad) w) as [[] w1]. cbn [snd] in F1.
      unfold bind at 1 in Hmiss. unfold bind at 1.
      pose proof (orReg_frame keypad (COL_OUT keypad) (Z.shiftl BIT0 colPinIndex) w1
                    (or_introl eq_refl)) as F2.
      destruct (orReg (COL_OUT keypad) (Z.shiftl BIT0 colPinIndex) w1) as [[] w2].
      cbn [snd] in F2.
      unfold bind at 1 in Hmiss. unfold bind at 1.
      pose proof (readReg_frame keypad (ROW_IN keypad) w2) as F3.
      destruct (readReg (ROW_IN keypad) w2) as [rowIn w3]. cbn [snd] in F3.
      assert (F : scanFrame keypad w w3).
      { eapply scanFrame_trans; [exact F1 |].
        eapply scanFrame_trans; [exact F2 | exact F3]. }
      destruct (truthy (Z.land rowIn (ROW_PINS keypad))).
      * unfold bind at 1 in Hmiss. unfold bind at 1.
        pose proof (scanRows_miss keypad colPinIndex upto8 w3) as F4.
        destruct (scanRows keypad colPinIndex upto8 w3) as [found w4]. cbn [fst snd] in F4.
        destruct found.
        -- exfalso. apply Hmiss. reflexivity.
        -- eapply scanFrame_trans; [exact F |].
           eapply scanFrame_trans; [apply F4; reflexivity | apply IH; exact Hmiss].
      * eapply scanFrame_trans; [exact F | apply IH; exact Hmiss].
Qed.

Lemma scanForKeyPress_miss (keypad : MATRIX_KEYPAD) (w : World) :
  fst (scanForKeyPress keypad w) <> 0 ->
  scanFrame keypad w (snd (scanForKeyPress keypad w)).
Proof.
  unfold scanForKeyPress. intros Hmiss.
  unfold bind at 1 in Hmiss. unfold bind at 1.
  pose proof (clearReg_frame keypad (ROW_IE keypad) (ROW_PINS keypad) w
                (or_intror (or_introl eq_refl))) as F1.
  destruct (clearReg (ROW_IE keypad) (ROW_PINS keypad) w) as [[] w1]. cbn [snd] in F1.
  unfold bind at 1 in Hmiss. unfold bind at 1.
  pose proof (scanCols_miss keypad upto8 w1) as F2.
  destruct (scanCols keypad upto8 w1) as [scanError w2]. cbn [fst snd] in F2.
  unfold bind at 1 in Hmiss. unfold bind at 1.
  pose proof (clearReg_frame keypad (ROW_IFG keypad) (ROW_PINS keypad) w2
                (or_intror (or_intror eq_refl))) as F3.
  destruct (clearReg (ROW_IFG keypad) (ROW_PINS keypad) w2) as [[] w3]. cbn [snd] in F3.
  unfold bind at 1 in Hmiss. unfold bind at 1.
  pose proof (orReg_frame keypad (COL_OUT keypad) (COL_PINS keypad) w3
                (or_introl eq_refl)) as F4.
  destruct (orReg (COL_OUT keypad) (COL_PINS keypad) w3) as [[] w4]. cbn [snd] in F4.
  unfold bind at 1 in Hmiss. unfold bind at 1.
  pose proof (orReg_frame keypad (ROW_IE keypad) (ROW_PINS keypad) w4
                (or_intror (or_introl eq_refl))) as F5.
  destruct (orReg (ROW_IE keypad) (ROW_PINS keypad) w4) as [[] w5]. cbn [snd] in F5.
  cbn in Hmiss. cbn [ret snd].
  eapply scanFrame_trans; [exact F1 |].
  eapply scanFrame_trans; [apply F2; exact Hmiss |].
  eapply scanFrame_trans; [exact F3 |].
  eapply scanFrame_trans; [exact F4 | exact F5].
Qed.

Lemma clearBits_bit0 (x : Z) : Z.testbit (clearBits x FLAG_KEYPAD_PRESS) 0 = false.
Proof.
  unfold clearBits. rewrite Z.land_spec, Z.lnot_spec by lia.
  change (Z.testbit FLAG_KEYPAD_PRESS 0) with true. apply andb_false_r.
Qed.

Lemma clearBits_other_bits (x n : Z) :
  n <> 0 -> Z.testbit (clearBits x FLAG_KEYPAD_PRESS) n = Z.testbit x n.
Proof.
  intros Hn. unfold clearBits. destruct (Z.ltb_spec n 0) as [Hneg | Hpos].
  - rewrite !Z.testbit_neg_r by lia. reflexivity.
  - rewrite Z.land_spec, Z.lnot_spec by lia.
    replace (Z.testbit FLAG_KEYPAD_PRESS n) with false; [apply andb_true_r |].
    symmetry. change FLAG_KEYPAD_PRESS with (2 ^ 0). apply Z.pow2_bits_false. lia.
Qed.

(** Clearing the keypad flag in both snapshots raises no power event. *)
Lemma clearBits_keeps_power_edge (c p : Z) :
  Z.land (Z.lxor (clearBits c FLAG_KEYPAD_PRESS) (clearBits p FLAG_KEYPAD_PRESS)) FLAG_PWR_OFF
  = Z.land (Z.lxor c p) FLAG_PWR_OFF.
Proof.
  apply Z.bits_inj'. intros n Hn.
  rewrite !Z.land_spec, !Z.lxor_spec.
  destruct (Z.eq_dec n 0) as [-> | Hn0].
  - change (Z.testbit FLAG_PWR_OFF 0) with false. rewrite !andb_false_r. reflexivity.
  - rewrite !clearBits_other_bits by exact Hn0. reflexivity.
Qed.

(** The LED write that ends a keypad event touches the LED pattern, the
    chip select port and the transmit log only. *)
Lemma commitLeds_frame (w : World) :
  let w' := snd (commitLeds w) in
  currSysState w' = currSysState w /\ prevSysState w' = prevSysState w /\
  pendingKeyCoord w' = pendingKeyCoord w /\ geminiKeypad w' = geminiKeypad w /\
  sevSegDispArr w' = sevSegDispArr w /\ nextLedSRState w' = nextLedSRState w /\
  (forall r, r <> LEDSR_CSOUT -> regs w' r = regs w r) /\
  (nextLedSRState w = currLedSRState w -> w' = w).
Proof.
  unfold commitLeds. cbn.
  destruct (truthy (Z.lxor (nextLedSRState w) (currLedSRState w))) eqn:E; cbn.
  - repeat split.
    + intros r Hr. rewrite (Reg_eqb_neq r LEDSR_CSOUT Hr). reflexivity.
    + intros Heq. rewrite Heq, Z.lxor_nilpotent in E. discriminate E.
  - repeat split.
Qed.

(** C8.  A keypad press whose scan finds no key: the turn of the main
    loop ends with the keypad flag cleared in the current and in the
    previous snapshot and every other flag as before; the committed and
    the pending coordinate, the edge select register of the rows, the
    displays and the pending LED pattern are unchanged. *)
Theorem scan_miss_is_discarded (fuel : nat) (w : World) :
  ROW_IES (geminiKeypad w) <> COL_OUT (geminiKeypad w) ->
  ROW_IES (geminiKeypad w) <> ROW_IE (geminiKeypad w) ->
  ROW_IES (geminiKeypad w) <> ROW_IFG (geminiKeypad w) ->
  ROW_IES (geminiKeypad w) <> LEDSR_CSOUT ->
  truthy (Z.land (Z.lxor (currSysState w) (prevSysState w)) FLAG_KEYPAD_PRESS) = true ->
  truthy (Z.land (currSysState w) FLAG_KEYPAD_PRESS) = true ->
  truthy (Z.land (Z.lxor (currSysState w) (prevSysState w)) FLAG_PWR_OFF) = false ->
  fst (scanForKeyPress (geminiKeypad w) w) <> 0 ->
  exists w',
    mainLoopIter fuel w = Some w' /\
    currSysState w' = clearBits (currSysState w) FLAG_KEYPAD_PRESS /\
    prevSysState w' = clearBits (prevSysState w) FLAG_KEYPAD_PRESS /\
    Z.testbit (currSysState w') 0 = false /\
    Z.testbit (prevSysState w') 0 = false /\
    (forall n, n <> 0 ->
       Z.testbit (currSysState w') n = Z.testbit (currSysState w) n /\
       Z.testbit (prevSysState w') n = Z.testbit (prevSysState w) n) /\
    geminiKeypad w' = geminiKeypad w /\
    pendingKeyCoord w' = pendingKeyCoord w /\
    regs w' (ROW_IES (geminiKeypad w)) = regs w (ROW_IES (geminiKeypad w)) /\
    sevSegDispArr w' = sevSegDispArr w /\
    nextLedSRState w' = nextLedSRState w.
Proof.
  intros D1 D2 D3 D4 Hevent Hpress Hpower Hmiss.
  pose proof (scanForKeyPress_miss (geminiKeypad w) w Hmiss) as F.
  assert (Hk : exists w1,
             keypadEvent w = (tt, w1) /\
             currSysState w1 = clearBits (currSysState w) FLAG_KEYPAD_PRESS /\
             prevSysState w1 = clearBits (prevSysState w) FLAG_KEYPAD_PRESS /\
             geminiKeypad w1 = geminiKeypad w /\
             pendingKeyCoord w1 = pendingKeyCoord w /\
             regs w1 (ROW_IES (geminiKeypad w)) = regs w (ROW_IES (geminiKeypad w)) /\
             sevSegDispArr w1 = sevSegDispArr w /\
             nextLedSRState w1 = nextLedSRState w).
  { unfold keypadEvent. cbn -[scanForKeyPress commitLeds]. rewrite Hpress.
    cbn -[scanForKeyPress commitLeds].
    destruct (scanForKeyPress (geminiKeypad w) w) as [scanError w1].
    cbn [fst snd] in Hmiss, F.
    cbn -[commitLeds].
    assert (Ht : truthy scanError = true).
    { unfold truthy. apply negb_true_iff, Z.eqb_neq. exact Hmiss. }
    rewrite Ht. cbn -[commitLeds].
    destruct F as (F1 & F2 & F3 & F4 & F5 & F6 & F7 & F8 & F9 & F10).
    match goal with |- context [commitLeds ?W] =>
      pose proof (commitLeds_frame W) as C; destruct (commitLeds W) as [[] w2]
    end.
    cbn in C. destruct C as (C1 & C2 & C3 & C4 & C5 & C6 & C7 & _).
    exists w2. split; [reflexivity |].
    repeat split; try congruence.
    rewrite C7 by exact D4. apply F10; assumption. }
  destruct Hk as (w1 & Ek & K1 & K2 & K3 & K4 & K5 & K6 & K7).
  exists w1. split.
  { unfold mainLoopIter. rewrite Hevent, Ek. cbn [snd].
    rewrite K1, K2, clearBits_keeps_power_edge, Hpower. reflexivity. }
  split; [exact K1 |]. split; [exact K2 |].
  split; [rewrite K1; apply clearBits_bit0 |].
  split; [rewrite K2; apply clearBits_bit0 |].
  split.
  { intros n Hn. rewrite K1, K2. split; apply clearBits_other_bits; exact Hn. }
  repeat split; assumption.
Qed.

Lemma scan_miss_is_discarded_witness :
  fst (scanForKeyPress (geminiKeypad ghostPress) ghostPress) <> 0 /\
  exists w',
    mainLoopIter 0 ghostPress = Some w' /\
    currSysState w' = clearBits (currSysState ghostPress) FLAG_KEYPAD_PRESS /\
    prevSysState w' = clearBits (prevSysState ghostPress) FLAG_KEYPAD_PRESS /\
    Z.testbit (currSysState w') 0 = false /\
    Z.testbit (prevSysState w') 0 = false /\
    (forall n, n <> 0 ->
       Z.testbit (currSysState w') n = Z.testbit (currSysState ghostPress) n /\
       Z.testbit (prevSysState w') n = Z.testbit (prevSysState ghostPress) n) /\
    geminiKeypad w' = geminiKeypad ghostPress /\
    pendingKeyCoord w' = pendingKeyCoord ghostPress /\
    regs w' (ROW_IES (geminiKeypad ghostPress)) = regs ghostPress (ROW_IES (geminiKeypad ghostPress)) /\
    sevSegDispArr w' = sevSegDispArr ghostPress /\
    nextLedSRState w' = nextLedSRState ghostPress.
Proof.
  split.
  - vm_compute. discriminate.
  - apply (scan_miss_is_discarded 0 ghostPress);
      solve [ vm_compute; discriminate | reflexivity ].
Defined.

(** ** The power button *)

Lemma set_nreads_twice (a b : nat) (w : World) :
  set_nreads a (set_nreads b w) = set_nreads a w.
Proof. reflexivity. Qed.

(** The wait for the release ends as soon as the pin reads high. *)
Lemma waitPwrBtnRelease_ends (k : nat) :
  forall (fuel : nat) (w : World),
    (k < fuel)%nat ->
    truthy (Z.land (pins w KEYPAD_PWR_IN (nreads w + k)%nat) KEYPAD_PWR_BTN) = true ->
    exists j, waitPwrBtnRelease fuel w = Some (set_nreads j w).
Proof.
  induction k as [|k IH]; intros fuel w Hk Hrel;
    (destruct fuel as [|fuel]; [lia |]); cbn [waitPwrBtnRelease];
    unfold readReg; cbn [isInput KEYPAD_PWR_IN].
  - rewrite Nat.add_0_r in Hrel. rewrite Hrel. cbn [negb]. eexists; reflexivity.
  - destruct (truthy (Z.land (pins w KEYPAD_PWR_IN (nreads w)) KEYPAD_PWR_BTN)); cbn [negb].
    + eexists; reflexivity.
    + destruct (IH fuel (set_nreads (S (nreads w)) w)) as (j & Ej).
      * lia.
      * cbn [pins nreads set_nreads]. rewrite <- Hrel. do 3 f_equal. lia.
      * rewrite Ej, set_nreads_twice. eexists; reflexivity.
Qed.

Lemma mainLoopIter_power (fuel : nat) (w : World) :
  powerEventOnly w -> mainLoopIter fuel w = powerEvent fuel w.
Proof. intros (Hk & Hp). unfold mainLoopIter. rewrite Hk, Hp. reflexivity. Qed.

(** Entering OFF: two bytes are shifted out, 0x00 with every display
    selected and the plug power bit with the LED register selected; the
    stored displays and both LED patterns stay. *)
Lemma powerEvent_off (fuel : nat) (w : World) :
  chipSelectsIdle w ->
  truthy (Z.land (currSysState w) FLAG_PWR_OFF) = true ->
  releasedWithin fuel w ->
  exists w',
    powerEvent fuel w = Some w' /\
    sevSegDispArr w' = sevSegDispArr w /\
    currLedSRState w' = currLedSRState w /\
    nextLedSRState w' = nextLedSRState w /\
    spiTx w' = spiTx w ++ [mkFrame ALL_DISPS KEYPAD_PWR_BTN 0x00;
                           mkFrame 0 (Z.lor KEYPAD_PWR_BTN LEDSR) LED_PLUGPWR].
Proof.
  intros (Hd & Hl) Hoff (k & Hk & Hrel). unfold powerEvent. cbn [delay_cycles ret snd].
  destruct (waitPwrBtnRelease_ends k fuel w Hk Hrel) as (j & ->).
  eexists. split; [reflexivity |].
  destruct w as [rg pn nr tx cs ps pk kp arr nl cl rb ik stray fl].
  cbn in Hd, Hl, Hoff.
  assert (Hd' : rg P3OUT = 0) by exact Hd.
  assert (Hl' : rg P1OUT = KEYPAD_PWR_BTN) by exact Hl.
  cbn. rewrite Hoff. cbn. rewrite ?Hd, ?Hl, ?Hd', ?Hl'.
  repeat split. rewrite <- app_assoc. reflexivity.
Qed.

(** Switching the keypad interrupts back on leaves the displays, the LED
    patterns and the transmit log alone. *)
Lemma enableKeypad_frame (w : World) :
  let w' := snd (enableKeypad w) in
  spiTx w' = spiTx w /\ sevSegDispArr w' = sevSegDispArr w /\
  currLedSRState w' = currLedSRState w /\ nextLedSRState w' = nextLedSRState w /\
  currSysState w' = currSysState w /\ prevSysState w' = prevSysState w.
Proof.
  unfold enableKeypad, clearReg, orReg, readReg. cbn.
  destruct (isInput (ROW_IFG (geminiKeypad w))); cbn;
    destruct (isInput (ROW_IE (geminiKeypad w))); cbn; repeat split.
Qed.

(** Entering ON: the eight display patterns are recomputed from the
    stored digits and decimal points and shifted out, then the stored LED
    pattern. *)
Lemma powerEvent_on (fuel : nat) (w : World) :
  length (sevSegDispArr w) = 8%nat ->
  truthy (Z.land (currSysState w) FLAG_PWR_OFF) = false ->
  releasedWithin fuel w ->
  exists w' frames ledFrame,
    powerEvent fuel w = Some w' /\
    spiTx w' = spiTx w ++ frames ++ [ledFrame] /\
    map txByte frames = map currBinSegCode (map resync (sevSegDispArr w)) /\
    txByte ledFrame = currLedSRState w /\
    sevSegDispArr w' = map resync (sevSegDispArr w) /\
    currLedSRState w' = currLedSRState w /\
    nextLedSRState w' = nextLedSRState w.
Proof.
  intros Hlen Hon (k & Hk & Hrel). unfold powerEvent. cbn [delay_cycles ret snd].
  destruct (waitPwrBtnRelease_ends k fuel w Hk Hrel) as (j & ->).
  assert (Hlen1 : length (sevSegDispArr (set_nreads j w)) = 8%nat) by exact Hlen.
  destruct (refreshAllDisps_run (set_nreads j w) Hlen1)
    as (w1 & E & Harr & (frames & Htx & Hbytes) & _ & _ & Hcs & _ & Hnl & Hcl & _).
  cbn in Harr, Htx, Hbytes, Hcs, Hnl, Hcl.
  cbn -[refreshAllDisps]. rewrite Hon. cbn -[refreshAllDisps]. rewrite E.
  cbn.
  match goal with
  | |- context [enableKeypad ?W] =>
      pose proof (enableKeypad_frame W) as F; destruct (enableKeypad W) as [[] w2]
  end.
  cbn in F. destruct F as (F1 & F2 & F3 & F4 & _).
  eexists. exists frames. eexists. split; [reflexivity |].
  cbn. rewrite F1, F2, F3, F4, Htx, Hcl, Hnl, Harr. rewrite <- app_assoc.
  repeat split; try reflexivity. exact Hbytes.
Qed.

(** The interrupt service routines leave the stored displays and both
    LED patterns alone. *)
Lemma pwrbtnPressISR_keeps_snapshots (w : World) :
  let w' := snd (pwrbtnPressISR w) in
  sevSegDispArr w' = sevSegDispArr w /\
  currLedSRState w' = currLedSRState w /\ nextLedSRState w' = nextLedSRState w.
Proof.
  unfold pwrbtnPressISR, disableKeypad, clearReg, andReg, readReg. cbn.
  destruct (truthy (Z.land (regs w KEYPAD_PWR_IFG) KEYPAD_PWR_BTN)); cbn;
    [destruct (isInput (ROW_IE (geminiKeypad w))); cbn;
     destruct (isInput (ROW_IES (geminiKeypad w))); cbn;
     destruct (isInput (ROW_IFG (geminiKeypad w))); cbn |];
    repeat split.
Qed.

Lemma timer0A0ISR_keeps_snapshots (w : World) :
  let w' := snd (timer0A0ISR w) in
  sevSegDispArr w' = sevSegDispArr w /\
  currLedSRState w' = currLedSRState w /\ nextLedSRState w' = nextLedSRState w.
Proof. cbn. repeat split. Qed.

(** C10.  A turn of the main loop that handles the power button with the
    OFF flag up shifts out 0x00 with all displays selected and the plug
    power bit with the LED register selected, and leaves the eight stored
    displays and both LED patterns as they were.  In whatever later state
    holds the same displays and the same committed LED pattern, the turn
    that handles the button with the OFF flag down shifts out the eight
    patterns computed from the stored digits and decimal points, then the
    stored LED pattern; for displays whose patterns were the computed ones,
    these are the stored committed patterns, and the array is as before. *)
Theorem power_off_keeps_and_power_on_restores (fuel : nat) (w : World) :
  length (sevSegDispArr w) = 8%nat ->
  powerEventOnly w ->
  chipSelectsIdle w ->
  truthy (Z.land (currSysState w) FLAG_PWR_OFF) = true ->
  releasedWithin fuel w ->
  exists wOff,
    mainLoopIter fuel w = Some wOff /\
    sevSegDispArr wOff = sevSegDispArr w /\
    currLedSRState wOff = currLedSRState w /\
    nextLedSRState wOff = nextLedSRState w /\
    spiTx wOff = spiTx w ++ [mkFrame ALL_DISPS KEYPAD_PWR_BTN 0x00;
                             mkFrame 0 (Z.lor KEYPAD_PWR_BTN LEDSR) LED_PLUGPWR] /\
    forall (fuel2 : nat) (wOn : World),
      sevSegDispArr wOn = sevSegDispArr wOff ->
      currLedSRState wOn = currLedSRState wOff ->
      powerEventOnly wOn ->
      truthy (Z.land (currSysState wOn) FLAG_PWR_OFF) = false ->
      releasedWithin fuel2 wOn ->
      exists w' frames ledFrame,
        mainLoopIter fuel2 wOn = Some w' /\
        spiTx w' = spiTx wOn ++ frames ++ [ledFrame] /\
        map txByte frames = map currBinSegCode (map resync (sevSegDispArr w)) /\
        txByte ledFrame = currLedSRState w /\
        sevSegDispArr w' = map resync (sevSegDispArr w) /\
        currLedSRState w' = currLedSRState w /\
        ((forall d, In d (sevSegDispArr w) -> resync d = d) ->
         map txByte frames = map currBinSegCode (sevSegDispArr w) /\
         sevSegDispArr w' = sevSegDispArr w).
Proof.
  intros Hlen Hev Hidle Hoff Hrel.
  destruct (powerEvent_off fuel w Hidle Hoff Hrel) as (wOff & E & A & C & N & T).
  exists wOff. rewrite (mainLoopIter_power fuel w Hev).
  split; [exact E |]. split; [exact A |]. split; [exact C |]. split; [exact N |].
  split; [exact T |].
  intros fuel2 wOn A2 C2 Hev2 Hon Hrel2.
  assert (Hlen2 : length (sevSegDispArr wOn) = 8%nat) by (rewrite A2, A; exact Hlen).
  destruct (powerEvent_on fuel2 wOn Hlen2 Hon Hrel2)
    as (w' & frames & ledFrame & E2 & T2 & B2 & L2 & R2 & CL2 & _).
  exists w', frames, ledFrame. rewrite (mainLoopIter_power fuel2 wOn Hev2).
  rewrite A2, A in B2, R2. rewrite C2, C in L2, CL2.
  repeat (split; [assumption |]).
  intros Hsteady. rewrite B2, R2, (map_resync_steady _ Hsteady). split; reflexivity.
Qed.

Lemma power_off_keeps_and_power_on_restores_witness :
  powerEventOnly poweringOff /\ chipSelectsIdle poweringOff /\
  releasedWithin 1 poweringOff /\
  exists wOff,
    mainLoopIter 1 poweringOff = Some wOff /\
    sevSegDispArr wOff = sevSegDispArr poweringOff /\
    currLedSRState wOff = currLedSRState poweringOff /\
    map txByte (spiTx wOff) = [0x00; LED_PLUGPWR].
Proof.
  assert (Hrel : releasedWithin 1 poweringOff).
  { exists O. split; [lia | reflexivity]. }
  split; [split; reflexivity |]. split; [split; reflexivity |]. split; [exact Hrel |].
  destruct (power_off_keeps_and_power_on_restores 1 poweringOff eq_refl
              (conj eq_refl eq_refl) (conj eq_refl eq_refl) eq_refl Hrel)
    as (wOff & E & A & C & _ & T & _).
  exists wOff. split; [exact E |]. split; [exact A |]. split; [exact C |].
  rewrite T. reflexivity.
Defined.

(** The whole cycle on that panel: power off, the button interrupt, power
    on.  Eleven bytes go out: the blanking pair, the eight patterns of
    "[blank] [blank] 7 [blank]" and the four dashes, and the LED pattern. *)
Lemma power_cycle_example :
  match mainLoopIter 1 poweringOff with
  | None => False
  | Some wOff =>
      let flagged := snd (orReg KEYPAD_PWR_IFG KEYPAD_PWR_BTN wOff) in
      match mainLoopIter 1 (snd (pwrbtnPressISR flagged)) with
      | None => False
      | Some wOn =>
          map txByte (spiTx wOn)
          = [0x00; 0x80; 0x00; 0x00; 0x07; 0x00; 0x40; 0x40; 0x40; 0x40; 0x86] /\
          sevSegDispArr wOn = sevSegDispArr poweringOff
      end
  end.
Proof. vm_compute. split; reflexivity. Qed.

(** * Further properties *)

(** ** More on the codec *)

Lemma allBytes_complete (z : Z) : 0 <= z < 256 -> In z allBytes.
Proof.
  intros H. unfold allBytes. apply in_map_iff. exists (Z.to_nat z).
  split; [lia |]. apply in_seq. lia.
Qed.

Lemma allCodes_complete (z : Z) : 0 <= z < 0x12 -> In z allCodes.
Proof.
  intros H. unfold allCodes. apply in_map_iff. exists (Z.to_nat z).
  split; [lia |]. apply in_seq. lia.
Qed.

(** Case analysis over a finite list of values. *)
Ltac each_of H tac :=
  cbv [allBytes allCodes seq map Z.of_nat Pos.of_succ_nat Pos.succ] in H;
  repeat (destruct H as [<- | H]; [tac |]); try contradiction H.

(** X1.  A pattern that [SevSegToHex] accepts on an active high display
    is decoded exactly: encoding the decoded digit and decimal point with
    [hexToSevSeg] succeeds and gives the pattern back.  The pattern 0x40
    of the dash is not accepted. *)
Theorem SevSegToHex_accepts_only_what_hexToSevSeg_makes
  (c h0 p0 n0 : Z) :
  0 <= c < 256 ->
  fst (SevSegToHex (mkDisp 0 h0 p0 n0 c)) = 0 ->
  fst (hexToSevSeg (snd (SevSegToHex (mkDisp 0 h0 p0 n0 c)))) = 0 /\
  nextBinSegCode (snd (hexToSevSeg (snd (SevSegToHex (mkDisp 0 h0 p0 n0 c))))) = c /\
  currBinSegCode (snd (SevSegToHex (mkDisp 0 h0 p0 n0 c))) = c /\
  Z.land c 0x7F <> 0x40.
Proof.
  intros Hc. apply allBytes_complete in Hc.
  each_of Hc ltac:(cbn; intros Hok;
                   first [discriminate Hok
                         | repeat split; first [reflexivity | discriminate]]).
Qed.

Lemma SevSegToHex_accepts_only_what_hexToSevSeg_makes_witness :
  fst (SevSegToHex (mkDisp 0 0xF 0 0x00 0xED)) = 0 /\
  hexDigit (snd (SevSegToHex (mkDisp 0 0xF 0 0x00 0xED))) = 0x5 /\
  dp (snd (SevSegToHex (mkDisp 0 0xF 0 0x00 0xED))) = 1 /\
  nextBinSegCode (snd (hexToSevSeg (snd (SevSegToHex (mkDisp 0 0xF 0 0x00 0xED))))) = 0xED.
Proof.
  split; [reflexivity |]. split; [reflexivity |]. split; [reflexivity |].
  apply (SevSegToHex_accepts_only_what_hexToSevSeg_makes 0xED 0xF 0 0x00);
    [lia | reflexivity].
Defined.

(** X2.  On an active low display [SevSegToHex] accepts no pattern at
    all: for every byte it returns 1 and leaves the display as it is. *)
Theorem SevSegToHex_active_low_never_decodes (a h0 p0 n0 c : Z) :
  a <> 0 -> 0 <= c < 256 ->
  SevSegToHex (mkDisp a h0 p0 n0 c) = (1, mkDisp a h0 p0 n0 c).
Proof.
  intros Ha Hc. apply allBytes_complete in Hc.
  unfold SevSegToHex. cbn [activeLow currBinSegCode].
  replace (truthy a) with true
    by (symmetry; unfold truthy; apply negb_true_iff, Z.eqb_neq; exact Ha).
  each_of Hc ltac:(reflexivity).
Qed.

Lemma SevSegToHex_active_low_never_decodes_witness :
  1 <> 0 /\ 0 <= 0xC0 < 256 /\
  SevSegToHex (mkDisp 1 0x3 1 0xC0 0xC0) = (1, mkDisp 1 0x3 1 0xC0 0xC0).
Proof.
  split; [discriminate |]. split; [lia |].
  apply (SevSegToHex_active_low_never_decodes 1 0x3 1 0xC0 0xC0); [discriminate | lia].
Defined.

(** X3.  For every digit and sentinel of the table, [hexToSevSeg]
    succeeds and computes a byte whose top bit is the decimal point and
    whose low seven bits are the table entry; on an active low display
    the byte is the complement of the active high one. *)
Theorem hexToSevSeg_pattern (a h p n c : Z) :
  0 <= h < 0x12 ->
  let high := nextBinSegCode (snd (hexToSevSeg (mkDisp 0 h p n c))) in
  fst (hexToSevSeg (mkDisp a h p n c)) = 0 /\
  0 <= high < 256 /\
  Z.land high 0x7F = nthZ segCodeTable h 0 /\
  Z.land high BIT7 = (if p =? 0 then 0 else BIT7) /\
  nextBinSegCode (snd (hexToSevSeg (mkDisp a h p n c)))
    = (if a =? 0 then high else 255 - high).
Proof.
  intros Hh. apply allCodes_complete in Hh.
  unfold hexToSevSeg, truthy. cbn [activeLow hexDigit dp fst snd nextBinSegCode set_nextBinSegCode].
  destruct (a =? 0); destruct (p =? 0); cbn [negb];
    each_of Hh ltac:(cbn; repeat split; first [reflexivity | discriminate]).
Qed.

Lemma hexToSevSeg_pattern_witness :
  0 <= 0x2 < 0x12 /\
  nextBinSegCode (snd (hexToSevSeg (mkDisp 0 0x2 1 0 0))) = 0xDB /\
  nextBinSegCode (snd (hexToSevSeg (mkDisp 1 0x2 1 0 0))) = 255 - 0xDB.
Proof.
  split; [lia |]. split; [reflexivity |].
  assert (H : 0 <= 0x2 < 0x12) by lia.
  exact (proj2 (proj2 (proj2 (proj2 (hexToSevSeg_pattern 1 0x2 1 0 0 H))))).
Defined.

(** X4.  On an active high display the codec round trip recovers every
    hexadecimal digit and the blank: encoding a digit from 0x0 to 0xF or
    [OFF_CODE] with a decimal point flag of 0 or 1, then decoding what the
    display shows, returns 0 with the same digit and the same flag,
    whatever the digit and flag members held before the decoding. *)
Theorem codec_round_trip_recovers_digits (d dpFlag h0 dp0 : Z) :
  0 <= d <= OFF_CODE -> dpFlag = 0 \/ dpFlag = 1 ->
  codecRoundTrip 0 d dpFlag h0 dp0 = (0, d, dpFlag).
Proof. exact (codec_round_trip_active_high d dpFlag h0 dp0). Qed.

Lemma codec_round_trip_recovers_digits_witness :
  codecRoundTrip 0 0xE 1 0x3 0 = (0, 0xE, 1).
Proof.
  assert (Hd : 0 <= 0xE <= OFF_CODE) by (unfold OFF_CODE; lia).
  exact (codec_round_trip_recovers_digits 0xE 1 0x3 0 Hd (or_intror eq_refl)).
Defined.

(** ** What the modules leave alone *)

Lemma keeps_ret {T A : Type} (f : World -> T) (a : A) : keeps f (ret a).
Proof. intros w. reflexivity. Qed.

Lemma keeps_bind {T A B : Type} (f : World -> T) (c : M A) (k : A -> M B) :
  keeps f c -> (forall a, keeps f (k a)) -> keeps f (bind c k).
Proof.
  intros Hc Hk w. unfold bind. specialize (Hc w).
  destruct (c w) as [a w1]. cbn [snd] in Hc. rewrite (Hk a w1). exact Hc.
Qed.

Lemma keeps_forEach {T : Type} (f : World -> T) (idxs : list Z) (body : Z -> M unit) :
  (forall i, keeps f (body i)) -> keeps f (forEach idxs body).
Proof.
  intros Hb. induction idxs as [|i rest IH]; cbn [forEach].
  - apply keeps_ret.
  - apply keeps_bind; [apply Hb | intros _; exact IH].
Qed.

Lemma keeps_forEach_in {T : Type} (f : World -> T) (idxs : list Z) (body : Z -> M unit) :
  Forall (fun i => keeps f (body i)) idxs -> keeps f (forEach idxs body).
Proof.
  induction 1 as [|i rest Hi _ IH]; cbn [forEach].
  - apply keeps_ret.
  - apply keeps_bind; [exact Hi | intros _; exact IH].
Qed.

(** A bind whose first computation is known to yield a value with the
    property [P]. *)
Lemma keeps_bind_val {T A B : Type} (f : World -> T) (P : A -> Prop)
  (c : M A) (k : A -> M B) :
  keeps f c -> yields P c -> (forall a, P a -> keeps f (k a)) -> keeps f (bind c k).
Proof.
  intros Hc Hp Hk w. unfold bind. specialize (Hc w). specialize (Hp w).
  destruct (c w) as [a w1]. cbn [fst snd] in Hc, Hp. rewrite (Hk a Hp w1). exact Hc.
Qed.

Lemma yields_ret {A : Type} (P : A -> Prop) (a : A) : P a -> yields P (ret a).
Proof. intros H w. exact H. Qed.

Lemma yields_bind {A B : Type} (P : B -> Prop) (c : M A) (k : A -> M B) :
  (forall a, yields P (k a)) -> yields P (bind c k).
Proof. intros Hk w. unfold bind. destruct (c w) as [a w1]. apply Hk. Qed.

Lemma yields_bind_val {A B : Type} (Q : A -> Prop) (P : B -> Prop) (c : M A) (k : A -> M B) :
  yields Q c -> (forall a, Q a -> yields P (k a)) -> yields P (bind c k).
Proof.
  intros Hc Hk w. unfold bind. specialize (Hc w).
  destruct (c w) as [a w1]. apply Hk. exact Hc.
Qed.

Ltac yields_step :=
  lazymatch goal with
  | |- yields _ (ret _) => apply yields_ret
  | |- yields _ (bind _ _) => apply yields_bind; intros ?
  | |- yields _ (if ?b then _ else _) => destruct b eqn:?
  | |- yields _ (match ?x with _ => _ end) => destruct x eqn:?
  end.

Lemma snd_bind {A B : Type} (c : M A) (k : A -> M B) (w : World) :
  snd (bind c k w) = snd (k (fst (c w)) (snd (c w))).
Proof. unfold bind. destruct (c w); reflexivity. Qed.

Lemma forEach_cons (i : Z) (rest : list Z) (body : Z -> M unit) :
  forEach (i :: rest) body = bind (body i) (fun _ => forEach rest body).
Proof. reflexivity. Qed.

Lemma bind_run {A B : Type} (c : M A) (k : A -> M B) (w : World) :
  bind c k w = k (fst (c w)) (snd (c w)).
Proof. unfold bind. destruct (c w); reflexivity. Qed.

Lemma bind_at {A B : Type} (c : M A) (k : A -> M B) (w w1 : World) (a : A) :
  c w = (a, w1) -> bind c k w = k a w1.
Proof. intros E. unfold bind. rewrite E. reflexivity. Qed.

(** A flag update that leaves the observed bit alone. *)
Ltac bit_frame :=
  unfold clearBits;
  rewrite ?Z.lxor_spec, ?Z.lor_spec, ?Z.land_spec, ?Z.lnot_spec by lia;
  cbn;
  rewrite ?andb_true_r, ?orb_false_r, ?xorb_false_r;
  reflexivity.

(** Settling [keeps] for a computation made of binds, branches and the
    primitive accesses. *)
Ltac keeps_prim :=
  let w := fresh "w" in
  intros w;
  cbv beta delta [loadDisp updDisp readReg writeReg usciXNSpiPutChar modify gets
                  delay_cycles ret controllerState panelState clientState editBits];
  cbn -[Z.testbit];
  repeat match goal with
         | H : ?r <> _ |- context [Reg_eqb ?r _] => rewrite (Reg_eqb_neq _ _ H)
         end;
  repeat match goal with
         | |- context [if ?b then _ else _] => destruct b
         end;
  first [ reflexivity | bit_frame ].

Ltac keeps_step :=
  lazymatch goal with
  | |- keeps _ (ret _) => apply keeps_ret
  | |- keeps _ (bind _ _) => apply keeps_bind; [| intros ?]
  | |- keeps _ (writeToDispRow_loop (_ :: _) _ _ _) => cbn [writeToDispRow_loop]
  | |- keeps _ (writeToDispRow_loop [] _ _ _) => cbn [writeToDispRow_loop]
  | |- keeps _ (forEach upto8 _) =>
      unfold upto8; apply keeps_forEach_in; repeat (constructor; [|]); [.. | constructor]
  | |- keeps _ (forEach _ _) => apply keeps_forEach; intros ?
  | |- keeps _ (if ?b then _ else _) =>
      let v := eval cbn in b in
      lazymatch v with
      | true => change b with true; cbv iota
      | false => change b with false; cbv iota
      | _ => destruct b
      end
  | |- keeps _ (match ?x with _ => _ end) => destruct x
  | |- keeps _ (loadDisp _) => keeps_prim
  | |- keeps _ (updDisp _ _) => keeps_prim
  | |- keeps _ (readReg _) => keeps_prim
  | |- keeps _ (writeReg _ _) => keeps_prim
  | |- keeps _ (usciXNSpiPutChar _) => keeps_prim
  | |- keeps _ (modify _) => keeps_prim
  | |- keeps _ (gets _) => keeps_prim
  | |- keeps _ (delay_cycles _) => keeps_prim
  | |- keeps _ ?c => let h := head_of c in unfold h
  end
with head_of c :=
  lazymatch c with
  | ?f _ => head_of f
  | _ => c
  end.

Ltac keeps_all := repeat keeps_step.

Lemma keeps_refreshAllDisps : keeps controllerState refreshAllDisps.
Proof. keeps_all. Qed.

Lemma keeps_writeHexToSevSeg (display : SEVEN_SEG_DISP) (hexCode csPortIndex : Z) :
  keeps controllerState (writeHexToSevSeg display hexCode csPortIndex).
Proof. keeps_all. Qed.

Lemma keeps_writeToDispRow_loop (idxs : list Z) (rowDataArr : list (Z * Z)) (botRow e : Z) :
  keeps controllerState (writeToDispRow_loop idxs rowDataArr botRow e).
Proof.
  revert e. induction idxs as [|i rest IH]; intros e; cbn [writeToDispRow_loop].
  - apply keeps_ret.
  - destruct (nthZ rowDataArr i (0, 0)) as [dat dpFlag].
    apply keeps_bind; [keeps_all |]. intros _.
    apply keeps_bind; [keeps_all |]. intros e1.
    destruct (truthy e1); [apply keeps_ret | apply IH].
Qed.

Lemma keeps_incDispRow (digitPos botRow : Z) :
  keeps controllerState (incDispRow digitPos botRow).
Proof. keeps_all. Qed.

Lemma keeps_flashDispRow (rowSel numFlashes : Z) :
  keeps controllerState (flashDispRow rowSel numFlashes).
Proof. unfold flashDispRow. keeps_all. Qed.

Lemma keeps_writeToDispRow (rowDataArr : list (Z * Z)) (botRow : Z) :
  keeps controllerState (writeToDispRow rowDataArr botRow).
Proof. unfold writeToDispRow. apply keeps_writeToDispRow_loop. Qed.

(** X5.  The display driver keeps to the displays: the row increment, the
    row write, the flash and the refresh change neither the system flags,
    nor the keypad object and its pending coordinate, nor the LED
    patterns, nor the row buffer, and they read no input pin.  Of the
    registers of the ports and of the timer, which are the registers of
    the state, the only one they write is the chip select port of the
    displays.  (The registers of the SPI peripheral are not among them:
    what a transmit writes there is the transmit log.) *)
Theorem display_driver_keeps_to_displays
  (digitPos botRow rowSel numFlashes : Z) (rowDataArr : list (Z * Z)) (r : Reg) :
  r <> DISPS_CSOUT ->
  (keeps controllerState (incDispRow digitPos botRow) /\
   keeps (fun w => regs w r) (incDispRow digitPos botRow)) /\
  (keeps controllerState (writeToDispRow rowDataArr botRow) /\
   keeps (fun w => regs w r) (writeToDispRow rowDataArr botRow)) /\
  (keeps controllerState (flashDispRow rowSel numFlashes) /\
   keeps (fun w => regs w r) (flashDispRow rowSel numFlashes)) /\
  (keeps controllerState refreshAllDisps /\
   keeps (fun w => regs w r) refreshAllDisps).
Proof.
  intros Hr.
  assert (Hloop : forall idxs b e,
             keeps (fun w => regs w r) (writeToDispRow_loop idxs rowDataArr b e)).
  { induction idxs as [|i rest IH]; intros b e; cbn [writeToDispRow_loop].
    - apply keeps_ret.
    - destruct (nthZ rowDataArr i (0, 0)) as [dat dpFlag].
      apply keeps_bind; [keeps_all |]. intros _.
      apply keeps_bind; [keeps_all |]. intros e1.
      destruct (truthy e1); [apply keeps_ret | apply IH]. }
  split; [split | split; [split | split; split]].
  - apply keeps_incDispRow.
  - keeps_all.
  - apply keeps_writeToDispRow.
  - unfold writeToDispRow. apply Hloop.
  - apply keeps_flashDispRow.
  - keeps_all.
  - apply keeps_refreshAllDisps.
  - keeps_all.
Qed.

Lemma display_driver_keeps_to_displays_witness :
  P2IES <> DISPS_CSOUT /\
  regs (snd (incDispRow HUNDREDS_PLACE BOT_ROW world1000)) P2IES = regs world1000 P2IES /\
  controllerState (snd (incDispRow HUNDREDS_PLACE BOT_ROW world1000))
    = controllerState world1000.
Proof.
  assert (H : P2IES <> DISPS_CSOUT) by discriminate.
  split; [exact H |].
  destruct (display_driver_keeps_to_displays HUNDREDS_PLACE BOT_ROW TOP_ROW 1 [] P2IES H)
    as ((Hc & Hr) & _).
  split; [apply (Hr world1000) | apply (Hc world1000)].
Defined.

Lemma keeps_keypad_module (keypad : MATRIX_KEYPAD) :
  keeps panelState (scanForKeyPress keypad) /\ keeps clientState (saveKeyPress keypad).
Proof.
  assert (Hrows : forall c rows, keeps panelState (scanRows keypad c rows)).
  { intros c rows. induction rows as [|r rest IH]; cbn [scanRows].
    - apply keeps_ret.
    - apply keeps_bind; [keeps_all |]. intros rowIn.
      destruct (truthy _); [keeps_all | exact IH]. }
  assert (Hcols : forall cols, keeps panelState (scanCols keypad cols)).
  { induction cols as [|c rest IH]; cbn [scanCols].
    - apply keeps_ret.
    - destruct (negb _); [exact IH |].
      apply keeps_bind; [keeps_all |]. intros _.
      apply keeps_bind; [keeps_all |]. intros _.
      apply keeps_bind; [keeps_all |]. intros rowIn.
      destruct (truthy _); [| exact IH].
      apply keeps_bind; [apply Hrows |]. intros found.
      destruct found; [apply keeps_ret | exact IH]. }
  split.
  - unfold scanForKeyPress.
    apply keeps_bind; [keeps_all |]. intros _.
    apply keeps_bind; [apply Hcols |]. intros e. keeps_all.
  - unfold saveKeyPress. keeps_all.
Qed.

Lemma saveKeyPress_value (keypad : MATRIX_KEYPAD) (w : World) :
  fst (saveKeyPress keypad w) = set_currKeyCoord (pendingKeyCoord w) keypad.
Proof.
  unfold saveKeyPress. rewrite bind_run, bind_run. cbn [gets fst snd].
  rewrite !bind_run. cbn [ret fst].
  assert (K : keeps pendingKeyCoord (clearReg (ROW_IE keypad) (ROW_PINS keypad)))
    by keeps_all.
  rewrite (K w). reflexivity.
Qed.

(** X6.  The keypad module keeps to the keypad.  A scan, whether it finds
    a key or not, leaves the system flags, the keypad object of the client,
    the displays, the LED patterns, the transmit log and the log of stray
    accesses alone.  [saveKeyPress] leaves the system flags, the displays,
    the LED patterns and the two logs alone, and what it does to the
    keypad object it is given is to store the pending coordinate as the
    committed one: every other member of the object stays. *)
Theorem keypad_module_keeps_to_keypad (keypad : MATRIX_KEYPAD) :
  keeps panelState (scanForKeyPress keypad) /\
  keeps clientState (saveKeyPress keypad) /\
  forall w, fst (saveKeyPress keypad w) = set_currKeyCoord (pendingKeyCoord w) keypad.
Proof.
  split; [apply keeps_keypad_module |].
  split; [apply keeps_keypad_module | apply saveKeyPress_value].
Qed.

(** ** The accesses of [incDispRow] *)

Lemma keeps_faults_refreshAllDisps : keeps faults refreshAllDisps.
Proof. keeps_all. Qed.

Lemma incDispRow_botRow_truthy (digitPos botRow : Z) :
  incDispRow digitPos botRow = incDispRow digitPos (if truthy botRow then 1 else 0).
Proof. destruct botRow; reflexivity. Qed.

Lemma overflowMode_botRow_truthy (botRow : Z) (w : World) :
  overflowMode botRow w = overflowMode (if truthy botRow then 1 else 0) w.
Proof. destruct botRow; reflexivity. Qed.

Lemma thousandStateOf_bit (botRow : Z) :
  yields (fun ts => ts = 0 \/ ts = 1) (thousandStateOf botRow).
Proof.
  unfold thousandStateOf, getDp, getHex. repeat yields_step; cbn; auto.
  destruct (negb _); auto.
Qed.

Lemma incHundreds_index (botRow thousandState dispRowIndex nextHexCode : Z) :
  yields (fun r => fst r = dispRowIndex \/
                   (truthy botRow = true /\ truthy thousandState = true /\
                    fst r = u8 (dispRowIndex - 1)))
         (incHundreds botRow thousandState dispRowIndex nextHexCode).
Proof.
  unfold incHundreds. repeat yields_step; cbn [fst]; auto.
  right. repeat split; try reflexivity;
    repeat match goal with H : negb _ = false |- _ => apply negb_false_iff in H end;
    assumption.
Qed.

Lemma incTens_index (dispRowIndex nextHexCode : Z) :
  yields (fun r => fst r = dispRowIndex) (incTens dispRowIndex nextHexCode).
Proof. unfold incTens. repeat yields_step; reflexivity. Qed.

Lemma incOnes_index (dispRowIndex nextHexCode : Z) :
  yields (fun r => fst r = dispRowIndex) (incOnes dispRowIndex nextHexCode).
Proof. unfold incOnes. repeat yields_step; reflexivity. Qed.

Lemma incTenths_index (thousandState dispRowIndex nextHexCode : Z) :
  yields (fun r => fst r = if truthy thousandState then u8 (dispRowIndex - 1)
                           else dispRowIndex)
         (incTenths thousandState dispRowIndex nextHexCode).
Proof.
  unfold incTenths.
  apply (yields_bind_val (fun i => i = if truthy thousandState then u8 (dispRowIndex - 1)
                                       else dispRowIndex)).
  - destruct (truthy thousandState); repeat yields_step; reflexivity.
  - intros i ->. repeat yields_step; reflexivity.
Qed.

(** The increments that stay within the array: every place of the top
    row, and on the bottom row every place but the tenths. *)

Ltac inc_case :=
  lazymatch goal with
  | |- keeps _ (bind (incHundreds ?b ?t ?i ?n) _) =>
      (eapply keeps_bind_val; [keeps_all | apply (incHundreds_index b t i n) |]);
      intros [? ?] HP; cbn in HP; destruct HP as [Hi | (Hb & Ht & Hi)]; try discriminate; subst
  | |- keeps _ (bind (incTens ?i ?n) _) =>
      (eapply keeps_bind_val; [keeps_all | apply (incTens_index i n) |]);
      intros [? ?] Hi; cbn in Hi; subst
  | |- keeps _ (bind (incOnes ?i ?n) _) =>
      (eapply keeps_bind_val; [keeps_all | apply (incOnes_index i n) |]);
      intros [? ?] Hi; cbn in Hi; subst
  | |- keeps _ (bind (incTenths ?t ?i ?n) _) =>
      (eapply keeps_bind_val;
       [unfold incTenths;
        eapply (keeps_bind_val _ (fun i1 => i1 = if truthy t then u8 (i - 1) else i));
        [keeps_all | cbn; repeat yields_step; reflexivity | intros ? ->; cbn; keeps_all]
       | apply (incTenths_index t i n) |]);
      intros [? ?] Hi; cbn in Hi; subst
  end;
  keeps_all.

Ltac inc_tail := apply keeps_bind; [keeps_all | intros ?target]; inc_case.

Lemma incDispRow_within_array (digitPos botRow : Z) :
  (digitPos = 0 \/ digitPos = 1 \/ digitPos = 2 \/ (digitPos = 3 /\ botRow = 0)) ->
  (botRow = 0 \/ botRow = 1) ->
  keeps faults (incDispRow digitPos botRow).
Proof.
  intros Hd Hb. unfold incDispRow.
  destruct Hd as [-> | [-> | [-> | [-> ->]]]]; [destruct Hb as [-> | ->] .. |];
    cbn [Z.leb Z.compare TENTHS_PLACE Pos.compare Pos.compare_cont];
    (eapply keeps_bind_val; [keeps_all | apply (thousandStateOf_bit _) |]);
    intros ts Hts; cbv beta in Hts; destruct Hts as [-> | ->]; cbv zeta; cbn;
    inc_tail.
Qed.


Lemma thousandStateOf_run (botRow : Z) (w : World) :
  thousandStateOf botRow w = ((if overflowMode botRow w then 1 else 0), w).
Proof.
  unfold overflowMode, thousandStateOf.
  destruct (truthy botRow); cbn;
    match goal with |- context [dp ?d =? 0] => destruct (dp d =? 0) end; cbn;
    try reflexivity;
    match goal with |- context [hexDigit ?d =? OFF_CODE] => destruct (hexDigit d =? OFF_CODE) end;
    reflexivity.
Qed.

(** X7.  The read of [displayArr[8]] by a tenths increment of the bottom
    row in overflow mode is the only access of [incDispRow] outside the
    array: every other call, whatever the displays hold, stays within the
    eight elements. *)
Theorem incDispRow_stray_access_exactly (digitPos botRow : Z) (w : World) :
  0 <= digitPos ->
  faults (snd (incDispRow digitPos botRow w)) =
  faults w ++ (if (digitPos =? TENTHS_PLACE) && truthy botRow && overflowMode botRow w
               then [Rd 8] else []).
Proof.
  intros Hd.
  rewrite incDispRow_botRow_truthy, (overflowMode_botRow_truthy botRow).
  assert (Hcases : digitPos = 0 \/ digitPos = 1 \/ digitPos = 2 \/ digitPos = 3 \/ 3 < digitPos)
    by lia.
  destruct Hcases as [-> | [-> | [-> | [-> | Hbig]]]].
  5: { unfold incDispRow. replace (digitPos <=? TENTHS_PLACE) with false
         by (symmetry; apply Z.leb_gt; exact Hbig).
       replace (digitPos =? TENTHS_PLACE) with false
         by (symmetry; apply Z.eqb_neq; unfold TENTHS_PLACE; lia).
       cbn. symmetry. apply app_nil_r. }
  1-3: cbn [Z.eqb TENTHS_PLACE Pos.eqb andb]; rewrite app_nil_r;
       apply incDispRow_within_array; [tauto | destruct (truthy botRow); tauto].
  destruct (truthy botRow); cbn [Z.eqb TENTHS_PLACE Pos.eqb andb].
  2: { rewrite app_nil_r. apply incDispRow_within_array; tauto. }
  unfold incDispRow. cbn [Z.leb Z.compare TENTHS_PLACE Pos.compare Pos.compare_cont].
  rewrite (bind_at _ _ _ _ _ (thousandStateOf_run 1 w)).
  destruct (overflowMode 1 w); cbv zeta; cbn [truthy Z.eqb negb Z.add Pos.add Pos.succ u8 Z.modulo
    Z.div_eucl Z.pos_div_eucl Z.leb Z.ltb Z.compare Pos.compare Pos.compare_cont snd Z.mul Pos.mul Z.sub Z.opp Z.pos_sub Z.succ_double Z.double Z.pred_double].
  - rewrite (bind_at _ _ _ _ _
               (eq_refl : getHex 8 w
                          = (hexDigit (strayDisp w), set_faults (faults w ++ [Rd 8]) w))).
    match goal with
    | |- faults (snd (?c ?w2)) = _ =>
        let K := fresh "K" in
        assert (K : keeps faults c) by inc_case; rewrite K; reflexivity
    end.
  - rewrite app_nil_r.
    match goal with
    | |- faults (snd (?c w)) = _ =>
        let K := fresh "K" in
        assert (K : keeps faults c) by inc_tail; apply K
    end.
Qed.

Lemma incDispRow_stray_access_exactly_witness :
  faults (snd (incDispRow TENTHS_PLACE BOT_ROW world1000)) = [Rd 8].
Proof.
  assert (H : 0 <= TENTHS_PLACE) by (unfold TENTHS_PLACE; lia).
  exact (incDispRow_stray_access_exactly TENTHS_PLACE BOT_ROW world1000 H).
Defined.

(** ** Events and their acknowledgement *)

Lemma truthy_land_pow2 (x n : Z) : 0 <= n -> truthy (Z.land x (2 ^ n)) = Z.testbit x n.
Proof.
  intros Hn. unfold truthy. destruct (Z.testbit x n) eqn:E.
  - apply negb_true_iff, Z.eqb_neq. intros H0.
    assert (H1 : Z.testbit (Z.land x (2 ^ n)) n = false) by (rewrite H0; apply Z.bits_0).
    rewrite Z.land_spec, E, Z.pow2_bits_true in H1 by lia. discriminate H1.
  - apply negb_false_iff, Z.eqb_eq. apply Z.bits_inj'. intros m Hm.
    rewrite Z.land_spec, Z.bits_0. destruct (Z.eq_dec n m) as [<- | Hnm].
    + rewrite E. reflexivity.
    + rewrite Z.pow2_bits_false by lia. apply andb_false_r.
Qed.

Lemma keypadEventPending_bits (w : World) :
  keypadEventPending w = xorb (Z.testbit (currSysState w) 0) (Z.testbit (prevSysState w) 0).
Proof.
  unfold keypadEventPending. change FLAG_KEYPAD_PRESS with (2 ^ 0).
  rewrite truthy_land_pow2 by lia. apply Z.lxor_spec.
Qed.

Lemma powerEventPending_bits (w : World) :
  powerEventPending w = xorb (Z.testbit (currSysState w) 1) (Z.testbit (prevSysState w) 1).
Proof.
  unfold powerEventPending. change FLAG_PWR_OFF with (2 ^ 1).
  rewrite truthy_land_pow2 by lia. apply Z.lxor_spec.
Qed.

Lemma testbit_pow2 (k n : Z) : 0 <= k -> Z.testbit (2 ^ k) n = (n =? k).
Proof.
  intros Hk. destruct (Z.eqb_spec n k) as [-> | Hne].
  - apply Z.pow2_bits_true; lia.
  - destruct (Z.ltb_spec n 0); [apply Z.testbit_neg_r; lia |].
    apply Z.pow2_bits_false; lia.
Qed.

(** X9.  The debounce timer interrupt always leaves a keypad event
    pending for the main loop: it toggles the keypad flag of the current
    snapshot after making the previous snapshot agree with the old value.
    The other flags of both snapshots stay, and the timer is stopped. *)
Theorem timer0A0ISR_posts_keypad_event (w : World) :
  let w' := snd (timer0A0ISR w) in
  keypadEventPending w' = true /\
  Z.testbit (currSysState w') 0 = negb (Z.testbit (currSysState w) 0) /\
  (forall n, n <> 0 ->
     Z.testbit (currSysState w') n = Z.testbit (currSysState w) n /\
     Z.testbit (prevSysState w') n = Z.testbit (prevSysState w) n) /\
  powerEventPending w' = powerEventPending w /\
  regs w' TA0CCR0 = 0.
Proof.
  cbn zeta. rewrite keypadEventPending_bits, !powerEventPending_bits.
  destruct w as [rg pn nr tx cs ps pk kp arr nl cl rb ik stray fl].
  cbn -[Z.testbit Z.lxor Z.land Z.pow FLAG_KEYPAD_PRESS].
  change FLAG_KEYPAD_PRESS with (2 ^ 0).
  assert (Hbits : forall n,
             Z.testbit (Z.lxor cs (2 ^ 0)) n = xorb (Z.testbit cs n) (n =? 0) /\
             Z.testbit (Z.lxor ps (Z.land (Z.lxor ps cs) (2 ^ 0))) n
             = if n =? 0 then Z.testbit cs n else Z.testbit ps n).
  { intros n. rewrite !Z.lxor_spec, Z.land_spec, Z.lxor_spec, testbit_pow2 by lia.
    destruct (n =? 0), (Z.testbit cs n), (Z.testbit ps n); split; reflexivity. }
  repeat split.
  - rewrite (proj1 (Hbits 0)), (proj2 (Hbits 0)). cbn -[Z.testbit]. destruct (Z.testbit cs 0); reflexivity.
  - rewrite (proj1 (Hbits 0)). cbn -[Z.testbit]. destruct (Z.testbit cs 0); reflexivity.
  - rewrite (proj1 (Hbits n)). replace (n =? 0) with false by (symmetry; apply Z.eqb_neq; assumption).
    apply xorb_false_r.
  - rewrite (proj2 (Hbits n)). replace (n =? 0) with false by (symmetry; apply Z.eqb_neq; assumption).
    reflexivity.
  - rewrite (proj1 (Hbits 1)), (proj2 (Hbits 1)). cbn -[Z.testbit]. rewrite xorb_false_r. reflexivity.
Qed.

Lemma land_clearBits_same (x m : Z) : Z.land (clearBits x m) m = 0.
Proof.
  unfold clearBits. rewrite <- Z.land_assoc, (Z.land_comm (Z.lnot m)), Z.land_lnot_diag.
  apply Z.land_0_r.
Qed.

(** X10.  A keypad interrupt raised by a row pin switches the row
    interrupts off, clears their flags and arms the debounce timer: with
    the release delay when the press flag is up, with the press delay
    otherwise.  The system flags are not touched: only the timer
    interrupt registers the event. *)
Theorem keypadPressISR_arms_debounce (w : World) :
  wiredAsGemini w ->
  truthy (Z.land (regs w P2IFG) 0x0F) = true ->
  let w' := snd (keypadPressISR w) in
  regs w' TA0CCR0 = (if Z.testbit (currSysState w) 0
                     then RELEASE_DBNC_DELAY else PRESS_DBNC_DELAY) /\
  Z.land (regs w' P2IE) 0x0F = 0 /\ Z.land (regs w' P2IFG) 0x0F = 0 /\
  currSysState w' = currSysState w /\ prevSysState w' = prevSysState w.
Proof.
  intros (coord & Hkp) Hifg.
  destruct w as [rg pn nr tx cs ps pk kp arr nl cl rb ik stray fl].
  cbn in Hkp, Hifg. subst kp. cbn. rewrite Hifg. cbn.
  change FLAG_KEYPAD_PRESS with (2 ^ 0). rewrite truthy_land_pow2 by lia.
  repeat split; apply land_clearBits_same.
Qed.

Lemma keypadPressISR_arms_debounce_witness :
  regs (snd (keypadPressISR
               (set_regs (fun r => match r with P2IFG => 0x04 | _ => 0 end)
                         (idleWith 0)))) TA0CCR0 = PRESS_DBNC_DELAY.
Proof.
  assert (Hk : wiredAsGemini (set_regs (fun r => match r with P2IFG => 0x04 | _ => 0 end)
                                       (idleWith 0))) by (exists 0; reflexivity).
  exact (proj1 (keypadPressISR_arms_debounce _ Hk eq_refl)).
Defined.

(** X11.  A keypad interrupt that no row pin raised arms no timer and
    leaves the system flags alone; of the interrupt enables and flags of
    the port only those of the row pins survive. *)
Theorem keypadPressISR_spurious (w : World) :
  wiredAsGemini w ->
  truthy (Z.land (regs w P2IFG) 0x0F) = false ->
  let w' := snd (keypadPressISR w) in
  regs w' TA0CCR0 = regs w TA0CCR0 /\
  regs w' P2IE = Z.land (regs w P2IE) 0x0F /\ regs w' P2IFG = 0 /\
  currSysState w' = currSysState w /\ prevSysState w' = prevSysState w.
Proof.
  intros (coord & Hkp) Hifg.
  destruct w as [rg pn nr tx cs ps pk kp arr nl cl rb ik stray fl].
  cbn in Hkp, Hifg. subst kp. cbn. rewrite Hifg. cbn.
  repeat split. apply negb_false_iff, Z.eqb_eq in Hifg. exact Hifg.
Qed.

Lemma keypadPressISR_spurious_witness :
  regs (snd (keypadPressISR
               (set_regs (fun r => match r with P2IFG => 0x40 | P2IE => 0xFF | _ => 0 end)
                         (idleWith 0)))) P2IE = 0x0F.
Proof.
  assert (Hk : wiredAsGemini
                 (set_regs (fun r => match r with P2IFG => 0x40 | P2IE => 0xFF | _ => 0 end)
                           (idleWith 0))) by (exists 0; reflexivity).
  exact (proj1 (proj2 (keypadPressISR_spurious _ Hk eq_refl))).
Defined.

(** X12.  A power button interrupt cancels the keypad and posts the power
    event.  The keypad flag is cleared in both snapshots, so no keypad
    event is pending.  The OFF flag of the current snapshot is toggled and
    that of the previous snapshot stays, so a power event is pending
    exactly when none was before.  Every other flag of both snapshots
    stays.  The debounce timer is stopped, the interrupts of the rows and
    of the button are switched off, their interrupt flags are cleared and
    the edge select of the rows is reset. *)
Theorem pwrbtnPressISR_posts_power_event (w : World) :
  wiredAsGemini w ->
  truthy (Z.land (regs w KEYPAD_PWR_IFG) KEYPAD_PWR_BTN) = true ->
  let w' := snd (pwrbtnPressISR w) in
  Z.testbit (currSysState w') 0 = false /\
  Z.testbit (prevSysState w') 0 = false /\
  Z.testbit (currSysState w') 1 = negb (Z.testbit (currSysState w) 1) /\
  Z.testbit (prevSysState w') 1 = Z.testbit (prevSysState w) 1 /\
  (forall n, 1 < n ->
     Z.testbit (currSysState w') n = Z.testbit (currSysState w) n /\
     Z.testbit (prevSysState w') n = Z.testbit (prevSysState w) n) /\
  keypadEventPending w' = false /\
  powerEventPending w' = negb (powerEventPending w) /\
  regs w' TA0CCR0 = 0 /\
  Z.land (regs w' P2IE) 0x0F = 0 /\ Z.land (regs w' P2IFG) 0x0F = 0 /\
  Z.land (regs w' P2IES) 0x0F = 0 /\
  Z.land (regs w' KEYPAD_PWR_IE) KEYPAD_PWR_BTN = 0 /\
  Z.land (regs w' KEYPAD_PWR_IFG) KEYPAD_PWR_BTN = 0.
Proof.
  intros (coord & Hkp) Hifg. cbn zeta.
  rewrite keypadEventPending_bits, !powerEventPending_bits.
  destruct w as [rg pn nr tx cs ps pk kp arr nl cl rb ik stray fl].
  cbn -[Z.testbit] in Hkp, Hifg. subst kp. cbn -[Z.testbit]. rewrite Hifg.
  cbn -[Z.testbit Z.lxor Z.land clearBits FLAG_KEYPAD_PRESS FLAG_PWR_OFF].
  assert (Hc : forall n, Z.testbit (Z.lxor (clearBits cs FLAG_KEYPAD_PRESS) FLAG_PWR_OFF) n
                         = xorb (Z.testbit cs n && negb (n =? 0)) (n =? 1)).
  { intros n. destruct (Z.ltb_spec n 0) as [Hneg | Hpos].
    - rewrite !Z.testbit_neg_r by lia.
      replace (n =? 1) with false by (symmetry; apply Z.eqb_neq; lia). reflexivity.
    - unfold clearBits. rewrite Z.lxor_spec, Z.land_spec, Z.lnot_spec by lia.
      change FLAG_KEYPAD_PRESS with (2 ^ 0). change FLAG_PWR_OFF with (2 ^ 1).
      rewrite !testbit_pow2 by lia. reflexivity. }
  assert (Hp : forall n, Z.testbit (clearBits ps FLAG_KEYPAD_PRESS) n
                         = Z.testbit ps n && negb (n =? 0)).
  { intros n. destruct (Z.ltb_spec n 0) as [Hneg | Hpos].
    - rewrite !Z.testbit_neg_r by lia. reflexivity.
    - unfold clearBits. rewrite Z.land_spec, Z.lnot_spec by lia.
      change FLAG_KEYPAD_PRESS with (2 ^ 0). rewrite testbit_pow2 by lia. reflexivity. }
  split; [rewrite Hc; cbn -[Z.testbit]; rewrite andb_false_r; reflexivity |].
  split; [rewrite Hp; cbn -[Z.testbit]; apply andb_false_r |].
  split; [rewrite Hc; cbn -[Z.testbit]; rewrite andb_true_r;
          destruct (Z.testbit cs 1); reflexivity |].
  split; [rewrite Hp; cbn -[Z.testbit]; apply andb_true_r |].
  split.
  { intros n Hn. split.
    - rewrite Hc. replace (n =? 0) with false by (symmetry; apply Z.eqb_neq; lia).
      replace (n =? 1) with false by (symmetry; apply Z.eqb_neq; lia).
      cbn -[Z.testbit]. rewrite andb_true_r, xorb_false_r. reflexivity.
    - rewrite Hp. replace (n =? 0) with false by (symmetry; apply Z.eqb_neq; lia).
      apply andb_true_r. }
  split; [rewrite Hc, Hp; cbn -[Z.testbit]; rewrite !andb_false_r; reflexivity |].
  split; [rewrite !Hc, !Hp; cbn -[Z.testbit]; rewrite !andb_true_r;
          destruct (Z.testbit cs 1), (Z.testbit ps 1); reflexivity |].
  split; [reflexivity |].
  repeat split; apply land_clearBits_same.
Qed.

Lemma pwrbtnPressISR_posts_power_event_witness :
  powerEventPending
    (snd (pwrbtnPressISR
            (set_regs (fun r => match r with P1IFG => 0x01 | _ => 0 end) (idleWith 0))))
  = true.
Proof.
  assert (Hk : wiredAsGemini
                 (set_regs (fun r => match r with P1IFG => 0x01 | _ => 0 end) (idleWith 0)))
    by (exists 0; reflexivity).
  destruct (pwrbtnPressISR_posts_power_event _ Hk eq_refl)
    as (_ & _ & _ & _ & _ & _ & H & _).
  exact H.
Defined.

(** ** The main loop *)

Lemma keeps_keySwitch_prevSysState (coord : Z) : keeps prevSysState (keySwitch coord).
Proof. keeps_all. Qed.

Lemma keeps_keySwitch_keypad_flag (coord : Z) :
  keeps (fun w => Z.testbit (currSysState w) 0) (keySwitch coord).
Proof. keeps_all. Qed.

Lemma keeps_commitLeds_flags :
  keeps (fun w => (currSysState w, prevSysState w)) commitLeds.
Proof. keeps_all. Qed.

Lemma truthy_lxor (a b : Z) : truthy (Z.lxor a b) = negb (a =? b).
Proof.
  unfold truthy. f_equal. destruct (Z.eqb_spec a b) as [-> | Hne].
  - rewrite Z.lxor_nilpotent. reflexivity.
  - apply Z.eqb_neq. intros H. apply Z.lxor_eq in H. contradiction.
Qed.

Lemma commitLeds_run (w : World) :
  currLedSRState (snd (commitLeds w)) = nextLedSRState w /\
  nextLedSRState (snd (commitLeds w)) = nextLedSRState w /\
  spiTx (snd (commitLeds w)) = spiTx w ++
    (if nextLedSRState w =? currLedSRState w then []
     else [mkFrame (regs w DISPS_CSOUT) (u8 (Z.lor (regs w LEDSR_CSOUT) LEDSR))
                   (nextLedSRState w)]) /\
  Z.land (regs (snd (commitLeds w)) LEDSR_CSOUT) LEDSR
  = (if nextLedSRState w =? currLedSRState w
     then Z.land (regs w LEDSR_CSOUT) LEDSR else 0).
Proof.
  destruct w as [rg pn nr tx cs ps pk kp arr nl cl rb ik stray fl].
  unfold commitLeds. cbn -[Z.land]. rewrite truthy_lxor.
  destruct (Z.eqb_spec nl cl) as [-> | Hne]; cbn -[Z.land].
  - rewrite app_nil_r. repeat split.
  - repeat split. apply land_clearBits_same.
Qed.

(** X13.  The write of the LED shift register: afterwards the committed
    pattern is the pending one; the pending pattern goes out, with the LED
    register selected, exactly when the two differed, and nothing goes out
    when they agreed. *)
Theorem commitLeds_commits_pending (w : World) :
  let w' := snd (commitLeds w) in
  currLedSRState w' = nextLedSRState w /\
  nextLedSRState w' = nextLedSRState w /\
  spiTx w' = spiTx w ++
    (if nextLedSRState w =? currLedSRState w then []
     else [mkFrame (regs w DISPS_CSOUT) (u8 (Z.lor (regs w LEDSR_CSOUT) LEDSR))
                   (nextLedSRState w)]) /\
  Z.land (regs w' LEDSR_CSOUT) LEDSR = (if nextLedSRState w =? currLedSRState w
                                        then Z.land (regs w LEDSR_CSOUT) LEDSR else 0).
Proof. exact (commitLeds_run w). Qed.

Lemma keypadEvent_run (w : World) :
  keypadEventPending (snd (keypadEvent w)) = false /\
  currLedSRState (snd (keypadEvent w)) = nextLedSRState (snd (keypadEvent w)).
Proof.
  unfold keypadEvent.
  rewrite (bind_at _ _ w w _ (eq_refl : sysFlag FLAG_KEYPAD_PRESS w
                                        = (truthy (Z.land (currSysState w) FLAG_KEYPAD_PRESS), w))).
  rewrite snd_bind. cbv beta.
  match goal with |- context [commitLeds (snd (?c w))] => set (body := c) end.
  split.
  2: { destruct (commitLeds_run (snd (body w))) as (Hc & Hn & _).
       rewrite Hc, Hn. reflexivity. }
  rewrite keypadEventPending_bits.
  pose proof (keeps_commitLeds_flags (snd (body w))) as E. cbv beta in E.
  injection E as -> ->. subst body.
  assert (Hp : truthy (Z.land (currSysState w) FLAG_KEYPAD_PRESS)
               = Z.testbit (currSysState w) 0)
    by (change FLAG_KEYPAD_PRESS with (2 ^ 0); apply truthy_land_pow2; lia).
  rewrite !Hp. clear Hp.
  destruct (Z.testbit (currSysState w) 0) eqn:Hbit.
  - (* a press: scan *)
    rewrite !(bind_at _ _ w w _ (eq_refl : gets geminiKeypad w = (geminiKeypad w, w))).
    pose proof (proj1 (keeps_keypad_module (geminiKeypad w)) w) as K.
    rewrite !snd_bind.
    destruct (scanForKeyPress (geminiKeypad w) w) as [scanError w1].
    cbn [fst snd] in K |- *. unfold panelState in K.
    assert (Kc : currSysState w1 = currSysState w) by congruence.
    cbn -[Z.testbit clearBits Z.lor]. destruct (truthy scanError); cbn -[Z.testbit clearBits Z.lor].
    + rewrite !clearBits_bit0. reflexivity.
    + rewrite Kc, Hbit, Z.lor_spec. change (Z.testbit FLAG_KEYPAD_PRESS 0) with true.
      rewrite orb_true_r. reflexivity.
  - (* a release: commit the coordinate and dispatch *)
    rewrite !(bind_at _ _ w w _ (eq_refl : gets geminiKeypad w = (geminiKeypad w, w))).
    pose proof (proj2 (keeps_keypad_module (geminiKeypad w)) w) as K.
    rewrite !snd_bind.
    destruct (saveKeyPress (geminiKeypad w) w) as [keypad1 w1].
    cbn [fst snd] in K |- *. unfold clientState in K.
    assert (Kc : currSysState w1 = currSysState w) by congruence.
    cbn [modify fst snd].
    pose proof (keeps_keySwitch_keypad_flag (currKeyCoord keypad1)
                  (set_geminiKeypad keypad1 w1)) as K1.
    destruct (keySwitch (currKeyCoord keypad1) (set_geminiKeypad keypad1 w1)) as [u w2].
    cbn -[Z.testbit] in K1. cbn -[Z.testbit clearBits].
    rewrite clearBits_bit0, K1, Kc, Hbit. reflexivity.
Qed.

(** X14.  The keypad branch of the main loop acknowledges its event and
    commits the LEDs, whatever the key and whatever the scan finds: after
    it the keypad flag agrees in the two snapshots, and the committed LED
    pattern is the pending one. *)
Theorem keypadEvent_acknowledged (w : World) :
  let w' := snd (keypadEvent w) in
  keypadEventPending w' = false /\ currLedSRState w' = nextLedSRState w'.
Proof. exact (keypadEvent_run w). Qed.

(** ** The power button *)

Lemma waitPwrBtnRelease_run (fuel : nat) :
  forall w,
    match waitPwrBtnRelease fuel w with
    | Some w1 =>
        exists k, (k < fuel)%nat /\
          truthy (Z.land (pins w KEYPAD_PWR_IN (nreads w + k)%nat) KEYPAD_PWR_BTN) = true /\
          (forall j, (j < k)%nat ->
             truthy (Z.land (pins w KEYPAD_PWR_IN (nreads w + j)%nat) KEYPAD_PWR_BTN) = false) /\
          w1 = set_nreads (S (nreads w + k)) w
    | None =>
        forall j, (j < fuel)%nat ->
          truthy (Z.land (pins w KEYPAD_PWR_IN (nreads w + j)%nat) KEYPAD_PWR_BTN) = false
    end.
Proof.
  induction fuel as [|fuel IH]; intros w; cbn [waitPwrBtnRelease].
  - intros j Hj. lia.
  - unfold readReg. cbn [isInput KEYPAD_PWR_IN].
    destruct (truthy (Z.land (pins w KEYPAD_PWR_IN (nreads w)) KEYPAD_PWR_BTN)) eqn:E; cbn [negb].
    + exists 0%nat. rewrite Nat.add_0_r. repeat split; [lia | exact E | intros j Hj; lia].
    + specialize (IH (set_nreads (S (nreads w)) w)).
      destruct (waitPwrBtnRelease fuel (set_nreads (S (nreads w)) w)) as [w1 |].
      * destruct IH as (k & Hk & Hrel & Hheld & ->). cbn [pins nreads set_nreads] in *.
        exists (S k). repeat split.
        -- lia.
        -- rewrite <- Hrel. do 3 f_equal. lia.
        -- intros [|j] Hj; [rewrite Nat.add_0_r; exact E |].
           rewrite <- (Hheld j) by lia. do 3 f_equal. lia.
        -- rewrite set_nreads_twice. f_equal. lia.
      * intros [|j] Hj; [rewrite Nat.add_0_r; exact E |].
        cbn [pins nreads set_nreads] in IH.
        rewrite <- (IH j) by lia. do 3 f_equal. lia.
Qed.

(** X15.  The wait for the release of the power button returns at the
    first poll that sees the button bit high, and all it changes is the
    count of pin reads; if none of the polls it is given sees the bit
    high, it does not return. *)
Theorem waitPwrBtnRelease_first_release (fuel : nat) (w : World) :
  match waitPwrBtnRelease fuel w with
  | Some w1 =>
      exists k, (k < fuel)%nat /\
        truthy (Z.land (pins w KEYPAD_PWR_IN (nreads w + k)%nat) KEYPAD_PWR_BTN) = true /\
        (forall j, (j < k)%nat ->
           truthy (Z.land (pins w KEYPAD_PWR_IN (nreads w + j)%nat) KEYPAD_PWR_BTN) = false) /\
        w1 = set_nreads (S (nreads w + k)) w
  | None =>
      forall j, (j < fuel)%nat ->
        truthy (Z.land (pins w KEYPAD_PWR_IN (nreads w + j)%nat) KEYPAD_PWR_BTN) = false
  end.
Proof. apply waitPwrBtnRelease_run. Qed.

Lemma testbit_u8 (x n : Z) : 0 <= n < 8 -> Z.testbit (u8 x) n = Z.testbit x n.
Proof. intros Hn. unfold u8. change 256 with (2 ^ 8). apply Z.mod_pow2_bits_low. lia. Qed.

Lemma powerEventTail_run (w : World) :
  let w' := snd (powerEventTail w) in
  Z.testbit (prevSysState w') 1 = Z.testbit (currSysState w') 1 /\
  Z.testbit (currSysState w') 0 = Z.testbit (currSysState w) 0 /\
  Z.testbit (prevSysState w') 0 = Z.testbit (prevSysState w) 0 /\
  Z.testbit (regs w' KEYPAD_PWR_IE) 0 = true /\
  Z.testbit (regs w' KEYPAD_PWR_IFG) 0 = false.
Proof.
  assert (Htail : forall w1 : World,
    let w' := snd ((modify (fun w => set_prevSysState
                      (Z.lxor (prevSysState w)
                         (Z.land (Z.lxor (prevSysState w) (currSysState w)) FLAG_PWR_OFF)) w) ;;
                    clearReg KEYPAD_PWR_IFG KEYPAD_PWR_BTN ;;
                    orReg KEYPAD_PWR_IE KEYPAD_PWR_BTN) w1) in
    Z.testbit (prevSysState w') 1 = Z.testbit (currSysState w') 1 /\
    Z.testbit (currSysState w') 0 = Z.testbit (currSysState w1) 0 /\
    Z.testbit (prevSysState w') 0 = Z.testbit (prevSysState w1) 0 /\
    Z.testbit (regs w' KEYPAD_PWR_IE) 0 = true /\
    Z.testbit (regs w' KEYPAD_PWR_IFG) 0 = false).
  { intros w1. cbn -[Z.testbit Z.lxor Z.land clearBits u8 Z.lor FLAG_PWR_OFF KEYPAD_PWR_BTN].
    change FLAG_PWR_OFF with (2 ^ 1). change KEYPAD_PWR_BTN with (2 ^ 0).
    unfold clearBits.
    rewrite testbit_u8 by lia.
    rewrite !Z.lxor_spec, !Z.land_spec, !Z.lor_spec, !Z.lxor_spec, Z.lnot_spec by lia.
    rewrite !testbit_pow2 by lia. cbn [Z.eqb Pos.eqb negb].
    rewrite !andb_false_r, !andb_true_r, orb_true_r, xorb_false_r.
    repeat split. destruct (Z.testbit (prevSysState w1) 1), (Z.testbit (currSysState w1) 1);
      reflexivity. }
  unfold powerEventTail.
  rewrite (bind_at _ _ w w _ (eq_refl : delay_cycles PWR_BTN_RELEASE_DELAY w = (tt, w))).
  rewrite (bind_at _ _ w w _ (eq_refl : sysFlag FLAG_PWR_OFF w
                                        = (truthy (Z.land (currSysState w) FLAG_PWR_OFF), w))).
  cbn zeta. rewrite snd_bind. cbv beta.
  match goal with |- context [snd (?c w)] => set (w1 := snd (c w)) end.
  assert (H1 : Z.testbit (currSysState w1) 0 = Z.testbit (currSysState w) 0 /\
               Z.testbit (prevSysState w1) 0 = Z.testbit (prevSysState w) 0).
  { subst w1. destruct (truthy (Z.land (currSysState w) FLAG_PWR_OFF)).
    - split.
      + match goal with
        | |- Z.testbit (currSysState (snd (?c w))) 0 = _ =>
            assert (K : keeps (fun w => Z.testbit (currSysState w) 0) c) by keeps_all;
            apply K
        end.
      + match goal with
        | |- Z.testbit (prevSysState (snd (?c w))) 0 = _ =>
            assert (K : keeps (fun w => Z.testbit (prevSysState w) 0) c) by keeps_all;
            apply K
        end.
    - split.
      + match goal with
        | |- Z.testbit (currSysState (snd (?c w))) 0 = _ =>
            assert (K : keeps (fun w => Z.testbit (currSysState w) 0) c) by keeps_all;
            apply K
        end.
      + match goal with
        | |- Z.testbit (prevSysState (snd (?c w))) 0 = _ =>
            assert (K : keeps (fun w => Z.testbit (prevSysState w) 0) c) by keeps_all;
            apply K
        end. }
  destruct H1 as (Hc & Hp). rewrite <- Hc, <- Hp. apply (Htail w1).
Qed.

Lemma powerEvent_run (fuel : nat) (w w' : World) :
  powerEvent fuel w = Some w' ->
  powerEventPending w' = false /\
  keypadEventPending w' = keypadEventPending w /\
  Z.testbit (regs w' KEYPAD_PWR_IE) 0 = true /\
  Z.testbit (regs w' KEYPAD_PWR_IFG) 0 = false.
Proof.
  unfold powerEvent. change (snd (delay_cycles PWR_BTN_PRESS_DELAY w)) with w.
  pose proof (waitPwrBtnRelease_run fuel w) as Hw.
  destruct (waitPwrBtnRelease fuel w) as [w1 |]; [| discriminate].
  intros E. assert (Ew : w' = snd (powerEventTail w1)) by congruence.
  subst w'. clear E. destruct Hw as (k & _ & _ & _ & ->).
  destruct (powerEventTail_run (set_nreads (S (nreads w + k)) w)) as (H1 & H2 & H3 & H4 & H5).
  cbv zeta in *. rewrite powerEventPending_bits, !keypadEventPending_bits, H1, H2, H3.
  repeat split; try assumption. apply xorb_nilpotent.
Qed.

Lemma keeps_powerEventTail_off_flag :
  keeps (fun w => Z.testbit (currSysState w) 1) powerEventTail.
Proof. keeps_all. Qed.

Lemma powerEvent_flags (fuel : nat) (w w' : World) :
  powerEvent fuel w = Some w' ->
  Z.testbit (currSysState w') 1 = Z.testbit (currSysState w) 1 /\
  Z.testbit (prevSysState w') 1 = Z.testbit (currSysState w) 1 /\
  Z.testbit (currSysState w') 0 = Z.testbit (currSysState w) 0 /\
  Z.testbit (prevSysState w') 0 = Z.testbit (prevSysState w) 0.
Proof.
  unfold powerEvent. change (snd (delay_cycles PWR_BTN_PRESS_DELAY w)) with w.
  pose proof (waitPwrBtnRelease_run fuel w) as Hw.
  destruct (waitPwrBtnRelease fuel w) as [w1 |]; [| discriminate].
  intros E. assert (Ew : w' = snd (powerEventTail w1)) by congruence.
  subst w'. clear E. destruct Hw as (k & _ & _ & _ & ->).
  destruct (powerEventTail_run (set_nreads (S (nreads w + k)) w)) as (H1 & H2 & H3 & _).
  pose proof (keeps_powerEventTail_off_flag (set_nreads (S (nreads w + k)) w)) as H4.
  cbv zeta beta in *. rewrite H1, H2, H3, H4. repeat split.
Qed.

(** X16.  The power branch of the main loop acknowledges its event, and
    does so in the previous snapshot: when it returns, the OFF flag of
    the current snapshot is as it was and that of the previous snapshot
    agrees with it, so no power event is pending; the keypad flag of
    neither snapshot has changed; the interrupt flag of the button is
    cleared and its interrupt is enabled again. *)
Theorem powerEvent_acknowledged (fuel : nat) (w w' : World) :
  powerEvent fuel w = Some w' ->
  Z.testbit (currSysState w') 1 = Z.testbit (currSysState w) 1 /\
  Z.testbit (prevSysState w') 1 = Z.testbit (currSysState w) 1 /\
  powerEventPending w' = false /\
  Z.testbit (currSysState w') 0 = Z.testbit (currSysState w) 0 /\
  Z.testbit (prevSysState w') 0 = Z.testbit (prevSysState w) 0 /\
  Z.testbit (regs w' KEYPAD_PWR_IE) 0 = true /\
  Z.testbit (regs w' KEYPAD_PWR_IFG) 0 = false.
Proof.
  intros E.
  destruct (powerEvent_flags fuel w w' E) as (F1 & F2 & F3 & F4).
  destruct (powerEvent_run fuel w w' E) as (P & _ & R1 & R2).
  repeat split; assumption.
Qed.

Lemma powerEvent_acknowledged_witness :
  powerEventPending
    (snd (powerEventTail (set_nreads 1 poweringOff))) = false.
Proof.
  destruct (powerEvent_acknowledged 1 poweringOff _ eq_refl) as (_ & _ & H & _).
  exact H.
Defined.

(** X17.  A turn of the main loop that returns leaves no event behind:
    neither a keypad nor a power event is pending, so that the next turn,
    if no interrupt comes in between, changes nothing. *)
Theorem mainLoopIter_leaves_no_event (fuel : nat) (w w' : World) :
  mainLoopIter fuel w = Some w' ->
  keypadEventPending w' = false /\ powerEventPending w' = false /\
  forall fuel', mainLoopIter fuel' w' = Some w'.
Proof.
  intros E.
  assert (H : keypadEventPending w' = false /\ powerEventPending w' = false).
  { unfold mainLoopIter in E. fold (keypadEventPending w) in E.
    cbv zeta in E.
    set (w1 := if keypadEventPending w then snd (keypadEvent w) else w) in *.
    assert (Hk : keypadEventPending w1 = false).
    { subst w1. destruct (keypadEventPending w) eqn:Ek; [| exact Ek].
      apply (keypadEvent_run w). }
    fold (powerEventPending w1) in E.
    destruct (powerEventPending w1) eqn:Ep.
    - destruct (powerEvent_run fuel w1 w' E) as (H1 & H2 & _).
      rewrite H2. split; [exact Hk | exact H1].
    - injection E as <-. split; assumption. }
  destruct H as (Hk & Hp). repeat split; try assumption.
  intros fuel'. unfold mainLoopIter. fold (keypadEventPending w'). rewrite Hk.
  fold (powerEventPending w'). rewrite Hp. reflexivity.
Qed.

Lemma mainLoopIter_leaves_no_event_witness :
  keypadEventPending (snd (powerEventTail (set_nreads 1 poweringOff))) = false.
Proof.
  exact (proj1 (mainLoopIter_leaves_no_event 1 poweringOff _ eq_refl)).
Defined.

(** ** The keys *)

Lemma sysFlag_bind {B : Type} (flag : Z) (k : bool -> M B) (w : World) (b : bool) :
  truthy (Z.land (currSysState w) flag) = b ->
  bind (sysFlag flag) k w = k b w.
Proof. intros <-. reflexivity. Qed.

(** X18.  While the pump runs the panel is locked: every key but
    PAUSE/STOP and START, and every coordinate that is no key at all,
    leaves the whole state as it is. *)
Theorem pump_running_locks_keys (coord : Z) (w : World) :
  pumpRunning w ->
  coord <> PAUSE_STOP_DOWN -> coord <> PAUSE_STOP_ALT -> coord <> START ->
  keySwitch coord w = (tt, w).
Proof.
  intros (Hp & Hr & Hv) H1 H2 H3.
  assert (Hcc : keyCC_MONITOR w = (tt, w))
    by (unfold keyCC_MONITOR; rewrite (sysFlag_bind _ _ _ _ Hp); reflexivity).
  assert (Hed : forall o t v r, keyEdit o t v r w = (tt, w))
    by (intros; unfold keyEdit; rewrite (sysFlag_bind _ _ _ _ Hp); reflexivity).
  assert (Hdig : forall d, keyDigit d w = (tt, w))
    by (intros; unfold keyDigit; rewrite (sysFlag_bind _ _ _ _ Hr);
        cbv iota; rewrite (sysFlag_bind _ _ _ _ Hv); reflexivity).
  assert (Hclr : keyCLEAR_SILENCE w = (tt, w))
    by (unfold keyCLEAR_SILENCE; rewrite (sysFlag_bind _ _ _ _ Hp); reflexivity).
  assert (Htwo : forall a b, keyTwoLeds a b w = (tt, w))
    by (intros; unfold keyTwoLeds; rewrite (sysFlag_bind _ _ _ _ Hp); reflexivity).
  assert (Hsec : keySEC_PIGGY_BACK w = (tt, w))
    by (unfold keySEC_PIGGY_BACK; rewrite (sysFlag_bind _ _ _ _ Hp); reflexivity).
  unfold PAUSE_STOP_DOWN, PAUSE_STOP_ALT, START in *.
  unfold keySwitch.
  repeat match goal with
         | |- context [match ?x with _ => _ end] => is_var x; destruct x
         end;
    lazymatch goal with
    | |- ret tt _ = _ => reflexivity
    | |- keyCC_MONITOR _ = _ => exact Hcc
    | |- keyEdit _ _ _ _ _ = _ => apply Hed
    | |- keyDigit _ _ = _ => apply Hdig
    | |- keyCLEAR_SILENCE _ = _ => exact Hclr
    | |- keyTwoLeds _ _ _ = _ => apply Htwo
    | |- keySEC_PIGGY_BACK _ = _ => exact Hsec
    | |- _ => exfalso; congruence
    end.
Qed.

Lemma pump_running_locks_keys_witness :
  keySwitch HUNDRED (set_currSysState FLAG_PUMP_ACTIVE world7)
  = (tt, set_currSysState FLAG_PUMP_ACTIVE world7).
Proof.
  apply pump_running_locks_keys.
  - repeat split.
  - discriminate.
  - discriminate.
  - discriminate.
Defined.

(** *** The two edit modes exclude each other *)

Lemma editExclusive_by_bits (w w' : World) :
  editBits w' = editBits w -> editExclusive w -> editExclusive w'.
Proof.
  unfold editExclusive. intros E H.
  assert (E1 : fst (editBits w') = fst (editBits w)) by (rewrite E; reflexivity).
  assert (E2 : snd (editBits w') = snd (editBits w)) by (rewrite E; reflexivity).
  unfold editBits in E1, E2. cbn [fst snd] in E1, E2. rewrite E1, E2. exact H.
Qed.

Lemma editExclusive_off (w : World) :
  Z.testbit (currSysState w) 2 = false \/ Z.testbit (currSysState w) 3 = false ->
  editExclusive w.
Proof.
  unfold editExclusive. intros [-> | ->]; [reflexivity | apply andb_false_r].
Qed.

(** After the flags in [m] are cleared, the rest of a handler keeps the
    bit [n] of the current snapshot down. *)
Ltac cleared_then_kept n :=
  rewrite snd_bind; cbv beta;
  match goal with
  | |- Z.testbit (currSysState (snd (?rest ?w1))) _ = false =>
      let K := fresh "K" in
      assert (K : keeps (fun w => Z.testbit (currSysState w) n) rest) by keeps_all;
      rewrite (K w1); clear K
  end.

Lemma keyEdit_RATE_clears_VTBI (w : World) :
  truthy (Z.land (currSysState w) FLAG_PUMP_ACTIVE) = false ->
  Z.testbit (currSysState
               (snd (keyEdit FLAG_VTBI_EDIT FLAG_RATE_EDIT FLAG_RATE_VALUE TOP_ROW w))) 3 = false.
Proof.
  intros Hp. unfold keyEdit. rewrite (sysFlag_bind _ _ _ _ Hp). cbn [negb].
  rewrite (bind_at _ _ w w _ (eq_refl : gets geminiKeypad w = (geminiKeypad w, w))).
  rewrite snd_bind. cbv beta.
  set (w1 := snd (clearReg (ROW_IE (geminiKeypad w)) (ROW_PINS (geminiKeypad w)) w)).
  cleared_then_kept 3.
  cbn -[Z.testbit clearBits]. unfold clearBits.
  rewrite Z.land_spec, Z.lnot_spec by lia. apply andb_false_r.
Qed.

Lemma keyEdit_VTBI_clears_RATE (w : World) :
  truthy (Z.land (currSysState w) FLAG_PUMP_ACTIVE) = false ->
  Z.testbit (currSysState
               (snd (keyEdit FLAG_RATE_EDIT FLAG_VTBI_EDIT FLAG_VTBI_VALUE BOT_ROW w))) 2 = false.
Proof.
  intros Hp. unfold keyEdit. rewrite (sysFlag_bind _ _ _ _ Hp). cbn [negb].
  rewrite (bind_at _ _ w w _ (eq_refl : gets geminiKeypad w = (geminiKeypad w, w))).
  rewrite snd_bind. cbv beta.
  set (w1 := snd (clearReg (ROW_IE (geminiKeypad w)) (ROW_PINS (geminiKeypad w)) w)).
  cleared_then_kept 2.
  cbn -[Z.testbit clearBits]. unfold clearBits.
  rewrite Z.land_spec, Z.lnot_spec by lia. apply andb_false_r.
Qed.

Lemma keyPAUSE_STOP_clears_edit (w : World) :
  Z.testbit (currSysState (snd (keyPAUSE_STOP w))) 2 = false.
Proof.
  unfold keyPAUSE_STOP. cleared_then_kept 2.
  cbn -[Z.testbit clearBits]. unfold clearBits.
  rewrite Z.land_spec, Z.lnot_spec by lia. apply andb_false_r.
Qed.

Lemma keySTART_clears_edit (w : World) :
  Z.testbit (currSysState (snd (keySTART w))) 2 = false.
Proof.
  unfold keySTART. cleared_then_kept 2.
  cbn -[Z.testbit clearBits]. unfold clearBits.
  rewrite Z.land_spec, Z.lnot_spec by lia. apply andb_false_r.
Qed.

Lemma keySwitch_editExclusive (coord : Z) (w : World) :
  editExclusive w -> editExclusive (snd (keySwitch coord w)).
Proof.
  intros Hx.
  assert (Hkeep : forall c : M unit, keeps editBits c -> editExclusive (snd (c w)))
    by (intros c K; exact (editExclusive_by_bits w _ (K w) Hx)).
  assert (Hed1 : editExclusive
                   (snd (keyEdit FLAG_VTBI_EDIT FLAG_RATE_EDIT FLAG_RATE_VALUE TOP_ROW w))).
  { destruct (truthy (Z.land (currSysState w) FLAG_PUMP_ACTIVE)) eqn:Hp.
    - unfold keyEdit. rewrite (sysFlag_bind _ _ _ _ Hp). exact Hx.
    - apply editExclusive_off. right. apply keyEdit_RATE_clears_VTBI. exact Hp. }
  assert (Hed2 : editExclusive
                   (snd (keyEdit FLAG_RATE_EDIT FLAG_VTBI_EDIT FLAG_VTBI_VALUE BOT_ROW w))).
  { destruct (truthy (Z.land (currSysState w) FLAG_PUMP_ACTIVE)) eqn:Hp.
    - unfold keyEdit. rewrite (sysFlag_bind _ _ _ _ Hp). exact Hx.
    - apply editExclusive_off. left. apply keyEdit_VTBI_clears_RATE. exact Hp. }
  unfold keySwitch.
  repeat match goal with
         | |- context [match ?x with _ => _ end] => is_var x; destruct x
         end;
    lazymatch goal with
    | |- editExclusive (snd (ret tt _)) => exact Hx
    | |- editExclusive (snd (keyEdit FLAG_VTBI_EDIT _ _ _ _)) => exact Hed1
    | |- editExclusive (snd (keyEdit FLAG_RATE_EDIT _ _ _ _)) => exact Hed2
    | |- editExclusive (snd (keyPAUSE_STOP _)) =>
        apply editExclusive_off; left; apply keyPAUSE_STOP_clears_edit
    | |- editExclusive (snd (keySTART _)) =>
        apply editExclusive_off; left; apply keySTART_clears_edit
    | |- _ => apply Hkeep; keeps_all
    end.
Qed.

Lemma keeps_commitLeds_editBits : keeps editBits commitLeds.
Proof. keeps_all. Qed.

Lemma editBits_clear_keypad_flag (c : Z) :
  (Z.testbit (clearBits c FLAG_KEYPAD_PRESS) 2, Z.testbit (clearBits c FLAG_KEYPAD_PRESS) 3)
  = (Z.testbit c 2, Z.testbit c 3).
Proof. rewrite !clearBits_other_bits by lia. reflexivity. Qed.

Lemma keypadEvent_editExclusive (w : World) :
  editExclusive w -> editExclusive (snd (keypadEvent w)).
Proof.
  intros Hx. unfold keypadEvent.
  rewrite (bind_at _ _ w w _ (eq_refl : sysFlag FLAG_KEYPAD_PRESS w
                                        = (truthy (Z.land (currSysState w) FLAG_KEYPAD_PRESS), w))).
  rewrite snd_bind. cbv beta.
  match goal with |- context [commitLeds (snd (?c w))] => set (body := c) end.
  apply (editExclusive_by_bits (snd (body w)));
    [apply (keeps_commitLeds_editBits (snd (body w))) |].
  subst body. destruct (truthy (Z.land (currSysState w) FLAG_KEYPAD_PRESS)).
  - rewrite !(bind_at _ _ w w _ (eq_refl : gets geminiKeypad w = (geminiKeypad w, w))).
    pose proof (proj1 (keeps_keypad_module (geminiKeypad w)) w) as K.
    rewrite !snd_bind.
    destruct (scanForKeyPress (geminiKeypad w) w) as [scanError w1].
    cbn [fst snd] in K |- *. unfold panelState in K.
    assert (Kc : currSysState w1 = currSysState w) by congruence.
    apply (editExclusive_by_bits w); [| exact Hx]. unfold editBits.
    destruct (truthy scanError); cbn -[Z.testbit clearBits Z.lor].
    + rewrite editBits_clear_keypad_flag, Kc. reflexivity.
    + rewrite Kc. reflexivity.
  - rewrite !(bind_at _ _ w w _ (eq_refl : gets geminiKeypad w = (geminiKeypad w, w))).
    pose proof (proj2 (keeps_keypad_module (geminiKeypad w)) w) as K.
    rewrite !snd_bind.
    destruct (saveKeyPress (geminiKeypad w) w) as [keypad1 w1].
    cbn [fst snd] in K |- *. unfold clientState in K.
    assert (Kc : currSysState w1 = currSysState w) by congruence.
    cbn [modify fst snd].
    assert (Hx1 : editExclusive (set_geminiKeypad keypad1 w1)).
    { apply (editExclusive_by_bits w); [| exact Hx]. unfold editBits.
      cbn -[Z.testbit]. rewrite Kc. reflexivity. }
    pose proof (keySwitch_editExclusive (currKeyCoord keypad1) _ Hx1) as Hx2.
    destruct (keySwitch (currKeyCoord keypad1) (set_geminiKeypad keypad1 w1)) as [u w2].
    cbn [snd] in Hx2.
    apply (editExclusive_by_bits w2); [| exact Hx2]. reflexivity.
Qed.

Lemma powerEvent_editExclusive (fuel : nat) (w w' : World) :
  powerEvent fuel w = Some w' -> editExclusive w -> editExclusive w'.
Proof.
  unfold powerEvent. change (snd (delay_cycles PWR_BTN_PRESS_DELAY w)) with w.
  pose proof (waitPwrBtnRelease_run fuel w) as Hw.
  destruct (waitPwrBtnRelease fuel w) as [w1 |]; [| discriminate].
  intros E Hx. assert (Ew : w' = snd (powerEventTail w1)) by congruence.
  subst w'. clear E. destruct Hw as (k & _ & _ & _ & ->).
  set (w1 := set_nreads (S (nreads w + k)) w).
  assert (Hx1 : editExclusive w1) by exact Hx.
  clearbody w1. clear Hx.
  unfold powerEventTail.
  rewrite (bind_at _ _ w1 w1 _ (eq_refl : delay_cycles PWR_BTN_RELEASE_DELAY w1 = (tt, w1))).
  rewrite (bind_at _ _ w1 w1 _ (eq_refl : sysFlag FLAG_PWR_OFF w1
                                          = (truthy (Z.land (currSysState w1) FLAG_PWR_OFF), w1))).
  destruct (truthy (Z.land (currSysState w1) FLAG_PWR_OFF)).
  - apply editExclusive_off. left.
    rewrite snd_bind. cbv beta. rewrite snd_bind. cbv beta.
    match goal with
    | |- Z.testbit (currSysState (snd (?rest ?w2))) _ = false =>
        let K := fresh "K" in
        assert (K : keeps (fun w => Z.testbit (currSysState w) 2) rest) by keeps_all;
        rewrite (K w2); clear K
    end.
    rewrite snd_bind. cbv beta.
    match goal with
    | |- Z.testbit (currSysState (snd (?rest ?w2))) _ = false =>
        let K := fresh "K" in
        assert (K : keeps (fun w => Z.testbit (currSysState w) 2) rest) by keeps_all;
        rewrite (K w2); clear K
    end.
    cbn -[Z.testbit clearBits]. unfold clearBits.
    rewrite Z.land_spec, Z.lnot_spec by lia. apply andb_false_r.
  - apply (editExclusive_by_bits w1); [| exact Hx1].
    match goal with
    | |- editBits (snd (?c w1)) = _ =>
        let K := fresh "K" in assert (K : keeps editBits c) by keeps_all; apply K
    end.
Qed.

(** X19.  The two edit modes exclude each other, and nothing the firmware
    runs changes that: from a state with at most one of the RATE and VTBI
    edit flags up, a turn of the main loop, whatever the key, and each of
    the three interrupt service routines end in such a state again. *)
Theorem edit_modes_stay_exclusive (fuel : nat) (w : World) :
  editExclusive w ->
  (forall w', mainLoopIter fuel w = Some w' -> editExclusive w') /\
  editExclusive (snd (keypadPressISR w)) /\
  editExclusive (snd (pwrbtnPressISR w)) /\
  editExclusive (snd (timer0A0ISR w)).
Proof.
  intros Hx. split; [| split; [| split]].
  - intros w' E. unfold mainLoopIter in E. cbv zeta in E.
    set (w1 := if truthy (Z.land (Z.lxor (currSysState w) (prevSysState w)) FLAG_KEYPAD_PRESS)
               then snd (keypadEvent w) else w) in *.
    assert (Hx1 : editExclusive w1).
    { subst w1. clear E.
      destruct (truthy (Z.land (Z.lxor (currSysState w) (prevSysState w)) FLAG_KEYPAD_PRESS));
        [apply keypadEvent_editExclusive |]; exact Hx. }
    destruct (truthy (Z.land (Z.lxor (currSysState w1) (prevSysState w1)) FLAG_PWR_OFF)).
    + exact (powerEvent_editExclusive fuel w1 w' E Hx1).
    + injection E as <-. exact Hx1.
  - apply (editExclusive_by_bits w); [| exact Hx].
    assert (K : keeps editBits keypadPressISR) by keeps_all. apply K.
  - apply (editExclusive_by_bits w); [| exact Hx].
    assert (K : keeps editBits pwrbtnPressISR) by keeps_all. apply K.
  - apply (editExclusive_by_bits w); [| exact Hx].
    assert (K : keeps editBits timer0A0ISR) by keeps_all. apply K.
Qed.

Lemma edit_modes_stay_exclusive_witness :
  editExclusive (snd (timer0A0ISR world7)).
Proof.
  assert (H : editExclusive world7) by reflexivity.
  exact (proj2 (proj2 (proj2 (edit_modes_stay_exclusive 0 world7 H)))).
Defined.

(** ** The LED keys *)

Lemma testbit_small (c n : Z) :
  (0 <=? c) && (c <? 256) = true -> 8 <= n -> Z.testbit c n = false.
Proof.
  intros Hc Hn. apply andb_true_iff in Hc. destruct Hc as (H0 & H1).
  apply Z.leb_le in H0. apply Z.ltb_lt in H1.
  destruct (Z.eq_dec c 0) as [-> | Hne]; [apply Z.bits_0 |].
  apply Z.bits_above_log2; [lia |].
  apply Z.log2_lt_pow2; [lia |]. apply Z.lt_le_trans with (2 ^ 8); [exact H1 |].
  apply Z.pow_le_mono_r; lia.
Qed.

(** Equations between bytes combined bit by bit with constants. *)
Ltac bits8 :=
  let n := fresh "n" in
  let Hn := fresh "Hn" in
  apply Z.bits_inj'; intros n Hn;
  unfold clearBits;
  repeat (rewrite ?Z.land_spec, ?Z.lor_spec, ?Z.lxor_spec; rewrite ?Z.lnot_spec by lia);
  repeat match goal with
         | |- context [Z.testbit ?x n] => is_var x; generalize (Z.testbit x n); intro
         end;
  let Hlt := fresh "Hlt" in
  destruct (Z.ltb_spec n 8) as [Hlt | Hlt];
  [ let Hc := fresh "Hc" in
    assert (Hc : n = 0 \/ n = 1 \/ n = 2 \/ n = 3 \/ n = 4 \/ n = 5 \/ n = 6 \/ n = 7) by lia;
    repeat (destruct Hc as [Hc | Hc]; [subst n |]); try subst n;
    cbn; repeat match goal with b : bool |- _ => destruct b end; reflexivity
  | repeat match goal with
           | |- context [Z.testbit ?c n] => rewrite (testbit_small c n eq_refl Hlt)
           end;
    cbn; repeat match goal with b : bool |- _ => destruct b end; reflexivity ].

Ltac led_group :=
  let w := fresh "w" in
  intros w; destruct w as [rg pn nr tx cs ps pk kp arr nl cl rb ik stray fl];
  repeat (cbn -[Z.land Z.lor Z.lxor Z.lnot clearBits];
          match goal with
          | |- context [if ?b then _ else _] => destruct b
          end);
  cbn -[Z.land Z.lor Z.lxor Z.lnot clearBits];
  (eexists; split; [reflexivity | first [reflexivity | bits8]]).

(** X20.  Each LED key keeps to its own group of LEDs: CC/MONITOR changes
    nothing but the bits of the CC, blank button and MONITOR LEDs in the
    pending pattern, PC MODE nothing but those of CONTROLLER and PUMP,
    SEC/PIGGYBACK nothing but its own bit, VOLUME INFUSED nothing but those
    of the two power LEDs; the rest of the state is as before. *)
Theorem led_keys_keep_to_their_group :
  ledGroupOnly (Z.lor (Z.lor LED_CC LED_BLANKBUTTON) LED_MONITOR) keyCC_MONITOR /\
  ledGroupOnly (Z.lor LED_CONTROLLER LED_PUMP) (keyTwoLeds LED_CONTROLLER LED_PUMP) /\
  ledGroupOnly LED_SECPIGGYBACK keySEC_PIGGY_BACK /\
  ledGroupOnly (Z.lor LED_BATTPWR LED_PLUGPWR) (keyTwoLeds LED_BATTPWR LED_PLUGPWR).
Proof.
  split; [| split; [| split]].
  - unfold keyCC_MONITOR. led_group.
  - unfold keyTwoLeds. led_group.
  - unfold keySEC_PIGGY_BACK. led_group.
  - unfold keyTwoLeds. led_group.
Qed.

(** What an LED key does depends on the LED pattern alone. *)
Lemma keeps_commitLeds_currSysState : keeps currSysState commitLeds.
Proof. keeps_all. Qed.

Lemma ledPress_ledReady (handler : M unit) (w : World) :
  keeps currSysState handler ->
  truthy (Z.land (currSysState w) FLAG_PUMP_ACTIVE) = false ->
  ledReady (nextLedSRState (snd (handler w))) (ledPress handler w).
Proof.
  intros K Hp. unfold ledPress, ledReady.
  destruct (commitLeds_run (snd (handler w))) as (Hc & Hn & _).
  rewrite keeps_commitLeds_currSysState, K, Hc, Hn. repeat split. exact Hp.
Qed.

Ltac led_step :=
  let w1 := fresh "w" in
  let w2 := fresh "w" in
  intros w1 w2 led (Hp1 & Hn1 & Hc1) (Hp2 & Hn2 & Hc2);
  eexists; split;
  [ apply ledPress_ledReady; [keeps_all | exact Hp1]
  | match goal with
    | |- ledReady ?a (ledPress ?h _) =>
        replace a with (nextLedSRState (snd (h w2)));
        [ apply ledPress_ledReady; [keeps_all | exact Hp2] |]
    end;
    destruct w1 as [rg pn nr tx cs ps pk kp arr nl cl rb ik stray fl];
    destruct w2 as [rg' pn' nr' tx' cs' ps' pk' kp' arr' nl' cl' rb' ik' stray' fl'];
    cbn in Hp1, Hn1, Hc1, Hp2, Hn2, Hc2; subst nl cl nl' cl';
    repeat (cbn; rewrite ?Hp1, ?Hp2;
            match goal with
            | |- context [if ?b then _ else _] => destruct b
            end);
    cbn; rewrite ?Hp1, ?Hp2; reflexivity ].

Lemma ledPress_keyCC_MONITOR_by_led :
  forall w1 w2 led, ledReady led w1 -> ledReady led w2 ->
    exists led', ledReady led' (ledPress keyCC_MONITOR w1) /\
                 ledReady led' (ledPress keyCC_MONITOR w2).
Proof. led_step. Qed.

Lemma ledPress_keyTwoLeds_by_led (a b : Z) :
  forall w1 w2 led, ledReady led w1 -> ledReady led w2 ->
    exists led', ledReady led' (ledPress (keyTwoLeds a b) w1) /\
                 ledReady led' (ledPress (keyTwoLeds a b) w2).
Proof. led_step. Qed.

Lemma ledPress_keySEC_PIGGY_BACK_by_led :
  forall w1 w2 led, ledReady led w1 -> ledReady led w2 ->
    exists led', ledReady led' (ledPress keySEC_PIGGY_BACK w1) /\
                 ledReady led' (ledPress keySEC_PIGGY_BACK w2).
Proof. led_step. Qed.

Lemma ledPress_iter_by_led (handler : M unit) :
  (forall w1 w2 led, ledReady led w1 -> ledReady led w2 ->
     exists led', ledReady led' (ledPress handler w1) /\
                  ledReady led' (ledPress handler w2)) ->
  forall n w1 w2 led, ledReady led w1 -> ledReady led w2 ->
    ledsOf (Nat.iter n (ledPress handler) w1) = ledsOf (Nat.iter n (ledPress handler) w2).
Proof.
  intros Hstep n w1 w2 led H1 H2.
  enough (H : exists led', ledReady led' (Nat.iter n (ledPress handler) w1) /\
                           ledReady led' (Nat.iter n (ledPress handler) w2)).
  { destruct H as (led' & (_ & Hn1 & Hc1) & (_ & Hn2 & Hc2)).
    unfold ledsOf. rewrite Hn1, Hc1, Hn2, Hc2. reflexivity. }
  induction n as [|n IH].
  - exists led. split; assumption.
  - destruct IH as (led1 & Ha & Hb).
    change (Nat.iter (S n) (ledPress handler) w1)
      with (ledPress handler (Nat.iter n (ledPress handler) w1)).
    change (Nat.iter (S n) (ledPress handler) w2)
      with (ledPress handler (Nat.iter n (ledPress handler) w2)).
    exact (Hstep _ _ led1 Ha Hb).
Qed.

Lemma idleWith_ledReady (led : Z) : ledReady led (idleWith led).
Proof. repeat split. Qed.

Lemma led_cycles_from_idle (led : Z) :
  In led allBytes ->
  (atMostOneLit (Z.lor (Z.lor LED_CC LED_BLANKBUTTON) LED_MONITOR) led = true ->
   ledsOf (Nat.iter 4 (ledPress keyCC_MONITOR) (idleWith led)) = (led, led)) /\
  (atMostOneLit (Z.lor LED_CONTROLLER LED_PUMP) led = true ->
   ledsOf (Nat.iter 3 (ledPress (keyTwoLeds LED_CONTROLLER LED_PUMP)) (idleWith led))
   = (led, led)) /\
  ledsOf (Nat.iter 2 (ledPress keySEC_PIGGY_BACK) (idleWith led)) = (led, led) /\
  (atMostOneLit (Z.lor LED_BATTPWR LED_PLUGPWR) led = true ->
   ledsOf (Nat.iter 3 (ledPress (keyTwoLeds LED_BATTPWR LED_PLUGPWR)) (idleWith led))
   = (led, led)).
Proof.
  intros H.
  each_of H ltac:(vm_compute; repeat split; first [discriminate | reflexivity | intros _; reflexivity]).
Qed.

(** X21.  The LED keys cycle.  With the pump stopped and at most one LED
    of the group lit, four presses of CC/MONITOR bring the LED pattern
    back to where it was (none, CC, blank button, MONITOR, none), and so
    do three presses of PC MODE and of VOLUME INFUSED (none, first,
    second, none); two presses of SEC/PIGGYBACK always do. *)
Theorem led_keys_cycle (w : World) (led : Z) :
  0 <= led < 256 -> ledReady led w ->
  (atMostOneLit (Z.lor (Z.lor LED_CC LED_BLANKBUTTON) LED_MONITOR) led = true ->
   ledsOf (Nat.iter 4 (ledPress keyCC_MONITOR) w) = (led, led)) /\
  (atMostOneLit (Z.lor LED_CONTROLLER LED_PUMP) led = true ->
   ledsOf (Nat.iter 3 (ledPress (keyTwoLeds LED_CONTROLLER LED_PUMP)) w) = (led, led)) /\
  ledsOf (Nat.iter 2 (ledPress keySEC_PIGGY_BACK) w) = (led, led) /\
  (atMostOneLit (Z.lor LED_BATTPWR LED_PLUGPWR) led = true ->
   ledsOf (Nat.iter 3 (ledPress (keyTwoLeds LED_BATTPWR LED_PLUGPWR)) w) = (led, led)).
Proof.
  intros Hled Hw.
  destruct (led_cycles_from_idle led (allBytes_complete led Hled)) as (H1 & H2 & H3 & H4).
  pose proof (idleWith_ledReady led) as Hi.
  rewrite (ledPress_iter_by_led _ ledPress_keyCC_MONITOR_by_led 4 w _ led Hw Hi).
  rewrite (ledPress_iter_by_led _ (ledPress_keyTwoLeds_by_led _ _) 3 w _ led Hw Hi).
  rewrite (ledPress_iter_by_led _ ledPress_keySEC_PIGGY_BACK_by_led 2 w _ led Hw Hi).
  rewrite (ledPress_iter_by_led _ (ledPress_keyTwoLeds_by_led _ _) 3 w _ led Hw Hi).
  repeat split; assumption.
Qed.

Lemma led_keys_cycle_witness :
  ledsOf (Nat.iter 4 (ledPress keyCC_MONITOR) (idleWith 0x84)) = (0x84, 0x84).
Proof.
  assert (Hled : 0 <= 0x84 < 256) by lia.
  exact (proj1 (led_keys_cycle (idleWith 0x84) 0x84 Hled (idleWith_ledReady 0x84)) eq_refl).
Defined.



(** ** Display writes, continued *)

Lemma truthy_false_0 (z : Z) : truthy z = false -> z = 0.
Proof. unfold truthy. intros H. apply negb_false_iff, Z.eqb_eq in H. exact H. Qed.

(** X8.  Apart from [incDispRow], the display driver never leaves the
    array: a row write, a flash and a refresh access only the eight
    elements of [displayArr], whatever their arguments. *)
Theorem display_writes_stay_in_array
  (rowDataArr : list (Z * Z)) (botRow rowSel numFlashes : Z) :
  keeps faults (writeToDispRow rowDataArr botRow) /\
  keeps faults (flashDispRow rowSel numFlashes) /\
  keeps faults refreshAllDisps.
Proof.
  split; [| split].
  - unfold writeToDispRow. destruct (truthy botRow) eqn:E.
    + keeps_all.
    + apply truthy_false_0 in E. subst botRow. keeps_all.
  - keeps_all.
  - keeps_all.
Qed.

(** X22.  An invalid digit on a display in sync: [writeHexToSevSeg]
    returns 1 and transmits nothing; the display keeps its committed
    pattern, stores the invalid code as its digit, and its pending pattern
    holds the decimal point alone (inverted on an active low display). *)
Theorem writeHexToSevSeg_invalid_digit
  (display : SEVEN_SEG_DISP) (hexCode csPortIndex : Z) (w : World) :
  inSync display -> 0x12 <= hexCode ->
  writeHexToSevSeg display hexCode csPortIndex w
  = ((1, mkDisp (activeLow display) hexCode (dp display)
                (let point := if truthy (dp display) then BIT7 else 0x00 in
                 if truthy (activeLow display) then u8 (Z.lnot point) else point)
                (currBinSegCode display)), w).
Proof.
  intros Hs Hv. unfold inSync in Hs. unfold writeHexToSevSeg.
  replace (currBinSegCode display =? nextBinSegCode display) with true
    by (symmetry; apply Z.eqb_eq; exact Hs).
  assert (Hlt : (hexCode <? 0x12) = false) by (apply Z.ltb_ge; exact Hv).
  unfold hexToSevSeg. cbn. rewrite Hlt. reflexivity.
Qed.

Lemma writeHexToSevSeg_invalid_digit_witness :
  fst (fst (writeHexToSevSeg (steady 0x7 1) 0xFF 2 world7)) = 1.
Proof.
  assert (Hs : inSync (steady 0x7 1)) by reflexivity.
  assert (Hv : 0x12 <= 0xFF) by lia.
  rewrite (writeHexToSevSeg_invalid_digit (steady 0x7 1) 0xFF 2 world7 Hs Hv).
  reflexivity.
Defined.

Lemma resync_idempotent (d : SEVEN_SEG_DISP) : resync (resync d) = resync d.
Proof. apply resync_by_content. apply resync_content. Qed.

Lemma map_resync_idempotent (l : list SEVEN_SEG_DISP) :
  map resync (map resync l) = map resync l.
Proof. rewrite map_map. apply map_ext. intros d. apply resync_idempotent. Qed.

(** X23.  [refreshAllDisps] repairs the displays: every display gets the
    pattern of its digit and decimal point as both its pending and its
    committed pattern, so all eight are in sync, whatever they were; the
    digits, decimal points and polarities stay; the eight patterns are
    transmitted in order; and a second refresh leaves the array as the
    first one made it. *)
Theorem refreshAllDisps_repairs (w : World) :
  length (sevSegDispArr w) = 8%nat ->
  let w' := snd (refreshAllDisps w) in
  Forall inSync (sevSegDispArr w') /\
  map content (sevSegDispArr w') = map content (sevSegDispArr w) /\
  (exists frames, spiTx w' = spiTx w ++ frames /\
     map txByte frames = map currBinSegCode (sevSegDispArr w')) /\
  sevSegDispArr (snd (refreshAllDisps w')) = sevSegDispArr w'.
Proof.
  intros Hlen. cbv zeta.
  destruct (refreshAllDisps_run w Hlen) as (w1 & E & A & (frames & Htx & Hb) & _).
  rewrite E. cbn [snd].
  assert (Hlen1 : length (sevSegDispArr w1) = 8%nat) by (rewrite A, length_map; exact Hlen).
  destruct (refreshAllDisps_run w1 Hlen1) as (w2 & E2 & A2 & _).
  rewrite E2. cbn [snd]. rewrite A2, A. repeat split.
  - apply Forall_forall. intros d Hd. apply in_map_iff in Hd.
    destruct Hd as (d0 & <- & _). apply resync_inSync.
  - rewrite map_map. apply map_ext. intros d. apply resync_content.
  - exists frames. split; assumption.
  - apply map_resync_idempotent.
Qed.

Lemma refreshAllDisps_repairs_witness :
  Forall inSync (sevSegDispArr (snd (refreshAllDisps
     (set_sevSegDispArr
        [mkDisp 0 0x12 0 0x00 0x3F; initDisp; initDisp; initDisp;
         initDisp; initDisp; initDisp; initDisp] world7)))).
Proof.
  exact (proj1 (refreshAllDisps_repairs
     (set_sevSegDispArr
        [mkDisp 0 0x12 0 0x00 0x3F; initDisp; initDisp; initDisp;
         initDisp; initDisp; initDisp; initDisp] world7) eq_refl)).
Defined.

Ltac symex_lt :=
  repeat (progress (cbn -[hexToSevSeg];
                    rewrite ?Z.eqb_refl;
                    repeat match goal with
                           | H : (_ =? _) = _ |- _ => rewrite H
                           end)).

Lemma hexToSevSeg_valid_fst (d : SEVEN_SEG_DISP) :
  (hexDigit d <? 0x12) = true -> fst (hexToSevSeg d) = 0.
Proof. intros H. unfold hexToSevSeg. cbn. rewrite H. reflexivity. Qed.

Lemma Forall_four {A : Type} (P : A -> Prop) (a b c d : A) :
  Forall P [a; b; c; d] -> P a /\ P b /\ P c /\ P d.
Proof.
  intros H. repeat (apply Forall_cons_iff in H; destruct H as (? & H)). tauto.
Qed.

Lemma writeToDispRow_run (botRow : Z) (w : World)
  (a0 p0 a1 p1 a2 p2 a3 p3 : Z) :
  length (sevSegDispArr w) = 8%nat ->
  Forall inSync (rowOf botRow (sevSegDispArr w)) ->
  Forall (fun e => (fst e <? 0x12) = true) [(a0, p0); (a1, p1); (a2, p2); (a3, p3)] ->
  let buff := [(a0, p0); (a1, p1); (a2, p2); (a3, p3)] in
  let w' := snd (writeToDispRow buff botRow w) in
  fst (writeToDispRow buff botRow w) = 0 /\
  rowShown botRow w' = asked buff /\
  Forall inSync (rowOf botRow (sevSegDispArr w')) /\
  rowOf (if truthy botRow then 0 else 1) (sevSegDispArr w')
  = rowOf (if truthy botRow then 0 else 1) (sevSegDispArr w) /\
  exists frames,
    spiTx w' = spiTx w ++ frames /\
    map txByte frames = map currBinSegCode (rowOf botRow (sevSegDispArr w')).
Proof.
  intros Hlen Hsync Hvalid.
  destruct w as [rg pn nr tx cs ps pk kp arr nl cl rb ik stray fl].
  cbn [sevSegDispArr] in Hlen, Hsync. eight arr Hlen.
  destruct (Forall_four _ _ _ _ _ Hvalid) as (V0 & V1 & V2 & V3).
  cbn [fst] in V0, V1, V2, V3.
  unfold writeToDispRow, rowShown, asked.
  unfold rowOf in Hsync |- *.
  destruct (truthy botRow) eqn:Eb.
  - cbn in Hsync.
    destruct (Forall_four _ _ _ _ _ Hsync) as (S0 & S1 & S2 & S3).
    unfold inSync in S0, S1, S2, S3.
    cbn -[hexToSevSeg]. rewrite S0, Z.eqb_refl.
    rewrite hexToSevSeg_valid_fst by exact V0.
    cbn -[hexToSevSeg]. rewrite S1, Z.eqb_refl.
    rewrite hexToSevSeg_valid_fst by exact V1.
    cbn -[hexToSevSeg]. rewrite S2, Z.eqb_refl.
    rewrite hexToSevSeg_valid_fst by exact V2.
    cbn -[hexToSevSeg]. rewrite S3, Z.eqb_refl.
    rewrite hexToSevSeg_valid_fst by exact V3.
    cbn -[hexToSevSeg].
    repeat split.
    + repeat constructor.
    + eexists. split; [repeat rewrite <- app_assoc; reflexivity | reflexivity].
  - apply truthy_false_0 in Eb. subst botRow. cbn in Hsync.
    destruct (Forall_four _ _ _ _ _ Hsync) as (S0 & S1 & S2 & S3).
    unfold inSync in S0, S1, S2, S3.
    cbn -[hexToSevSeg]. rewrite S0, Z.eqb_refl.
    rewrite hexToSevSeg_valid_fst by exact V0.
    cbn -[hexToSevSeg]. rewrite S1, Z.eqb_refl.
    rewrite hexToSevSeg_valid_fst by exact V1.
    cbn -[hexToSevSeg]. rewrite S2, Z.eqb_refl.
    rewrite hexToSevSeg_valid_fst by exact V2.
    cbn -[hexToSevSeg]. rewrite S3, Z.eqb_refl.
    rewrite hexToSevSeg_valid_fst by exact V3.
    cbn -[hexToSevSeg].
    repeat split.
    + repeat constructor.
    + eexists. split; [repeat rewrite <- app_assoc; reflexivity | reflexivity].
Qed.

(** X24.  A row write succeeds when the four displays of the row are in
    sync and the buffer holds four valid codes: it returns 0, the row shows
    what the buffer asks, its displays are in sync again, the other row is
    untouched, and the four new patterns are what was transmitted. *)
Theorem writeToDispRow_shows_buffer (botRow : Z) (w : World)
  (a0 p0 a1 p1 a2 p2 a3 p3 : Z) :
  length (sevSegDispArr w) = 8%nat ->
  Forall inSync (rowOf botRow (sevSegDispArr w)) ->
  Forall (fun e => (fst e <? 0x12) = true) [(a0, p0); (a1, p1); (a2, p2); (a3, p3)] ->
  let buff := [(a0, p0); (a1, p1); (a2, p2); (a3, p3)] in
  let w' := snd (writeToDispRow buff botRow w) in
  fst (writeToDispRow buff botRow w) = 0 /\
  rowShown botRow w' = asked buff /\
  Forall inSync (rowOf botRow (sevSegDispArr w')) /\
  rowOf (if truthy botRow then 0 else 1) (sevSegDispArr w')
  = rowOf (if truthy botRow then 0 else 1) (sevSegDispArr w) /\
  exists frames,
    spiTx w' = spiTx w ++ frames /\
    map txByte frames = map currBinSegCode (rowOf botRow (sevSegDispArr w')).
Proof. apply writeToDispRow_run. Qed.

Lemma writeToDispRow_shows_buffer_witness :
  rowShown TOP_ROW
    (snd (writeToDispRow [(OFF_CODE, 0); (OFF_CODE, 0); (0x0, 5); (OFF_CODE, 0)] TOP_ROW
            world1000))
  = [(OFF_CODE, 0); (OFF_CODE, 0); (0x0, 1); (OFF_CODE, 0)].
Proof.
  assert (Hs : Forall inSync (rowOf TOP_ROW (sevSegDispArr world1000)))
    by (repeat constructor).
  assert (Hv : Forall (fun e => (fst e <? 0x12) = true)
                 [(OFF_CODE, 0); (OFF_CODE, 0); (0x0, 5); (OFF_CODE, 0)])
    by (repeat constructor).
  exact (proj1 (proj2 (writeToDispRow_shows_buffer TOP_ROW world1000
                         OFF_CODE 0 OFF_CODE 0 0x0 5 OFF_CODE 0 eq_refl Hs Hv))).
Defined.

(** X25.  A row write stops at the first display that refuses: when the
    first display of the row is out of sync, the write returns 2 with
    nothing transmitted and the three displays behind it untouched; but
    the decimal point member of the refusing display has already been
    overwritten. *)
Theorem writeToDispRow_stops_at_refusal
  (rowDataArr : list (Z * Z)) (botRow : Z) (w : World) :
  length (sevSegDispArr w) = 8%nat ->
  ~ inSync (nthZ (sevSegDispArr w) (hundredsSlot botRow) (strayDisp w)) ->
  writeToDispRow rowDataArr botRow w
  = (2, set_sevSegDispArr
          (updZ (sevSegDispArr w) (hundredsSlot botRow)
             (set_dp (if truthy (snd (nthZ rowDataArr 0 (0, 0))) then 1 else 0)
                     (nthZ (sevSegDispArr w) (hundredsSlot botRow) (strayDisp w))))
          w).
Proof.
  intros Hlen Hns.
  destruct w as [rg pn nr tx cs ps pk kp arr nl cl rb ik stray fl].
  cbn [sevSegDispArr strayDisp] in *. eight arr Hlen.
  unfold writeToDispRow, hundredsSlot in *.
  cbn [writeToDispRow_loop]. destruct (nthZ rowDataArr 0 (0, 0)) as [dat dpFlag].
  cbn [snd].
  destruct (truthy botRow) eqn:Eb.
  - cbn in Hns. unfold inSync in Hns. apply Z.eqb_neq in Hns.
    cbn. rewrite Hns. cbn.
    replace (nextBinSegCode d3 =? currBinSegCode d3) with false
      by (symmetry; rewrite Z.eqb_sym; exact Hns).
    reflexivity.
  - apply truthy_false_0 in Eb. subst botRow.
    cbn in Hns. unfold inSync in Hns. apply Z.eqb_neq in Hns.
    cbn. rewrite Hns. cbn.
    replace (nextBinSegCode d =? currBinSegCode d) with false
      by (symmetry; rewrite Z.eqb_sym; exact Hns).
    reflexivity.
Qed.

Lemma writeToDispRow_stops_at_refusal_witness :
  fst (writeToDispRow [(0x1, 1); (0x2, 0); (0x3, 0); (0x4, 0)] TOP_ROW
         (set_sevSegDispArr
            [mkDisp 0 0x12 0 0x00 0x3F; initDisp; initDisp; initDisp;
             initDisp; initDisp; initDisp; initDisp] world7)) = 2.
Proof.
  assert (Hns : ~ inSync (mkDisp 0 0x12 0 0x00 0x3F)) by (unfold inSync; cbn; discriminate).
  rewrite (writeToDispRow_stops_at_refusal [(0x1, 1); (0x2, 0); (0x3, 0); (0x4, 0)] TOP_ROW
             (set_sevSegDispArr
                [mkDisp 0 0x12 0 0x00 0x3F; initDisp; initDisp; initDisp;
                 initDisp; initDisp; initDisp; initDisp] world7) eq_refl Hns).
  reflexivity.
Defined.

Lemma flashDispRow_loop (row numFlashes : Z) (idxs : list Z) :
  forall w, length (sevSegDispArr w) = 8%nat ->
    let w' := snd (forEach idxs (fun flashIndex =>
                     orReg DISPS_CSOUT row ;;
                     usciXNSpiPutChar 0x00 ;;
                     clearReg DISPS_CSOUT row ;;
                     delay_cycles DISP_FLASH_DELAY ;;
                     refreshAllDisps ;;
                     if flashIndex <? numFlashes - 1
                     then delay_cycles DISP_FLASH_DELAY else ret tt) w) in
    sevSegDispArr w' = match idxs with
                       | [] => sevSegDispArr w
                       | _ :: _ => map resync (sevSegDispArr w)
                       end /\
    length (spiTx w') = (length (spiTx w) + 9 * length idxs)%nat.
Proof.
  induction idxs as [|i rest IH]; intros w Hlen; cbv zeta.
  - cbn. split; [reflexivity | lia].
  - rewrite forEach_cons, snd_bind. cbv beta.
    match goal with
    | |- context [forEach rest ?body (snd (?c w))] => set (w1 := snd (c w))
    end.
    assert (H1 : sevSegDispArr w1 = map resync (sevSegDispArr w) /\
                 length (spiTx w1) = (length (spiTx w) + 9)%nat).
    { subst w1.
      rewrite snd_bind. cbv beta. rewrite snd_bind. cbv beta. rewrite snd_bind. cbv beta.
      rewrite snd_bind. cbv beta. rewrite snd_bind. cbv beta.
      match goal with
      | |- context [refreshAllDisps ?W] => set (w0 := W)
      end.
      assert (Hlen0 : length (sevSegDispArr w0) = 8%nat) by exact Hlen.
      destruct (refreshAllDisps_run w0 Hlen0) as (w2 & E & A & (frames & Htx & Hb) & _).
      rewrite E. cbn [snd fst].
      assert (Hw2 : forall b : bool,
                 snd ((if b then delay_cycles DISP_FLASH_DELAY else ret tt) w2) = w2)
        by (intros []; reflexivity).
      rewrite Hw2, A, Htx. split; [reflexivity |].
      rewrite length_app.
      assert (Hf : length frames = 8%nat).
      { rewrite <- (length_map txByte), Hb, !length_map. exact Hlen0. }
      rewrite Hf. subst w0. cbn. rewrite length_app. cbn. lia. }
    destruct H1 as (A1 & T1).
    assert (Hlen1 : length (sevSegDispArr w1) = 8%nat) by (rewrite A1, length_map; exact Hlen).
    destruct (IH w1 Hlen1) as (A2 & T2). cbv zeta in A2, T2.
    rewrite A2, T2, T1, A1. split.
    + destruct rest; [reflexivity | apply map_resync_idempotent].
    + cbn [length]. lia.
Qed.

(** X26.  A flash redraws and keeps what the displays hold: after
    [flashDispRow] with at least one flash, every display has the pattern
    of its own digit and decimal point, pending and committed, and no
    digit, decimal point or polarity has changed; each flash transmits
    nine bytes, the blanking byte and the eight patterns.  With no flash
    asked for, nothing happens at all. *)
Theorem flashDispRow_redraws (rowSel numFlashes : Z) (w : World) :
  length (sevSegDispArr w) = 8%nat ->
  let w' := snd (flashDispRow rowSel numFlashes w) in
  sevSegDispArr w' = (if 0 <? numFlashes then map resync (sevSegDispArr w)
                      else sevSegDispArr w) /\
  map content (sevSegDispArr w') = map content (sevSegDispArr w) /\
  length (spiTx w') = (length (spiTx w) + 9 * Z.to_nat numFlashes)%nat.
Proof.
  intros Hlen. cbv zeta. unfold flashDispRow.
  destruct (flashDispRow_loop
              (if rowSel =? TOP_ROW then TOP_DISPS
               else if rowSel =? BOT_ROW then BOT_DISPS else ALL_DISPS)
              numFlashes (map Z.of_nat (seq 0 (Z.to_nat numFlashes))) w Hlen) as (A & T).
  cbv zeta in A, T. rewrite length_map, length_seq in T.
  assert (Ha : sevSegDispArr
                 (snd (forEach (map Z.of_nat (seq 0 (Z.to_nat numFlashes)))
                         (fun flashIndex =>
                            orReg DISPS_CSOUT
                              (if rowSel =? TOP_ROW then TOP_DISPS
                               else if rowSel =? BOT_ROW then BOT_DISPS else ALL_DISPS) ;;
                            usciXNSpiPutChar 0x00 ;;
                            clearReg DISPS_CSOUT
                              (if rowSel =? TOP_ROW then TOP_DISPS
                               else if rowSel =? BOT_ROW then BOT_DISPS else ALL_DISPS) ;;
                            delay_cycles DISP_FLASH_DELAY ;;
                            refreshAllDisps ;;
                            if flashIndex <? numFlashes - 1
                            then delay_cycles DISP_FLASH_DELAY else ret tt) w))
               = if 0 <? numFlashes then map resync (sevSegDispArr w) else sevSegDispArr w).
  { rewrite A. destruct (Z.ltb_spec 0 numFlashes) as [Hpos | Hneg].
    - destruct (Z.to_nat numFlashes) as [|k] eqn:Ek; [lia | reflexivity].
    - replace (Z.to_nat numFlashes) with 0%nat by lia. reflexivity. }
  split; [exact Ha |]. split; [| exact T].
  rewrite Ha. destruct (0 <? numFlashes); [| reflexivity].
  rewrite map_map. apply map_ext. intros d. apply resync_content.
Qed.

Lemma flashDispRow_redraws_witness :
  length (spiTx (snd (flashDispRow ALL_ROWS 2 world7))) = 18%nat.
Proof.
  exact (proj2 (proj2 (flashDispRow_redraws ALL_ROWS 2 world7 eq_refl))).
Defined.



(** ** The scan of the keypad *)

Lemma keeps_pending_readReg (r : Reg) : keeps pendingKeyCoord (readReg r).
Proof. keeps_all. Qed.

Lemma keeps_pending_clearReg (r : Reg) (m : Z) : keeps pendingKeyCoord (clearReg r m).
Proof. keeps_all. Qed.

Lemma keeps_pending_orReg (r : Reg) (m : Z) : keeps pendingKeyCoord (orReg r m).
Proof. keeps_all. Qed.

Lemma scanRows_outcome (keypad : MATRIX_KEYPAD) (colPinIndex : Z) (rows : list Z) :
  forall w,
    let r := scanRows keypad colPinIndex rows w in
    (fst r = false /\ pendingKeyCoord (snd r) = pendingKeyCoord w) \/
    (fst r = true /\
     exists row, In row rows /\
       truthy (Z.land (Z.shiftl BIT0 row) (ROW_PINS keypad)) = true /\
       pendingKeyCoord (snd r) = u8 (Z.lor (Z.shiftl colPinIndex 4) row)).
Proof.
  induction rows as [|row rest IH]; intros w; cbv zeta; cbn [scanRows].
  - left. split; reflexivity.
  - rewrite bind_run.
    pose proof (keeps_pending_readReg (ROW_IN keypad) w) as K.
    set (rowIn := fst (readReg (ROW_IN keypad) w)) in *.
    set (w1 := snd (readReg (ROW_IN keypad) w)) in *.
    destruct (truthy (Z.land (Z.land (Z.shiftl BIT0 row) (ROW_PINS keypad)) rowIn)) eqn:E.
    + right. rewrite !bind_run. cbn [ret fst snd modify].
      split; [reflexivity |]. exists row. split; [left; reflexivity |]. split.
      * unfold truthy in *. apply negb_true_iff, Z.eqb_neq in E.
        apply negb_true_iff, Z.eqb_neq. intros H0. apply E. rewrite H0. reflexivity.
      * rewrite keeps_pending_orReg. reflexivity.
    + destruct (IH w1) as [(F & P) | (F & row' & Hin & Hbit & P)]; cbv zeta in *.
      * left. split; [exact F | rewrite P; exact K].
      * right. split; [exact F |]. exists row'. split; [right; exact Hin |].
        split; assumption.
Qed.

Lemma scanCols_outcome (keypad : MATRIX_KEYPAD) (cols : list Z) :
  forall w, scanOutcome keypad cols w (scanCols keypad cols w).
Proof.
  induction cols as [|col rest IH]; intros w; cbn [scanCols].
  - left. split; reflexivity.
  - assert (Hrest : forall w1, pendingKeyCoord w1 = pendingKeyCoord w ->
                      scanOutcome keypad (col :: rest) w (scanCols keypad rest w1)).
    { intros w1 P1. destruct (IH w1) as [(F & P) | (F & c & r & Hc & Hr & Hcb & Hrb & P)].
      - left. split; [exact F | rewrite P; exact P1].
      - right. split; [exact F |]. exists c, r. repeat split; try assumption.
        right; exact Hc. }
    destruct (truthy (Z.land (Z.shiftl BIT0 col) (COL_PINS keypad))) eqn:Ecol; cbn [negb].
    + rewrite !bind_run.
      set (w1 := snd (clearReg (COL_OUT keypad) (COL_PINS keypad) w)).
      set (w2 := snd (orReg (COL_OUT keypad) (Z.shiftl BIT0 col) w1)).
      set (w3 := snd (readReg (ROW_IN keypad) w2)).
      assert (P3 : pendingKeyCoord w3 = pendingKeyCoord w).
      { subst w3 w2 w1.
        rewrite keeps_pending_readReg, keeps_pending_orReg, keeps_pending_clearReg.
        reflexivity. }
      destruct (truthy (Z.land (fst (readReg (ROW_IN keypad) w2)) (ROW_PINS keypad))).
      * rewrite bind_run.
        destruct (scanRows_outcome keypad col upto8 w3)
          as [(F & P) | (F & row & Hin & Hbit & P)]; cbv zeta in *.
        -- rewrite F. apply Hrest. rewrite P. exact P3.
        -- rewrite F. right. split; [reflexivity |]. exists col, row.
           repeat split; try assumption. left; reflexivity.
      * apply Hrest. exact P3.
    + apply Hrest. reflexivity.
Qed.

(** X27.  What a scan can report.  [scanForKeyPress] returns 1 and leaves
    the pending coordinate as it was, or it returns 0 and the pending
    coordinate is that of a crossing of a column pin and a row pin of the
    keypad: the column index in the high nibble, the row index in the low
    one.  The committed coordinate of the keypad object is never touched
    by a scan. *)
Theorem scanForKeyPress_outcome (keypad : MATRIX_KEYPAD) (w : World) :
  scanOutcome keypad upto8 w (scanForKeyPress keypad w) /\
  geminiKeypad (snd (scanForKeyPress keypad w)) = geminiKeypad w.
Proof.
  split.
  2: { pose proof (proj1 (keeps_keypad_module keypad) w) as K. unfold panelState in K.
       congruence. }
  unfold scanForKeyPress. rewrite !bind_run. cbn [ret fst snd].
  set (w1 := snd (clearReg (ROW_IE keypad) (ROW_PINS keypad) w)).
  assert (P1 : pendingKeyCoord w1 = pendingKeyCoord w) by apply keeps_pending_clearReg.
  pose proof (scanCols_outcome keypad upto8 w1) as H. unfold scanOutcome in H.
  set (e := fst (scanCols keypad upto8 w1)) in *.
  set (w2 := snd (scanCols keypad upto8 w1)) in *.
  assert (P2 : pendingKeyCoord
                 (snd (orReg (ROW_IE keypad) (ROW_PINS keypad)
                    (snd (orReg (COL_OUT keypad) (COL_PINS keypad)
                       (snd (clearReg (ROW_IFG keypad) (ROW_PINS keypad) w2))))))
               = pendingKeyCoord w2).
  { rewrite keeps_pending_orReg, keeps_pending_orReg, keeps_pending_clearReg. reflexivity. }
  clearbody e w2. unfold scanOutcome in *. cbn [fst snd] in *.
  destruct H as [(F & P) | (F & col & row & Hc & Hr & Hcb & Hrb & P)].
  - left. split; [exact F | rewrite P2, P; exact P1].
  - right. split; [exact F |]. exists col, row. repeat split; try assumption.
    rewrite P2. exact P.
Qed.

(** ** The SPI module *)

Lemma putChars_run (g : Z -> Z) (idxs : list Z)
  (rg : Reg -> Z) (pn : Reg -> nat -> Z) (nr : nat) (tx : list SpiFrame) (cs ps pk : Z)
  (kp : MATRIX_KEYPAD) (arr : list SEVEN_SEG_DISP) (nl cl : Z) (rb : list (Z * Z)) (ik : Z)
  (stray : SEVEN_SEG_DISP) (fl : list Access) :
  forEach idxs (fun i => usciXNSpiPutChar (g i))
          (mkWorld rg pn nr tx cs ps pk kp arr nl cl rb ik stray fl)
  = (tt, mkWorld rg pn nr
           (tx ++ map (fun i => mkFrame (rg P3OUT) (rg P1OUT) (g i)) idxs)
           cs ps pk kp arr nl cl rb ik stray fl).
Proof.
  revert tx. induction idxs as [|i rest IH]; intros tx.
  - cbn. rewrite app_nil_r. reflexivity.
  - rewrite forEach_cons. unfold bind at 1. cbn [usciXNSpiPutChar modify].
    cbv [set_spiTx regs pins nreads spiTx currSysState prevSysState pendingKeyCoord
         geminiKeypad sevSegDispArr nextLedSRState currLedSRState rowDataBuff
         invalidKeyPress strayDisp faults].
    rewrite IH. cbn [map]. rewrite <- app_assoc. reflexivity.
Qed.

Lemma nthZ_prefix (buffer : list Z) (g : Z -> Z) :
  forall (n k : nat), (n <= length buffer)%nat ->
    map (fun i => nthZ buffer (i - Z.of_nat k) (g i)) (map Z.of_nat (seq k n))
    = firstn n buffer.
Proof.
  induction buffer as [|x t IH]; intros n k Hn.
  - cbn in Hn. replace n with 0%nat by lia. reflexivity.
  - destruct n as [|n]; [reflexivity |].
    cbn [seq map firstn nthZ]. rewrite Z.sub_diag. cbn [Z.eqb]. f_equal.
    rewrite <- (IH n (S k)) by (cbn in Hn; lia).
    apply map_ext_in. intros i Hi. apply in_map_iff in Hi.
    destruct Hi as (j & <- & Hj). apply in_seq in Hj.
    replace (Z.of_nat j - Z.of_nat k =? 0) with false by (symmetry; apply Z.eqb_neq; lia).
    f_equal. lia.
Qed.

(** X28.  [usciXNSpiTxBuffer].  A length above [SPI_BUF_SZ] is refused
    with 1 and nothing is sent.  A length from 0 to [SPI_BUF_SZ] that the
    buffer covers sends exactly the first [buffLen] bytes of the buffer,
    in order, and returns 0.  A negative length passes the check, which
    compares it as an [int], and then counts as an unsigned number in the
    loop test: [65536 + buffLen] bytes are sent, far beyond any buffer of
    at most [SPI_BUF_SZ] bytes. *)
Theorem usciXNSpiTxBuffer_cases (buffer : list Z) (beyond : Z -> Z) (buffLen : Z) (w : World) :
  (SPI_BUF_SZ < buffLen -> usciXNSpiTxBuffer buffer beyond buffLen w = (1, w)) /\
  (0 <= buffLen <= SPI_BUF_SZ -> buffLen <= Z.of_nat (length buffer) ->
   usciXNSpiTxBuffer buffer beyond buffLen w
   = (0, set_spiTx (spiTx w ++ map (mkFrame (regs w P3OUT) (regs w P1OUT))
                                   (firstn (Z.to_nat buffLen) buffer)) w)) /\
  (- 32768 <= buffLen < 0 ->
   fst (usciXNSpiTxBuffer buffer beyond buffLen w) = 0 /\
   length (spiTx (snd (usciXNSpiTxBuffer buffer beyond buffLen w)))
   = (length (spiTx w) + Z.to_nat (65536 + buffLen))%nat).
Proof.
  unfold usciXNSpiTxBuffer, SPI_BUF_SZ.
  destruct w as [rg pn nr tx cs ps pk kp arr nl cl rb ik stray fl].
  split; [| split].
  - intros H. replace (buffLen <=? 100) with false by (symmetry; apply Z.leb_gt; exact H).
    reflexivity.
  - intros H Hlen. replace (buffLen <=? 100) with true by (symmetry; apply Z.leb_le; lia).
    unfold bind. rewrite putChars_run. cbn [ret set_spiTx spiTx regs].
    assert (Hu : u16 buffLen = buffLen) by (unfold u16; apply Z.mod_small; lia).
    rewrite Hu.
    assert (E : map (fun i => mkFrame (rg P3OUT) (rg P1OUT) (nthZ buffer i (beyond i)))
                    (map Z.of_nat (seq 0 (Z.to_nat buffLen)))
                = map (mkFrame (rg P3OUT) (rg P1OUT)) (firstn (Z.to_nat buffLen) buffer)).
    { rewrite <- (nthZ_prefix buffer beyond (Z.to_nat buffLen) 0) by lia.
      rewrite !map_map. apply map_ext. intros i. cbn [Z.of_nat]. rewrite Z.sub_0_r.
      reflexivity. }
    rewrite E. reflexivity.
  - intros H. replace (buffLen <=? 100) with true by (symmetry; apply Z.leb_le; lia).
    unfold bind. rewrite putChars_run. cbn [ret fst snd spiTx].
    split; [reflexivity |].
    rewrite length_app, !length_map, length_seq. f_equal. f_equal.
    unfold u16. symmetry. apply Z.mod_unique with (q := -1); lia.
Qed.

Lemma usciXNSpiTxBuffer_cases_witness :
  usciXNSpiTxBuffer [0x3F; 0x06; 0x5B] (fun _ => 0) 2 world7
  = (0, set_spiTx [mkFrame 0 0 0x3F; mkFrame 0 0 0x06] world7).
Proof.
  assert (H1 : 0 <= 2 <= SPI_BUF_SZ) by (unfold SPI_BUF_SZ; lia).
  assert (H2 : 2 <= Z.of_nat (length [0x3F; 0x06; 0x5B])) by (cbn; lia).
  exact (proj1 (proj2 (usciXNSpiTxBuffer_cases [0x3F; 0x06; 0x5B] (fun _ => 0) 2 world7)) H1 H2).
Defined.

(** X29.  [usciXNSpiClkDiv] splits the divisor over the two prescaler
    registers so that they recombine to it, the low byte in [UCXNBR0] and
    the high byte in [UCXNBR1]; it leaves the peripheral out of reset, and
    the control bits outside the reset mask as they were. *)
Theorem usciXNSpiClkDiv_splits_divisor (UCSWRST sclkDiv : Z) (usciXN : USCIXNSPI) :
  0 <= sclkDiv < 65536 ->
  let usci' := usciXNSpiClkDiv UCSWRST usciXN sclkDiv in
  UCXNBR0 usci' + 256 * UCXNBR1 usci' = sclkDiv /\
  0 <= UCXNBR0 usci' < 256 /\ 0 <= UCXNBR1 usci' < 256 /\
  Z.land (UCXNCTL1 usci') UCSWRST = 0 /\
  forall n, 0 <= n < 8 -> Z.testbit UCSWRST n = false ->
            Z.testbit (UCXNCTL1 usci') n = Z.testbit (UCXNCTL1 usciXN) n.
Proof.
  intros Hd. cbv zeta. unfold usciXNSpiClkDiv. cbn [UCXNBR0 UCXNBR1 UCXNCTL1].
  change 0xFF with (Z.ones 8). rewrite Z.land_ones by lia.
  rewrite Z.shiftr_div_pow2 by lia. change (2 ^ 8) with 256.
  assert (H0 : u8 (sclkDiv mod 256) = sclkDiv mod 256)
    by (unfold u8; apply Z.mod_small; apply Z.mod_pos_bound; lia).
  assert (H1 : u8 (sclkDiv / 256) = sclkDiv / 256).
  { unfold u8. apply Z.mod_small. split; [apply Z.div_pos; lia |].
    apply Z.div_lt_upper_bound; lia. }
  rewrite H0, H1.
  pose proof (Z.mod_pos_bound sclkDiv 256 ltac:(lia)) as Hm.
  pose proof (Z.div_mod sclkDiv 256 ltac:(lia)) as Hdm.
  assert (Hq : 0 <= sclkDiv / 256 < 256).
  { split; [apply Z.div_pos; lia | apply Z.div_lt_upper_bound; lia]. }
  repeat split; try lia.
  - unfold clearBits. rewrite <- Z.land_assoc, (Z.land_comm (Z.lnot UCSWRST)),
      Z.land_lnot_diag. apply Z.land_0_r.
  - intros n Hn Hbit. unfold clearBits.
    rewrite Z.land_spec, Z.lnot_spec, Hbit by lia.
    unfold u8. change 256 with (2 ^ 8). rewrite Z.mod_pow2_bits_low by lia.
    rewrite Z.lor_spec, Hbit. cbn [negb]. rewrite andb_true_r, orb_false_r. reflexivity.
Qed.

Lemma usciXNSpiClkDiv_splits_divisor_witness :
  UCXNBR0 (usciXNSpiClkDiv BIT0 (mkUsci 0xC1 0 0) 0x1234)
  + 256 * UCXNBR1 (usciXNSpiClkDiv BIT0 (mkUsci 0xC1 0 0) 0x1234) = 0x1234.
Proof.
  assert (H : 0 <= 0x1234 < 65536) by lia.
  exact (proj1 (usciXNSpiClkDiv_splits_divisor BIT0 0x1234 (mkUsci 0xC1 0 0) H)).
Defined.
